(** * 3D chess: the rules engine of [src/lib/gameLogic.ts] and the move
    applier of [src/App.tsx], embedded in Rocq.

    The board is the array of arrays of arrays the TypeScript code uses,
    indexed [boardState[x][y][z]]; coordinates are the integers the loops and
    offset tables of the source produce, so they are modelled in [Z].
    Loops with [break] and [return] become structural recursion over the list
    of values the loop variable takes. *)

From Stdlib Require Import ZArith List Bool String Ascii Lia.
From stdpp Require Import base tactics decidable option list numbers strings sorting.

Local Open Scope Z_scope.
Set Warnings "-clear-no-such-hyp".

(** ** Types ([types.ts]) *)

Inductive PieceType := P | N | B | R | Q | K.
Inductive Color := white | black.

(** The optional tag [castle?: 'king' | 'queen'] of a move. *)
Module Castle.
Inductive t := king | queen.
End Castle.

#[global] Instance PieceType_eq_dec : EqDecision PieceType.
Proof. solve_decision. Defined.
#[global] Instance Color_eq_dec : EqDecision Color.
Proof. solve_decision. Defined.
#[global] Instance Castle_eq_dec : EqDecision Castle.t.
Proof. solve_decision. Defined.

Module Piece.
Record t := mk
  { type : PieceType; color : Color; x : Z; y : Z; z : Z; hasMoved : bool }.
End Piece.

Module Move.
Record t := mk
  { x : Z; y : Z; z : Z; capture : bool; castle : option Castle.t }.
End Move.

#[global] Instance Piece_eq_dec : EqDecision Piece.t.
Proof. solve_decision. Defined.
#[global] Instance Move_eq_dec : EqDecision Move.t.
Proof. solve_decision. Defined.

(** [BoardState = (Piece | null)[][][]]; [None] is [null]. *)
Abbreviation BoardState := (list (list (list (option Piece.t)))).

Definition SIZE : Z := 8.

(** ** Array access

    [at_ l i] is the JavaScript read [l[i]] of an array at an integer index:
    [None] stands for [undefined]. *)
Definition at_ {A : Type} (l : list A) (i : Z) : option A :=
  if bool_decide (0 ≤ i) then l !! Z.to_nat i else None.

(** [cell b x y z] is the read [boardState[x][y][z]] as the generator and
    the attack detector perform it: always behind [isWithinBounds] or at a
    constant index of the cube, where (on a board of 8 x 8 x 8 cells) it
    yields [null] or a piece. *)
Definition cell (b : BoardState) (x y z : Z) : option Piece.t :=
  match at_ b x with
  | Some col =>
      match at_ col y with
      | Some row => match at_ row z with Some c => c | None => None end
      | None => None
      end
  | None => None
  end.

(** JavaScript truthiness of a cell: a piece object is truthy, [null] is not. *)
Definition truthy (c : option Piece.t) : bool :=
  match c with Some _ => true | None => false end.

(** [store b x y z v] is the write [boardState[x][y][z] = v] at an index
    inside the cube. *)
Definition store (b : BoardState) (x y z : Z) (v : option Piece.t) : BoardState :=
  match at_ b x with
  | Some col =>
      match at_ col y with
      | Some row =>
          <[Z.to_nat x := <[Z.to_nat y := <[Z.to_nat z := v]> row]> col]> b
      | None => b
      end
  | None => b
  end.

(** ** [initializeBoardState] *)

Definition emptyBoard : BoardState :=
  replicate (Z.to_nat SIZE) (replicate (Z.to_nat SIZE) (replicate (Z.to_nat SIZE) None)).

Definition MAJOR_PIECE_PATTERN : list string :=
  [ "rnbrrbnr"; "nnbnnbnn"; "bbbqqbbb"; "rnqqkqnr";
    "rnqqqqnr"; "bbbqqbbb"; "nnbnnbnn"; "rnbrrbnr" ]%string.

Definition PAWN_ROW : string := "pppppppp"%string.

(** [char.toUpperCase() as Piece['type']]: the patterns hold only the six
    letters below. *)
Definition pieceKey (c : ascii) : option PieceType :=
  if bool_decide (c = "p"%char) then Some P
  else if bool_decide (c = "n"%char) then Some N
  else if bool_decide (c = "b"%char) then Some B
  else if bool_decide (c = "r"%char) then Some R
  else if bool_decide (c = "q"%char) then Some Q
  else if bool_decide (c = "k"%char) then Some K
  else None.

Definition layerPattern (z : Z) : option (list string) :=
  if bool_decide (z = 0) then Some MAJOR_PIECE_PATTERN
  else if bool_decide (z = 1) then Some (replicate (Z.to_nat SIZE) PAWN_ROW)
  else if bool_decide (z = 6) then Some (replicate (Z.to_nat SIZE) PAWN_ROW)
  else if bool_decide (z = 7) then Some MAJOR_PIECE_PATTERN
  else None.

Definition initCell (state : BoardState) (pat : list string) (x y z : Z) : BoardState :=
  match at_ pat y with
  | Some rowString =>
      match String.get (Z.to_nat x) rowString with
      | Some char =>
          if bool_decide (char = " "%char) then state
          else match pieceKey char with
               | Some pk =>
                   store state x y z
                     (Some (Piece.mk pk (if bool_decide (z < 2) then white else black)
                                     x y z false))
               | None => state
               end
      | None => state
      end
  | None => state
  end.

Definition initializeBoardState : BoardState :=
  foldl (fun state z =>
           match layerPattern z with
           | Some pat =>
               foldl (fun state y =>
                        foldl (fun state x => initCell state pat x y z)
                              state (seqZ 0 SIZE))
                     state (seqZ 0 SIZE)
           | None => state
           end)
        emptyBoard (seqZ 0 SIZE).

(** ** [isWithinBounds] *)

Definition isWithinBounds (x y z : Z) : bool :=
  bool_decide (0 ≤ x) && bool_decide (x < SIZE) &&
  bool_decide (0 ≤ y) && bool_decide (y < SIZE) &&
  bool_decide (0 ≤ z) && bool_decide (z < SIZE).

(** ** Offset tables *)

Definition opponentOf (c : Color) : Color :=
  match c with white => black | black => white end.

Definition zDirOf (c : Color) : Z :=
  match c with white => 1 | black => -1 end.

(** The eight [[dx, dy]] pairs built by the nested [for ... of [-1, 0, 1]]
    loops, in push order. *)
Definition pawnCaptureDirections : list (Z * Z) :=
  flat_map (fun dx =>
    flat_map (fun dy =>
      if bool_decide (dx = 0) && bool_decide (dy = 0) then [] else [(dx, dy)])
      [-1; 0; 1])
    [-1; 0; 1].

Definition knightMoves : list (Z * Z * Z) :=
  [ (2, 1, 0); (2, -1, 0); (-2, 1, 0); (-2, -1, 0);
    (1, 2, 0); (1, -2, 0); (-1, 2, 0); (-1, -2, 0);
    (2, 0, 1); (2, 0, -1); (-2, 0, 1); (-2, 0, -1);
    (1, 0, 2); (1, 0, -2); (-1, 0, 2); (-1, 0, -2);
    (0, 2, 1); (0, 2, -1); (0, -2, 1); (0, -2, -1);
    (0, 1, 2); (0, 1, -2); (0, -1, 2); (0, -1, -2) ].

Definition all3DDirections : list (Z * Z * Z) :=
  flat_map (fun dx =>
    flat_map (fun dy =>
      flat_map (fun dz =>
        if bool_decide (dx = 0) && bool_decide (dy = 0) && bool_decide (dz = 0)
        then [] else [(dx, dy, dz)])
        (seqZ (-1) 3))
      (seqZ (-1) 3))
    (seqZ (-1) 3).

Definition absSum (d : Z * Z * Z) : Z :=
  let '(dx, dy, dz) := d in Z.abs dx + Z.abs dy + Z.abs dz.

Definition isOrthogonal (d : Z * Z * Z) : bool := bool_decide (absSum d = 1).
Definition isDiagonal (d : Z * Z * Z) : bool := bool_decide (1 < absSum d).

(** ** [isSquareAttacked] *)

Definition pawnAt (b : BoardState) (attackerColor : Color) (x y z : Z) : bool :=
  isWithinBounds x y z &&
  match cell b x y z with
  | Some piece =>
      bool_decide (Piece.type piece = P) &&
      bool_decide (Piece.color piece = attackerColor)
  | None => false
  end.

Definition knightAt (b : BoardState) (attackerColor : Color) (x y z : Z) : bool :=
  isWithinBounds x y z &&
  match cell b x y z with
  | Some piece =>
      bool_decide (Piece.type piece = N) &&
      bool_decide (Piece.color piece = attackerColor)
  | None => false
  end.

(** The test applied to the first piece a ray meets, at step [k] along [d]. *)
Definition rayThreat (piece : Piece.t) (d : Z * Z * Z) (k : Z) : bool :=
  match Piece.type piece with
  | Q => true
  | R => isOrthogonal d
  | B => isDiagonal d
  | K => bool_decide (k = 1)
  | _ => false
  end.

(** The inner loop [for (let k = 1; k < SIZE; k++)] of the ray casting, over
    the remaining values [ks] of [k]: [break] ends the ray with [false],
    [return true] with [true]. *)
Fixpoint rayAttacked (b : BoardState) (attackerColor : Color) (x y z : Z)
    (d : Z * Z * Z) (ks : list Z) : bool :=
  match ks with
  | [] => false
  | k :: ks' =>
      let '(dx, dy, dz) := d in
      let checkX := x + dx * k in
      let checkY := y + dy * k in
      let checkZ := z + dz * k in
      if negb (isWithinBounds checkX checkY checkZ) then false
      else match cell b checkX checkY checkZ with
           | Some piece =>
               bool_decide (Piece.color piece = attackerColor) &&
               rayThreat piece d k
           | None => rayAttacked b attackerColor x y z d ks'
           end
  end.

Definition isSquareAttacked (x y z : Z) (attackerColor : Color) (boardState : BoardState) : bool :=
  let zDir := zDirOf attackerColor in
  existsb (fun '(dx, dy) => pawnAt boardState attackerColor (x - dx) (y - dy) (z - zDir))
          pawnCaptureDirections
  || existsb (fun '(dx, dy, dz) => knightAt boardState attackerColor (x - dx) (y - dy) (z - dz))
             knightMoves
  || existsb (fun d => rayAttacked boardState attackerColor x y z d (seqZ 1 (SIZE - 1)))
             all3DDirections.

(** ** [findKing] and [isKingInCheck] *)

Definition isKingOf (kingColor : Color) (c : option Piece.t) : bool :=
  match c with
  | Some piece =>
      bool_decide (Piece.type piece = K) && bool_decide (Piece.color piece = kingColor)
  | None => false
  end.

(** The cells in the order the three nested loops of [findKing] visit them. *)
Definition allCells : list (Z * Z * Z) :=
  flat_map (fun x => flat_map (fun y => map (fun z => (x, y, z)) (seqZ 0 SIZE))
                              (seqZ 0 SIZE))
           (seqZ 0 SIZE).

Fixpoint firstKing (kingColor : Color) (b : BoardState) (cs : list (Z * Z * Z)) : option Piece.t :=
  match cs with
  | [] => None
  | (x, y, z) :: cs' =>
      if isKingOf kingColor (cell b x y z) then cell b x y z
      else firstKing kingColor b cs'
  end.

Definition findKing (kingColor : Color) (boardState : BoardState) : option Piece.t :=
  firstKing kingColor boardState allCells.

Definition isKingInCheck (kingColor : Color) (boardState : BoardState) : bool :=
  match findKing kingColor boardState with
  | None => false
  | Some king =>
      isSquareAttacked (Piece.x king) (Piece.y king) (Piece.z king)
                       (opponentOf kingColor) boardState
  end.

(** ** [calculateValidMoves] *)

(** One capture test of the pawn's loop over [threeDDirections]. *)
Definition pawnCapture (b : BoardState) (color : Color) (startX startY startZ : Z)
    (d : Z * Z * Z) : list Move.t :=
  let '(dx, dy, dz) := d in
  let tx := startX + dx in
  let ty := startY + dy in
  let tz := startZ + dz in
  if isWithinBounds tx ty tz then
    match cell b tx ty tz with
    | Some targetPiece =>
        if bool_decide (Piece.color targetPiece ≠ color)
        then [Move.mk tx ty tz true None] else []
    | None => []
    end
  else [].

Definition pawnMoves (b : BoardState) (color : Color) (startX startY startZ : Z) : list Move.t :=
  let zDir := zDirOf color in
  let moveZ := startZ + zDir in
  let forward :=
    if isWithinBounds startX startY moveZ && negb (truthy (cell b startX startY moveZ))
    then
      Move.mk startX startY moveZ false None ::
      (let startLayer := match color with white => 1 | black => 6 end in
       if bool_decide (startZ = startLayer) then
         let doubleMoveZ := startZ + zDir * 2 in
         if isWithinBounds startX startY doubleMoveZ
            && negb (truthy (cell b startX startY doubleMoveZ))
            && negb (truthy (cell b startX startY moveZ))
         then [Move.mk startX startY doubleMoveZ false None] else []
       else [])
    else [] in
  let threeDDirections := map (fun '(dx, dy) => (dx, dy, zDir)) pawnCaptureDirections in
  forward ++ flat_map (pawnCapture b color startX startY startZ) threeDDirections.

Definition knightStep (b : BoardState) (color : Color) (startX startY startZ : Z)
    (d : Z * Z * Z) : list Move.t :=
  let '(dx, dy, dz) := d in
  let tx := startX + dx in
  let ty := startY + dy in
  let tz := startZ + dz in
  if isWithinBounds tx ty tz then
    match cell b tx ty tz with
    | Some targetPiece =>
        if bool_decide (Piece.color targetPiece ≠ color)
        then [Move.mk tx ty tz true None] else []
    | None => [Move.mk tx ty tz false None]
    end
  else [].

(** [new Set(rayDirections.map(d => d.join(',')))] and back: the first
    occurrence of every direction, in order. *)
Fixpoint uniqueDirections (seen l : list (Z * Z * Z)) : list (Z * Z * Z) :=
  match l with
  | [] => []
  | d :: l' =>
      if bool_decide (d ∈ seen) then uniqueDirections seen l'
      else d :: uniqueDirections (d :: seen) l'
  end.

Definition rayDirections (type : PieceType) : list (Z * Z * Z) :=
  let orth :=
    match type with
    | R | Q | K => filter (fun d => isOrthogonal d = true) all3DDirections
    | _ => []
    end in
  let diag :=
    match type with
    | B | Q | K => filter (fun d => isDiagonal d = true) all3DDirections
    | _ => []
    end in
  uniqueDirections [] (orth ++ diag).

Definition maxDistance (type : PieceType) : Z :=
  match type with K => 1 | _ => SIZE end.

(** The inner loop [for (let k = 1; k <= maxDistance; k++)] of one ray. *)
Fixpoint rayMoves (b : BoardState) (color : Color) (startX startY startZ : Z)
    (d : Z * Z * Z) (ks : list Z) : list Move.t :=
  match ks with
  | [] => []
  | k :: ks' =>
      let '(dx, dy, dz) := d in
      let tx := startX + dx * k in
      let ty := startY + dy * k in
      let tz := startZ + dz * k in
      if negb (isWithinBounds tx ty tz) then []
      else match cell b tx ty tz with
           | Some targetPiece =>
               if bool_decide (Piece.color targetPiece ≠ color)
               then [Move.mk tx ty tz true None] else []
           | None =>
               Move.mk tx ty tz false None ::
               rayMoves b color startX startY startZ d ks'
           end
  end.

Definition isUnmovedRook (color : Color) (c : option Piece.t) : bool :=
  match c with
  | Some rook =>
      bool_decide (Piece.type rook = R) && negb (Piece.hasMoved rook)
      && bool_decide (Piece.color rook = color)
  | None => false
  end.

Definition isNull (c : option Piece.t) : bool :=
  match c with None => true | Some _ => false end.

Definition castleMoves (piece : Piece.t) (b : BoardState) : list Move.t :=
  let startX := Piece.x piece in
  let startY := Piece.y piece in
  let startZ := Piece.z piece in
  let color := Piece.color piece in
  if bool_decide (Piece.type piece = K) && negb (Piece.hasMoved piece)
     && negb (isKingInCheck color b)
  then
    let opponentColor := opponentOf color in
    let kingY := match color with white => 3 | black => 3 end in
    let kingZ := match color with white => 0 | black => 7 end in
    if bool_decide (startY = kingY) && bool_decide (startZ = kingZ) then
      (if isUnmovedRook color (cell b 7 startY startZ)
          && (isNull (cell b 5 startY startZ) && isNull (cell b 6 startY startZ))
          && (negb (isSquareAttacked 5 startY startZ opponentColor b)
              && negb (isSquareAttacked 6 startY startZ opponentColor b))
       then [Move.mk (startX + 2) startY startZ false (Some Castle.king)] else [])
      ++
      (if isUnmovedRook color (cell b 0 startY startZ)
          && (isNull (cell b 1 startY startZ) && isNull (cell b 2 startY startZ)
              && isNull (cell b 3 startY startZ))
          && (negb (isSquareAttacked 2 startY startZ opponentColor b)
              && negb (isSquareAttacked 3 startY startZ opponentColor b))
       then [Move.mk (startX - 2) startY startZ false (Some Castle.queen)] else [])
    else []
  else [].

Definition slidingMoves (piece : Piece.t) (b : BoardState) : list Move.t :=
  flat_map (fun d => rayMoves b (Piece.color piece)
                       (Piece.x piece) (Piece.y piece) (Piece.z piece) d
                       (seqZ 1 (maxDistance (Piece.type piece))))
           (rayDirections (Piece.type piece)).

Definition calculateValidMoves (piece : Piece.t) (boardState : BoardState) : list Move.t :=
  match Piece.type piece with
  | P => pawnMoves boardState (Piece.color piece)
           (Piece.x piece) (Piece.y piece) (Piece.z piece)
  | N => flat_map (knightStep boardState (Piece.color piece)
                     (Piece.x piece) (Piece.y piece) (Piece.z piece))
                  knightMoves
  | _ => slidingMoves piece boardState ++ castleMoves piece boardState
  end.

(** ** The move applier ([App.tsx])

    A handler either runs to its end and leaves a new state, or stops:
    [TypeError] when an index is applied to [undefined] (an x or y index
    outside the array), [OffCube] when a store falls beside the eight cells
    of a row, where JavaScript would grow the row or add a property: the
    embedding follows the program on boards of 8 x 8 x 8 cells only and
    does not track such a store. State updates queued before a [TypeError]
    are not tracked either. *)

Inductive outcome (A : Type) : Type :=
| Done (a : A)
| TypeError
| OffCube.
Arguments Done {A} a.
Arguments TypeError {A}.
Arguments OffCube {A}.

#[global] Instance outcome_bind : MBind outcome :=
  fun A B f m =>
    match m with
    | Done a => f a
    | TypeError => TypeError
    | OffCube => OffCube
    end.

(** The read [newBoardState[x][y][z]] of the applier, not guarded by
    [isWithinBounds]; an absent cell of an existing row reads as [undefined],
    which is as falsy as [null]. *)
Definition readCell (b : BoardState) (x y z : Z) : outcome (option Piece.t) :=
  match at_ b x with
  | Some col =>
      match at_ col y with
      | Some row => Done (match at_ row z with Some c => c | None => None end)
      | None => TypeError
      end
  | None => TypeError
  end.

(** The write [newBoardState[x][y][z] = v] of the applier. *)
Definition writeCell (b : BoardState) (x y z : Z) (v : option Piece.t) : outcome BoardState :=
  match at_ b x with
  | Some col =>
      match at_ col y with
      | Some row =>
          match at_ row z with
          | Some _ =>
              Done (<[Z.to_nat x := <[Z.to_nat y := <[Z.to_nat z := v]> row]> col]> b)
          | None => OffCube
          end
      | None => TypeError
      end
  | None => TypeError
  end.

Module Captured.
Record t := mk { white : list Piece.t; black : list Piece.t }.
End Captured.

Module PromotionData.
Record t := mk { piece : Piece.t; x : Z; y : Z; z : Z }.
End PromotionData.

(** The [useState] cells of [App] that the applier reads or writes. *)
Module State.
Record t := mk
  { boardState : BoardState;
    turn : Color;
    selectedPiece : option Piece.t;
    capturedPieces : Captured.t;
    gameStatus : string;
    promotionData : option PromotionData.t }.
End State.

Definition initialState : State.t :=
  State.mk initializeBoardState white None (Captured.mk [] []) "active" None.

(** [`${color.toUpperCase()} WINS!`] *)
Definition winsStatus (color : Color) : string :=
  match color with white => "WHITE WINS!" | black => "BLACK WINS!" end%string.

(** [{ ...prev, [opponentColor]: [...prev[opponentColor], targetPiece] }] *)
Definition addCaptured (prev : Captured.t) (opponentColor : Color) (targetPiece : Piece.t) : Captured.t :=
  match opponentColor with
  | white => Captured.mk (Captured.white prev ++ [targetPiece]) (Captured.black prev)
  | black => Captured.mk (Captured.white prev) (Captured.black prev ++ [targetPiece])
  end.

(** The bookkeeping both handlers do for the piece found on the target. *)
Definition afterCapture (st : State.t) (color : Color) (targetPiece : option Piece.t) : string * Captured.t :=
  match targetPiece with
  | Some tp =>
      ((if bool_decide (Piece.type tp = K) then winsStatus color else State.gameStatus st),
       addCaptured (State.capturedPieces st) (opponentOf color) tp)
  | None => (State.gameStatus st, State.capturedPieces st)
  end.

(** [{ ...piece, x: targetX, y: targetY, z: targetZ, hasMoved: true }] *)
Definition movedTo (piece : Piece.t) (targetX targetY targetZ : Z) : Piece.t :=
  Piece.mk (Piece.type piece) (Piece.color piece) targetX targetY targetZ true.

(** The rook relocation of a castle: from column [from] to column [to]. *)
Definition relocateRook (b : BoardState) (from to targetY targetZ : Z) : outcome BoardState :=
  rook ← readCell b from targetY targetZ;
  match rook with
  | Some rook =>
      b' ← writeCell b from targetY targetZ None;
      writeCell b' to targetY targetZ
        (Some (Piece.mk (Piece.type rook) (Piece.color rook)
                        to (Piece.y rook) (Piece.z rook) true))
  | None => Done b
  end.

Definition flipTurn (t : Color) : Color :=
  match t with white => black | black => white end.

(** [const promotionRank = color === 'white' ? 7 : 0] *)
Definition promotionRank (color : Color) : Z :=
  match color with white => 7 | black => 0 end.

(** [setPromotionData({ piece, x, y, z })], every other cell of the state
    left as it is. *)
Definition pending (st : State.t) (pd : PromotionData.t) : State.t :=
  State.mk (State.boardState st) (State.turn st) (State.selectedPiece st)
           (State.capturedPieces st) (State.gameStatus st) (Some pd).

(** [JSON.parse(JSON.stringify(boardState))] copies the board value for
    value, so the embedding works on [State.boardState st] itself. *)
Definition executeMove (st : State.t) (piece : Piece.t) (targetX targetY targetZ : Z)
    (move : Move.t) : outcome State.t :=
  let oldX := Piece.x piece in
  let oldY := Piece.y piece in
  let oldZ := Piece.z piece in
  let color := Piece.color piece in
  if bool_decide (Piece.type piece = P) && bool_decide (targetZ = promotionRank color) then
    Done (pending st (PromotionData.mk piece targetX targetY targetZ))
  else
    let newBoardState := State.boardState st in
    targetPiece ← readCell newBoardState targetX targetY targetZ;
    let '(status, captured) := afterCapture st color targetPiece in
    b1 ← writeCell newBoardState oldX oldY oldZ None;
    b2 ← match Move.castle move with
         | Some side =>
             b2 ← writeCell b1 targetX targetY targetZ
                    (Some (movedTo piece targetX targetY targetZ));
             match side with
             | Castle.king => relocateRook b2 7 (targetX - 1) targetY targetZ
             | Castle.queen => relocateRook b2 0 (targetX + 1) targetY targetZ
             end
         | None =>
             writeCell b1 targetX targetY targetZ
               (Some (movedTo piece targetX targetY targetZ))
         end;
    Done (State.mk b2 (flipTurn (State.turn st)) None captured status
            (State.promotionData st)).

Definition handlePromotion (st : State.t) (promotedTo : PieceType) : outcome State.t :=
  match State.promotionData st with
  | None => Done st
  | Some pd =>
      let piece := PromotionData.piece pd in
      let x := PromotionData.x pd in
      let y := PromotionData.y pd in
      let z := PromotionData.z pd in
      let newBoardState := State.boardState st in
      b1 ← writeCell newBoardState (Piece.x piece) (Piece.y piece) (Piece.z piece) None;
      targetPiece ← readCell b1 x y z;
      let '(status, captured) := afterCapture st (Piece.color piece) targetPiece in
      b2 ← writeCell b1 x y z (Some (Piece.mk promotedTo (Piece.color piece) x y z true));
      Done (State.mk b2 (flipTurn (State.turn st)) None captured status None)
  end.

(** [PromotionModal.tsx]: the kinds the modal offers; each button calls
    [onPromote], which [App] binds to [handlePromotion]. *)
Definition promotionPieces : list PieceType := [Q; R; B; N].

(** ** Boards used as concrete positions *)

(** The empty cube with the given pieces put on their own cells. *)
Definition place (ps : list Piece.t) : BoardState :=
  foldl (fun b p => store b (Piece.x p) (Piece.y p) (Piece.z p) (Some p)) emptyBoard ps.

Definition stateOf (b : BoardState) (t : Color) : State.t :=
  State.mk b t None (Captured.mk [] []) "active" None.

(** A white rook shielding its king from a black rook on the same file. *)
Definition pinnedRook : Piece.t := Piece.mk R white 0 3 0 true.
Definition pinBoard : BoardState :=
  place [ Piece.mk K white 0 0 0 true; pinnedRook;
          Piece.mk R black 0 7 0 true; Piece.mk K black 7 7 7 true ].
Definition pinMove : Move.t := Move.mk 1 3 0 false None.

(** ** Well-formed boards *)

(** The shape [initializeBoardState] builds: 8 columns of 8 rows of 8 cells. *)
Definition cubic (b : BoardState) : Prop :=
  length b = Z.to_nat SIZE ∧
  Forall (fun col => length col = Z.to_nat SIZE ∧
                     Forall (fun row : list (option Piece.t) => length row = Z.to_nat SIZE) col) b.

(** Every piece's stored coordinates are those of the cell that holds it. *)
Definition positionsAgree (b : BoardState) : Prop :=
  ∀ x y z p, cell b x y z = Some p →
             Piece.x p = x ∧ Piece.y p = y ∧ Piece.z p = z.

(** No piece is held by two cells. *)
Definition singleCell (b : BoardState) : Prop :=
  ∀ p x1 y1 z1 x2 y2 z2,
    cell b x1 y1 z1 = Some p → cell b x2 y2 z2 = Some p →
    (x1, y1, z1) = (x2, y2, z2).

(** The board invariant of the data model; that a cell holds at most one
    piece is the type [option Piece.t] of a cell. *)
Definition boardInvariant (b : BoardState) : Prop :=
  cubic b ∧ positionsAgree b ∧ singleCell b.

#[global] Instance cubic_dec b : Decision (cubic b).
Proof. unfold cubic. apply _. Defined.

(** A check of [positionsAgree] that runs: one test per cell of the cube. *)
Definition agreesAt (b : BoardState) (c : Z * Z * Z) : bool :=
  let '(x, y, z) := c in
  match cell b x y z with
  | Some p =>
      bool_decide (Piece.x p = x) && bool_decide (Piece.y p = y)
      && bool_decide (Piece.z p = z)
  | None => true
  end.

Definition checkBoard (b : BoardState) : bool :=
  bool_decide (cubic b) && forallb (agreesAt b) allCells.

(** ** Notions used in the statements *)

(** A ray from [(sx, sy, sz)] along [d], started at step [k0], reaches step
    [k] when every step before it is inside the cube and empty. *)
Definition clearTo (b : BoardState) (sx sy sz : Z) (d : Z * Z * Z) (k0 k : Z) : Prop :=
  ∀ j, k0 ≤ j < k →
       isWithinBounds (sx + d.1.1 * j) (sy + d.1.2 * j) (sz + d.2 * j) = true ∧
       cell b (sx + d.1.1 * j) (sy + d.1.2 * j) (sz + d.2 * j) = None.

(** What [rayMoves] pushes for step [k]: the cell, tagged as a capture
    when it is occupied. *)
Definition rayMove (b : BoardState) (sx sy sz : Z) (d : Z * Z * Z) (k : Z) : Move.t :=
  Move.mk (sx + d.1.1 * k) (sy + d.1.2 * k) (sz + d.2 * k)
          (truthy (cell b (sx + d.1.1 * k) (sy + d.1.2 * k) (sz + d.2 * k))) None.

(** A cell that is empty or holds a piece of another color. *)
Definition notOwn (color : Color) (c : option Piece.t) : Prop :=
  match c with Some t => Piece.color t ≠ color | None => True end.

(** The directions a sliding kind may take: [R] the orthogonal ones, [B] the
    others, [Q] and [K] all of them. *)
Definition dirAllowed (type : PieceType) (d : Z * Z * Z) : Prop :=
  match type with
  | R => absSum d = 1
  | B => 1 < absSum d
  | Q | K => True
  | _ => False
  end.

(** The move record pushed for a plain step onto [(x, y, z)]. *)
Definition plainTo (b : BoardState) (x y z : Z) : Move.t :=
  Move.mk x y z (truthy (cell b x y z)) None.

(** A move of the generator that is not a castle: it lands inside the cube,
    off the mover's own cell, on an empty cell or on a piece of the other
    color, and its capture flag says which. *)
Definition plainMove (b : BoardState) (piece : Piece.t) (m : Move.t) : Prop :=
  Move.castle m = None ∧
  isWithinBounds (Move.x m) (Move.y m) (Move.z m) = true ∧
  notOwn (Piece.color piece) (cell b (Move.x m) (Move.y m) (Move.z m)) ∧
  Move.capture m = truthy (cell b (Move.x m) (Move.y m) (Move.z m)) ∧
  (Move.x m, Move.y m, Move.z m) ≠ (Piece.x piece, Piece.y piece, Piece.z piece).

Definition homeZ (c : Color) : Z := match c with white => 0 | black => 7 end.

(** The conditions of castling, in the words of the rules. *)
Definition castleReady (piece : Piece.t) (b : BoardState) : Prop :=
  Piece.type piece = K ∧ Piece.hasMoved piece = false ∧
  isKingInCheck (Piece.color piece) b = false ∧
  Piece.y piece = 3 ∧ Piece.z piece = homeZ (Piece.color piece).

Definition unmovedRookAt (b : BoardState) (color : Color) (x y z : Z) : Prop :=
  ∃ rook, cell b x y z = Some rook ∧ Piece.type rook = R ∧
          Piece.hasMoved rook = false ∧ Piece.color rook = color.

Definition kingsideOpen (piece : Piece.t) (b : BoardState) : Prop :=
  let y := Piece.y piece in
  let z := Piece.z piece in
  unmovedRookAt b (Piece.color piece) 7 y z ∧
  cell b 5 y z = None ∧ cell b 6 y z = None ∧
  isSquareAttacked 5 y z (opponentOf (Piece.color piece)) b = false ∧
  isSquareAttacked 6 y z (opponentOf (Piece.color piece)) b = false.

Definition queensideOpen (piece : Piece.t) (b : BoardState) : Prop :=
  let y := Piece.y piece in
  let z := Piece.z piece in
  unmovedRookAt b (Piece.color piece) 0 y z ∧
  cell b 1 y z = None ∧ cell b 2 y z = None ∧ cell b 3 y z = None ∧
  isSquareAttacked 2 y z (opponentOf (Piece.color piece)) b = false ∧
  isSquareAttacked 3 y z (opponentOf (Piece.color piece)) b = false.

Definition kingsideMove (piece : Piece.t) : Move.t :=
  Move.mk (Piece.x piece + 2) (Piece.y piece) (Piece.z piece) false (Some Castle.king).

Definition queensideMove (piece : Piece.t) : Move.t :=
  Move.mk (Piece.x piece - 2) (Piece.y piece) (Piece.z piece) false (Some Castle.queen).

Definition kingOf (kingColor : Color) (p : Piece.t) : Prop :=
  Piece.type p = K ∧ Piece.color p = kingColor.

(** The part of the invariant that needs proof; [singleCell] follows. *)
Definition shaped (b : BoardState) : Prop := cubic b ∧ positionsAgree b.

(** A pawn of the attacking color on one of the eight cells one layer
    behind [(x, y, z)]. *)
Definition pawnThreat (b : BoardState) (attackerColor : Color) (x y z : Z) : Prop :=
  ∃ dx dy piece,
    (dx, dy) ∈ pawnCaptureDirections ∧
    cell b (x - dx) (y - dy) (z - zDirOf attackerColor) = Some piece ∧
    Piece.type piece = P ∧ Piece.color piece = attackerColor.

(** A piece of the attacking color, not a pawn, with a generated move
    that is no castle and lands on [(x, y, z)]. *)
Definition landsOn (b : BoardState) (attackerColor : Color) (x y z : Z) : Prop :=
  ∃ px py pz piece m,
    cell b px py pz = Some piece ∧
    Piece.color piece = attackerColor ∧ Piece.type piece ≠ P ∧
    m ∈ calculateValidMoves piece b ∧ Move.castle m = None ∧
    (Move.x m, Move.y m, Move.z m) = (x, y, z).

(** A check that runs: no piece of the color has a generated move, of any
    kind, onto [(x, y, z)]. *)
Definition noMoveOnto (b : BoardState) (color : Color) (x y z : Z) : bool :=
  forallb (fun '(px, py, pz) =>
             match cell b px py pz with
             | Some piece =>
                 if bool_decide (Piece.color piece = color) then
                   forallb (fun m => negb (bool_decide
                                             ((Move.x m, Move.y m, Move.z m) = (x, y, z))))
                           (calculateValidMoves piece b)
                 else true
             | None => true
             end)
          allCells.

(** Every king that has not moved stands on column [x = 4], where the
    initial layout puts it. *)
Definition unmovedKingsHome (b : BoardState) : Prop :=
  ∀ x y z p, cell b x y z = Some p →
             Piece.type p = K → Piece.hasMoved p = false → x = 4.

Definition checkKingsHome (b : BoardState) : bool :=
  forallb (fun '(x, y, z) =>
             match cell b x y z with
             | Some p =>
                 negb (bool_decide (Piece.type p = K)) || Piece.hasMoved p
                 || bool_decide (x = 4)
             | None => true
             end)
          allCells.

(** The movement rules in the words of the specification, with no test of
    check in them: what a pseudo-legal move of a piece is. *)
Definition pawnStartLayer (c : Color) : Z := match c with white => 1 | black => 6 end.

Definition pseudoLegal (b : BoardState) (piece : Piece.t) (m : Move.t) : Prop :=
  let x := Piece.x piece in
  let y := Piece.y piece in
  let z := Piece.z piece in
  let color := Piece.color piece in
  let zDir := zDirOf color in
  match Piece.type piece with
  | P =>
      (* one step forward onto an empty cell *)
      (isWithinBounds x y (z + zDir) = true ∧ cell b x y (z + zDir) = None ∧
       m = Move.mk x y (z + zDir) false None) ∨
      (* two steps from the starting layer over two empty cells *)
      (z = pawnStartLayer color ∧
       isWithinBounds x y (z + zDir) = true ∧ cell b x y (z + zDir) = None ∧
       isWithinBounds x y (z + zDir * 2) = true ∧ cell b x y (z + zDir * 2) = None ∧
       m = Move.mk x y (z + zDir * 2) false None) ∨
      (* capture of an enemy on one of the eight cells one layer forward *)
      (∃ dx dy t, (dx, dy) ∈ pawnCaptureDirections ∧
         isWithinBounds (x + dx) (y + dy) (z + zDir) = true ∧
         cell b (x + dx) (y + dy) (z + zDir) = Some t ∧ Piece.color t ≠ color ∧
         m = Move.mk (x + dx) (y + dy) (z + zDir) true None)
  | N =>
      ∃ dx dy dz, (dx, dy, dz) ∈ knightMoves ∧
        isWithinBounds (x + dx) (y + dy) (z + dz) = true ∧
        notOwn color (cell b (x + dx) (y + dy) (z + dz)) ∧
        m = plainTo b (x + dx) (y + dy) (z + dz)
  | type =>
      ∃ dx dy dz k, (dx, dy, dz) ∈ all3DDirections ∧ dirAllowed type (dx, dy, dz) ∧
        1 ≤ k ≤ maxDistance type ∧
        clearTo b x y z (dx, dy, dz) 1 k ∧
        isWithinBounds (x + dx * k) (y + dy * k) (z + dz * k) = true ∧
        notOwn color (cell b (x + dx * k) (y + dy * k) (z + dz * k)) ∧
        m = rayMove b x y z (dx, dy, dz) k
  end.

(** ** More concrete positions *)

(** Both castles open: the white king and its two rooks on their first
    cells, row [y = 3] of layer [z = 0] otherwise empty. *)
Definition homeKing : Piece.t := Piece.mk K white 4 3 0 false.
Definition castleBoard : BoardState :=
  place [ homeKing; Piece.mk R white 7 3 0 false; Piece.mk R white 0 3 0 false;
          Piece.mk K black 4 3 7 false ].

(** The same with a black rook bearing down on [(6, 3, 0)], the cell a
    kingside castle lands on, and on no other cell of the row. *)
Definition guardedBoard : BoardState :=
  place [ homeKing; Piece.mk R white 7 3 0 false; Piece.mk R white 0 3 0 false;
          Piece.mk K black 4 3 7 false; Piece.mk R black 6 3 4 true ].

(** An unmoved king two columns off its first cell, with a bishop of its
    own where a kingside castle would land. *)
Definition offColumnKing : Piece.t := Piece.mk K white 2 3 0 false.
Definition offColumnBoard : BoardState :=
  place [ offColumnKing; Piece.mk R white 7 3 0 false; Piece.mk B white 4 3 0 true;
          Piece.mk K black 4 3 7 false ].

(** A white pawn one step from the black back layer, a black knight it can
    capture there. *)
Definition lastStepPawn : Piece.t := Piece.mk P white 2 2 6 true.
Definition promotionBoard : BoardState :=
  place [ Piece.mk K white 4 3 0 false; lastStepPawn;
          Piece.mk N black 3 2 7 false; Piece.mk K black 4 3 7 false ].

(** An unmoved white king three columns off its first cell, a black pawn
    on that cell. *)
Definition farKing : Piece.t := Piece.mk K white 1 3 0 false.
Definition farBoard : BoardState :=
  place [ farKing; Piece.mk R white 7 3 0 false; Piece.mk P black 4 3 0 true;
          Piece.mk K black 4 3 7 false ].

(** ** Selecting and clicking ([App.tsx])

    [validMoves] is a state cell of [App] that a [useEffect] sets from
    [selectedPiece] and [boardState] after each render; [handleSquareClick]
    reads it as the handler's closure holds it. *)

Definition validMovesOf (st : State.t) : list Move.t :=
  match State.selectedPiece st with
  | Some selectedPiece => calculateValidMoves selectedPiece (State.boardState st)
  | None => []
  end.

(** [setSelectedPiece(sel)] *)
Definition setSelectedPiece (st : State.t) (sel : option Piece.t) : State.t :=
  State.mk (State.boardState st) (State.turn st) sel
           (State.capturedPieces st) (State.gameStatus st) (State.promotionData st).

(** The test of [validMoves.find(m => m.x === x && m.y === y && m.z === z)]. *)
Definition movesTo (x y z : Z) (m : Move.t) : bool :=
  bool_decide (Move.x m = x) && bool_decide (Move.y m = y) && bool_decide (Move.z m = z).

(** [if (clickedPiece && clickedPiece.color === turn)] *)
Definition ownPiece (st : State.t) (clickedPiece : option Piece.t) : option Piece.t :=
  match clickedPiece with
  | Some cp => if bool_decide (Piece.color cp = State.turn st) then Some cp else None
  | None => None
  end.

Definition handleSquareClick (st : State.t) (validMoves : list Move.t) (x y z : Z) : outcome State.t :=
  if bool_decide (State.gameStatus st ≠ "active"%string)
     || match State.promotionData st with Some _ => true | None => false end
  then Done st
  else
    clickedPiece ← readCell (State.boardState st) x y z;
    match State.selectedPiece st with
    | Some selectedPiece =>
        match List.find (movesTo x y z) validMoves with
        | Some move => executeMove st selectedPiece x y z move
        | None =>
            match ownPiece st clickedPiece with
            | Some cp => Done (setSelectedPiece st (Some cp))
            | None => Done (setSelectedPiece st None)
            end
        end
    | None =>
        match ownPiece st clickedPiece with
        | Some cp => Done (setSelectedPiece st (Some cp))
        | None => Done st
        end
    end.

(** A click once the effect has brought [validMoves] up to date. *)
Definition click (st : State.t) (x y z : Z) : outcome State.t :=
  handleSquareClick st (validMovesOf st) x y z.

(** ** Material ([types.ts], [InfoPanel.tsx]) *)

Definition PIECE_VALUES (type : PieceType) : Z :=
  match type with P => 1 | N => 3 | B => 3 | R => 5 | Q => 9 | K => 0 end.

(** [pieces.reduce((sum, p) => sum + PIECE_VALUES[p.type], 0)] *)
Definition material (pieces : list Piece.t) : Z :=
  foldl (fun sum p => sum + PIECE_VALUES (Piece.type p)) 0 pieces.

Definition whiteMaterial (capturedPieces : Captured.t) : Z :=
  material (Captured.black capturedPieces).

Definition blackMaterial (capturedPieces : Captured.t) : Z :=
  material (Captured.white capturedPieces).

Definition materialAdvantage (capturedPieces : Captured.t) : Z :=
  whiteMaterial capturedPieces - blackMaterial capturedPieces.

(** ** More notions used in the statements *)

(** The destination of a move. *)
Definition dest (m : Move.t) : Z * Z * Z := (Move.x m, Move.y m, Move.z m).

(** Every piece that has not moved stands where the initial layout put it,
    as the initial layout made it. *)
Definition unmovedAtStart (b : BoardState) : Prop :=
  ∀ x y z p, cell b x y z = Some p → Piece.hasMoved p = false →
             cell initializeBoardState x y z = Some p.

(** The states of [App] between two events: the board satisfies its
    invariant, the selection, if any, is a piece of the board that belongs
    to the side to move, and a pending promotion, if any, is that of a piece
    of the board towards a cell of the cube. *)
Definition appInvariant (st : State.t) : Prop :=
  boardInvariant (State.boardState st) ∧
  (∀ sel, State.selectedPiece st = Some sel →
          cell (State.boardState st) (Piece.x sel) (Piece.y sel) (Piece.z sel) = Some sel ∧
          Piece.color sel = State.turn st) ∧
  (∀ pd, State.promotionData st = Some pd →
         let piece := PromotionData.piece pd in
         cell (State.boardState st) (Piece.x piece) (Piece.y piece) (Piece.z piece)
         = Some piece ∧
         isWithinBounds (PromotionData.x pd) (PromotionData.y pd) (PromotionData.z pd)
         = true).

(** The material of the mover of a given color. *)
Definition materialOf (color : Color) (capturedPieces : Captured.t) : Z :=
  match color with
  | white => whiteMaterial capturedPieces
  | black => blackMaterial capturedPieces
  end.

(** A black rook giving check to the white king along a file, a white
    queen that can take the rook. *)
Definition checkedKing : Piece.t := Piece.mk K white 0 0 0 true.
Definition checkingRook : Piece.t := Piece.mk R black 0 7 0 true.
Definition rescuingQueen : Piece.t := Piece.mk Q white 5 7 0 true.
Definition checkedBoard : BoardState :=
  place [ checkedKing; checkingRook; rescuingQueen; Piece.mk K black 7 7 7 true ].

(** A knight's leap: the absolute values of the three steps are 2, 1 and 0
    in some order. *)
Definition knightLeap (dx dy dz : Z) : Prop :=
  Z.abs dx ≤ 2 ∧ Z.abs dy ≤ 2 ∧ Z.abs dz ≤ 2 ∧
  Z.abs dx + Z.abs dy + Z.abs dz = 3 ∧ Z.abs dx * Z.abs dy * Z.abs dz = 0.

(** A step to a neighbouring cell: no coordinate changes by more than one,
    and one changes. *)
Definition oneStep (dx dy dz : Z) : Prop :=
  -1 ≤ dx ≤ 1 ∧ -1 ≤ dy ≤ 1 ∧ -1 ≤ dz ≤ 1 ∧ ¬ (dx = 0 ∧ dy = 0 ∧ dz = 0).

(** The columns of a castle of a king on its first column [x = 4]: where the
    king lands, where the rook stands and where the rook lands. *)
Definition kingTo (side : Castle.t) : Z :=
  match side with Castle.king => 6 | Castle.queen => 2 end.
Definition rookFrom (side : Castle.t) : Z :=
  match side with Castle.king => 7 | Castle.queen => 0 end.
Definition rookTo (side : Castle.t) : Z :=
  match side with Castle.king => 5 | Castle.queen => 3 end.

(** Each captured list holds pieces of its own color only. *)
Definition capturedByColor (capturedPieces : Captured.t) : Prop :=
  (∀ p, p ∈ Captured.white capturedPieces → Piece.color p = white) ∧
  (∀ p, p ∈ Captured.black capturedPieces → Piece.color p = black).

(** The states of a game played from the initial position: those of
    [appInvariant] in which unmoved kings stand on their column, each
    captured list holds pieces of its color, and a pending promotion goes to a
    cell other than the pawn's that holds no piece of the pawn's color. *)
Definition playInvariant (st : State.t) : Prop :=
  appInvariant st ∧
  unmovedKingsHome (State.boardState st) ∧
  capturedByColor (State.capturedPieces st) ∧
  (∀ pd, State.promotionData st = Some pd →
         let piece := PromotionData.piece pd in
         (PromotionData.x pd, PromotionData.y pd, PromotionData.z pd)
           ≠ (Piece.x piece, Piece.y piece, Piece.z piece) ∧
         notOwn (Piece.color piece)
                (cell (State.boardState st) (PromotionData.x pd) (PromotionData.y pd)
                      (PromotionData.z pd))).

(** The order in which the loops of [findKing] visit the cells: by [x],
    then [y], then [z]. *)
Definition cellBefore (c1 c2 : Z * Z * Z) : Prop :=
  c1.1.1 < c2.1.1 ∨
  (c1.1.1 = c2.1.1 ∧ (c1.1.2 < c2.1.2 ∨ (c1.1.2 = c2.1.2 ∧ c1.2 < c2.2))).

#[global] Instance cellBefore_dec : RelDecision cellBefore.
Proof. intros c1 c2. unfold cellBefore. apply _. Defined.

(** A board with two white kings, the second one attacked by a black rook. *)
Definition secondKing : Piece.t := Piece.mk K white 5 5 5 true.
Definition twoKingsBoard : BoardState :=
  place [ Piece.mk K white 0 0 0 true; secondKing; Piece.mk R black 5 5 0 true;
          Piece.mk K black 7 7 7 true ].

(** ** The conditions of castling, with the attacking color named

    The color whose pieces threaten a cell is a parameter here, apart from
    the generator's own [opponentColor]; the statements fix it as the
    color that is not the king's. *)




(** Every king of the color on the board stands on [(x, y, z)]. *)
Definition soleKingAt (b : BoardState) (color : Color) (x y z : Z) : Prop :=
  ∀ x' y' z' p, cell b x' y' z' = Some p → kingOf color p → (x', y', z') = (x, y, z).

(** A check of [soleKingAt] that runs: one test per cell of the cube. *)
Definition checkSoleKing (b : BoardState) (color : Color) (x y z : Z) : bool :=
  forallb (fun c => negb (isKingOf color (cell b c.1.1 c.1.2 c.2))
                    || bool_decide (c = (x, y, z)))
          allCells.

(** ** Positions with the colors exchanged, and with two kings *)

(** Both castles open for black: its king and rooks on their first cells. *)
Definition blackHomeKing : Piece.t := Piece.mk K black 4 3 7 false.
Definition blackCastleBoard : BoardState :=
  place [ blackHomeKing; Piece.mk R black 7 3 7 false; Piece.mk R black 0 3 7 false;
          Piece.mk K white 4 3 0 false ].


(** The black king on [(7, 7, 7)] attacked by a white rook along its row. *)
Definition blackCheckedKing : Piece.t := Piece.mk K black 7 7 7 true.
Definition blackCheckBoard : BoardState :=
  place [ Piece.mk K white 0 0 0 true; Piece.mk R white 7 0 7 true; blackCheckedKing ].

(** A black pawn one step from the white back layer, the white king where
    it can capture it. *)
Definition blackLastStepPawn : Piece.t := Piece.mk P black 5 5 1 true.
Definition blackPromotionBoard : BoardState :=
  place [ Piece.mk K white 4 5 0 true; blackLastStepPawn; Piece.mk K black 4 3 7 false ].

(** ** Promotion and capture in the words of the rules *)

(** A pawn's move onto the last layer of its way: [z = 7] for a white pawn,
    [z = 0] for a black one. *)
Definition promotes (piece : Piece.t) (targetZ : Z) : Prop :=
  Piece.type piece = P ∧
  ((Piece.color piece = white ∧ targetZ = 7) ∨
   (Piece.color piece = black ∧ targetZ = 0)).

(** The side to move changes from [st] to [st']. *)
Definition turnPassed (st st' : State.t) : Prop :=
  (State.turn st = white → State.turn st' = black) ∧
  (State.turn st = black → State.turn st' = white).

(** What is recorded from [st] to [st'] when a piece of color [mover] lands
    on a cell that held [target]. Nothing for an empty cell. A piece found
    there is appended to the captured list of the color that is not the
    mover's, the other list staying as it was, and a king found there sets
    the status to the mover's win. *)
Definition captureRecorded (mover : Color) (target : option Piece.t) (st st' : State.t) : Prop :=
  let old := State.capturedPieces st in
  let new := State.capturedPieces st' in
  (target = None → new = old ∧ State.gameStatus st' = State.gameStatus st) ∧
  (∀ t, target = Some t →
     (mover = white →
        Captured.black new = Captured.black old ++ [t] ∧
        Captured.white new = Captured.white old) ∧
     (mover = black →
        Captured.white new = Captured.white old ++ [t] ∧
        Captured.black new = Captured.black old) ∧
     (Piece.type t ≠ K → State.gameStatus st' = State.gameStatus st) ∧
     (Piece.type t = K → mover = white → State.gameStatus st' = "WHITE WINS!"%string) ∧
     (Piece.type t = K → mover = black → State.gameStatus st' = "BLACK WINS!"%string)).

(** ** Arrays: reads after writes *)

Section Arrays.
Context {A : Type}.
Implicit Types (l : list A) (i j : Z).

Lemma at_Some_range l i a : at_ l i = Some a → 0 ≤ i < Z.of_nat (length l).
Proof.
  unfold at_. case_bool_decide; [|done].
  intros Hl%lookup_lt_Some. lia.
Qed.

Lemma at_is_Some l i : 0 ≤ i < Z.of_nat (length l) → is_Some (at_ l i).
Proof.
  intros [H0 H1]. unfold at_. rewrite bool_decide_eq_true_2 by done.
  apply lookup_lt_is_Some. lia.
Qed.

Lemma at_insert_eq l i a v : at_ l i = Some a → at_ (<[Z.to_nat i := v]> l) i = Some v.
Proof.
  unfold at_. case_bool_decide; [|done].
  intros Hl%lookup_lt_Some. by apply list_lookup_insert_eq.
Qed.

Lemma at_insert_ne l i j v : 0 ≤ i → i ≠ j → at_ (<[Z.to_nat i := v]> l) j = at_ l j.
Proof.
  intros Hi Hne. unfold at_. case_bool_decide; [|done].
  apply list_lookup_insert_ne. lia.
Qed.
End Arrays.

Lemma cubic_at_col b x col :
  cubic b → at_ b x = Some col →
  length col = Z.to_nat SIZE ∧
  Forall (fun row : list (option Piece.t) => length row = Z.to_nat SIZE) col.
Proof.
  intros [_ Hall] Hat. unfold at_ in Hat. case_bool_decide; [|done].
  by apply (Forall_lookup_1 _ _ _ _ Hall Hat).
Qed.

Lemma cubic_at_row b x y col row :
  cubic b → at_ b x = Some col → at_ col y = Some row → length row = Z.to_nat SIZE.
Proof.
  intros Hc Hx Hy. destruct (cubic_at_col _ _ _ Hc Hx) as [_ Hall].
  unfold at_ in Hy. case_bool_decide; [|done].
  by apply (Forall_lookup_1 _ _ _ _ Hall Hy).
Qed.

Lemma isWithinBounds_true x y z :
  isWithinBounds x y z = true ↔ (0 ≤ x < SIZE ∧ 0 ≤ y < SIZE ∧ 0 ≤ z < SIZE).
Proof.
  unfold isWithinBounds. rewrite !andb_true_iff, !bool_decide_eq_true. lia.
Qed.

Lemma isWithinBounds_false x y z :
  isWithinBounds x y z = false ↔ ¬ (0 ≤ x < SIZE ∧ 0 ≤ y < SIZE ∧ 0 ≤ z < SIZE).
Proof. rewrite <- isWithinBounds_true. by destruct (isWithinBounds x y z). Qed.

Lemma cell_Some_bounds b x y z p :
  cubic b → cell b x y z = Some p → isWithinBounds x y z = true.
Proof.
  intros Hc. unfold cell.
  destruct (at_ b x) as [col|] eqn:Hx; [|done].
  destruct (at_ col y) as [row|] eqn:Hy; [|done].
  destruct (at_ row z) as [c|] eqn:Hz; [|done]. intros _.
  pose proof (cubic_at_col _ _ _ Hc Hx) as [Hlc _].
  pose proof (cubic_at_row _ _ _ _ _ Hc Hx Hy) as Hlr.
  apply at_Some_range in Hx, Hy, Hz. destruct Hc as [Hlb _].
  apply isWithinBounds_true. unfold SIZE in *. lia.
Qed.

Lemma readCell_cell b x y z c : readCell b x y z = Done c → c = cell b x y z.
Proof.
  unfold readCell, cell.
  destruct (at_ b x) as [col|]; [|done].
  destruct (at_ col y) as [row|]; [|done]. congruence.
Qed.

Lemma cubic_rows b x y z :
  cubic b → isWithinBounds x y z = true →
  ∃ col row c, at_ b x = Some col ∧ at_ col y = Some row ∧ at_ row z = Some c.
Proof.
  intros Hc Hb. apply isWithinBounds_true in Hb. unfold SIZE in Hb.
  destruct (at_is_Some b x) as [col Hx]. { destruct Hc as [-> _]. unfold SIZE. lia. }
  pose proof (cubic_at_col _ _ _ Hc Hx) as [Hlc _].
  destruct (at_is_Some col y) as [row Hy]. { rewrite Hlc. unfold SIZE. lia. }
  pose proof (cubic_at_row _ _ _ _ _ Hc Hx Hy) as Hlr.
  destruct (at_is_Some row z) as [c Hz]. { rewrite Hlr. unfold SIZE. lia. }
  eauto 7.
Qed.

Lemma readCell_Done b x y z :
  cubic b → isWithinBounds x y z = true → readCell b x y z = Done (cell b x y z).
Proof.
  intros Hc Hb. destruct (cubic_rows _ _ _ _ Hc Hb) as (col & row & c & Hx & Hy & Hz).
  unfold readCell, cell. by rewrite Hx, Hy.
Qed.

Lemma writeCell_Done b x y z v :
  cubic b → isWithinBounds x y z = true → ∃ b', writeCell b x y z v = Done b'.
Proof.
  intros Hc Hb. destruct (cubic_rows _ _ _ _ Hc Hb) as (col & row & c & Hx & Hy & Hz).
  unfold writeCell. rewrite Hx, Hy, Hz. eauto.
Qed.

Lemma writeCell_bounds b x y z v b' :
  cubic b → writeCell b x y z v = Done b' → isWithinBounds x y z = true.
Proof.
  intros Hc. unfold writeCell.
  destruct (at_ b x) as [col|] eqn:Hx; [|done].
  destruct (at_ col y) as [row|] eqn:Hy; [|done].
  destruct (at_ row z) as [c|] eqn:Hz; [|done]. intros _.
  pose proof (cubic_at_col _ _ _ Hc Hx) as [Hlc _].
  pose proof (cubic_at_row _ _ _ _ _ Hc Hx Hy) as Hlr.
  apply at_Some_range in Hx, Hy, Hz. destruct Hc as [Hlb _].
  apply isWithinBounds_true. unfold SIZE in *. lia.
Qed.

Lemma cell_writeCell b x y z v b' x' y' z' :
  writeCell b x y z v = Done b' →
  cell b' x' y' z' = if bool_decide ((x', y', z') = (x, y, z)) then v else cell b x' y' z'.
Proof.
  unfold writeCell.
  destruct (at_ b x) as [col|] eqn:Hx; [|done].
  destruct (at_ col y) as [row|] eqn:Hy; [|done].
  destruct (at_ row z) as [c|] eqn:Hz; [|done].
  intros [= <-]. unfold cell.
  pose proof (at_Some_range _ _ _ Hx) as Rx.
  pose proof (at_Some_range _ _ _ Hy) as Ry.
  pose proof (at_Some_range _ _ _ Hz) as Rz.
  destruct (decide (x' = x)) as [->|Nx].
  - rewrite (at_insert_eq _ _ _ _ Hx).
    destruct (decide (y' = y)) as [->|Ny].
    + rewrite (at_insert_eq _ _ _ _ Hy).
      destruct (decide (z' = z)) as [->|Nz].
      * rewrite (at_insert_eq _ _ _ _ Hz). by rewrite bool_decide_eq_true_2.
      * rewrite at_insert_ne by lia. rewrite Hx, Hy.
        rewrite bool_decide_eq_false_2; [done|congruence].
    + rewrite at_insert_ne by lia. rewrite Hx.
      rewrite bool_decide_eq_false_2; [done|congruence].
  - rewrite at_insert_ne by lia.
    rewrite bool_decide_eq_false_2; [done|congruence].
Qed.

Lemma writeCell_cubic b x y z v b' :
  cubic b → writeCell b x y z v = Done b' → cubic b'.
Proof.
  intros Hc. unfold writeCell.
  destruct (at_ b x) as [col|] eqn:Hx; [|done].
  destruct (at_ col y) as [row|] eqn:Hy; [|done].
  destruct (at_ row z) as [c|] eqn:Hz; [|done].
  intros [= <-].
  pose proof (cubic_at_col _ _ _ Hc Hx) as [Hlc Hrows].
  pose proof (cubic_at_row _ _ _ _ _ Hc Hx Hy) as Hlr.
  destruct Hc as [Hlb Hall]. split.
  - by rewrite length_insert.
  - apply Forall_insert; [done|]. split.
    + by rewrite length_insert.
    + apply Forall_insert; [done|]. by rewrite length_insert.
Qed.

(** ** Rays *)

Lemma clearTo_step b sx sy sz d k0 k :
  k0 < k →
  clearTo b sx sy sz d k0 k ↔
  (isWithinBounds (sx + d.1.1 * k0) (sy + d.1.2 * k0) (sz + d.2 * k0) = true ∧
   cell b (sx + d.1.1 * k0) (sy + d.1.2 * k0) (sz + d.2 * k0) = None) ∧
  clearTo b sx sy sz d (k0 + 1) k.
Proof.
  intros Hlt. unfold clearTo. split.
  - intros H. split; [apply H; lia|]. intros j Hj. apply H. lia.
  - intros [H0 H] j Hj. destruct (decide (j = k0)) as [->|]; [done|]. apply H. lia.
Qed.

Lemma seqZ_S k0 (n : nat) : seqZ k0 (Z.of_nat (S n)) = k0 :: seqZ (k0 + 1) (Z.of_nat n).
Proof.
  rewrite seqZ_cons by lia. f_equal. f_equal; lia.
Qed.

Section Rays.
Variable b : BoardState.

Lemma in_rayMoves color sx sy sz d (n : nat) : ∀ k0 m,
  m ∈ rayMoves b color sx sy sz d (seqZ k0 (Z.of_nat n)) ↔
  ∃ k, k0 ≤ k < k0 + Z.of_nat n ∧
       clearTo b sx sy sz d k0 k ∧
       isWithinBounds (sx + d.1.1 * k) (sy + d.1.2 * k) (sz + d.2 * k) = true ∧
       notOwn color (cell b (sx + d.1.1 * k) (sy + d.1.2 * k) (sz + d.2 * k)) ∧
       m = rayMove b sx sy sz d k.
Proof.
  destruct d as [[dx dy] dz]. induction n as [|n IH]; intros k0 m.
  - simpl. split; [by intros ?%elem_of_nil|]. intros (k & ? & _). lia.
  - rewrite seqZ_S. cbn [rayMoves fst snd].
    destruct (isWithinBounds (sx + dx * k0) (sy + dy * k0) (sz + dz * k0)) eqn:Hb; cbn [negb].
    + destruct (cell b (sx + dx * k0) (sy + dy * k0) (sz + dz * k0)) as [t|] eqn:Hc.
      * split.
        -- case_bool_decide as Hcol; [|by intros ?%elem_of_nil].
           intros ->%list_elem_of_singleton. exists k0.
           split; [lia|]. split; [intros j Hj; lia|].
           cbn [fst snd]. rewrite Hb, Hc. unfold rayMove. cbn [fst snd].
           by rewrite Hc.
        -- intros (k & Hk & Hclear & Hkb & Hown & ->).
           destruct (decide (k = k0)) as [->|Hne].
           ++ cbn [fst snd] in Hown. rewrite Hc in Hown. simpl in Hown.
              rewrite bool_decide_eq_true_2 by done.
              unfold rayMove. cbn [fst snd]. rewrite Hc. apply list_elem_of_here.
           ++ destruct (Hclear k0) as [_ Hnone]; [lia|].
              cbn [fst snd] in Hnone. congruence.
      * rewrite elem_of_cons, IH. split.
        -- intros [->|(k & Hk & Hclear & Hrest)].
           ++ exists k0. split; [lia|]. split; [intros j Hj; lia|].
              cbn [fst snd]. rewrite Hb, Hc. unfold rayMove. cbn [fst snd].
              by rewrite Hc.
           ++ exists k. split; [lia|]. split; [|done].
              apply clearTo_step; [lia|]. by cbn [fst snd].
        -- intros (k & Hk & Hclear & Hrest).
           destruct (decide (k = k0)) as [->|Hne].
           ++ left. destruct Hrest as (_ & _ & ->). unfold rayMove.
              cbn [fst snd]. by rewrite Hc.
           ++ right. exists k. split; [lia|]. split; [|done].
              apply clearTo_step in Hclear; [|lia]. apply Hclear.
    + split; [by intros ?%elem_of_nil|].
      intros (k & Hk & Hclear & Hkb & _).
      destruct (decide (k = k0)) as [->|Hne].
      * cbn [fst snd] in Hkb. congruence.
      * destruct (Hclear k0) as [Hin _]; [lia|]. cbn [fst snd] in Hin. congruence.
Qed.

Lemma rayAttacked_true attackerColor x y z d (n : nat) : ∀ k0,
  rayAttacked b attackerColor x y z d (seqZ k0 (Z.of_nat n)) = true ↔
  ∃ k piece, k0 ≤ k < k0 + Z.of_nat n ∧
       clearTo b x y z d k0 k ∧
       isWithinBounds (x + d.1.1 * k) (y + d.1.2 * k) (z + d.2 * k) = true ∧
       cell b (x + d.1.1 * k) (y + d.1.2 * k) (z + d.2 * k) = Some piece ∧
       Piece.color piece = attackerColor ∧
       rayThreat piece d k = true.
Proof.
  destruct d as [[dx dy] dz]. induction n as [|n IH]; intros k0.
  - simpl. split; [done|]. intros (k & ? & ? & _). lia.
  - rewrite seqZ_S. cbn [rayAttacked fst snd].
    destruct (isWithinBounds (x + dx * k0) (y + dy * k0) (z + dz * k0)) eqn:Hb; cbn [negb].
    + destruct (cell b (x + dx * k0) (y + dy * k0) (z + dz * k0)) as [t|] eqn:Hc.
      * rewrite andb_true_iff, bool_decide_eq_true. split.
        -- intros [Hcol Hthr]. exists k0, t. split; [lia|].
           split; [intros j Hj; lia|]. by cbn [fst snd].
        -- intros (k & piece & Hk & Hclear & Hkb & Hcell & Hcol & Hthr).
           destruct (decide (k = k0)) as [->|Hne].
           ++ cbn [fst snd] in Hcell. by simplify_eq.
           ++ destruct (Hclear k0) as [_ Hnone]; [lia|].
              cbn [fst snd] in Hnone. congruence.
      * rewrite IH. split.
        -- intros (k & piece & Hk & Hclear & Hrest). exists k, piece.
           split; [lia|]. split; [|done].
           apply clearTo_step; [lia|]. by cbn [fst snd].
        -- intros (k & piece & Hk & Hclear & Hkb & Hcell & Hrest).
           destruct (decide (k = k0)) as [->|Hne].
           ++ cbn [fst snd] in Hcell. congruence.
           ++ exists k, piece. split; [lia|]. split; [|done].
              apply clearTo_step in Hclear; [|lia]. apply Hclear.
    + split; [done|].
      intros (k & piece & Hk & Hclear & Hkb & _).
      destruct (decide (k = k0)) as [->|Hne].
      * cbn [fst snd] in Hkb. congruence.
      * destruct (Hclear k0) as [Hin _]; [lia|]. cbn [fst snd] in Hin. congruence.
Qed.
End Rays.

(** ** The direction tables *)

Lemma all3DDirections_spec dx dy dz :
  (dx, dy, dz) ∈ all3DDirections ↔
  (-1 ≤ dx ≤ 1 ∧ -1 ≤ dy ≤ 1 ∧ -1 ≤ dz ≤ 1 ∧ ¬ (dx = 0 ∧ dy = 0 ∧ dz = 0)).
Proof.
  split.
  - intros H. apply list_elem_of_In in H. vm_compute in H.
    repeat (destruct H as [H|H]; [simplify_eq; lia|]). done.
  - intros (Hx & Hy & Hz & Hne).
    assert (dx = -1 ∨ dx = 0 ∨ dx = 1) as Cx by lia.
    assert (dy = -1 ∨ dy = 0 ∨ dy = 1) as Cy by lia.
    assert (dz = -1 ∨ dz = 0 ∨ dz = 1) as Cz by lia.
    destruct Cx as [-> | [-> | ->]], Cy as [-> | [-> | ->]], Cz as [-> | [-> | ->]];
      try (exfalso; apply Hne; done);
      apply list_elem_of_In; vm_compute; tauto.
Qed.

Lemma absSum_pos dx dy dz :
  (dx, dy, dz) ∈ all3DDirections → 1 ≤ absSum (dx, dy, dz).
Proof. intros H%all3DDirections_spec. unfold absSum. lia. Qed.

Lemma absSum_opp dx dy dz : absSum (- dx, - dy, - dz) = absSum (dx, dy, dz).
Proof. unfold absSum. lia. Qed.

Lemma uniqueDirections_spec l : ∀ seen d,
  d ∈ uniqueDirections seen l ↔ d ∈ l ∧ d ∉ seen.
Proof.
  induction l as [|e l IH]; intros seen d; simpl.
  - split; [by intros ?%elem_of_nil|]. by intros [?%elem_of_nil _].
  - case_bool_decide as He.
    + rewrite IH, elem_of_cons. split; [tauto|].
      intros [[->|?] ?]; [done|tauto].
    + rewrite elem_of_cons, IH, !elem_of_cons. split.
      * intros [->|[? ?]]; [tauto|]. tauto.
      * intros [[->|?] ?]; [tauto|].
        destruct (decide (d = e)) as [->|]; [tauto|]. right. tauto.
Qed.

Lemma rayDirections_spec type d :
  d ∈ rayDirections type ↔ d ∈ all3DDirections ∧ dirAllowed type d.
Proof.
  destruct d as [[dx dy] dz]. unfold rayDirections.
  rewrite uniqueDirections_spec, elem_of_app.
  pose proof (absSum_pos dx dy dz) as Hpos.
  assert (∀ l : list (Z * Z * Z), (dx, dy, dz) ∈ filter (fun d => isOrthogonal d = true) l
            ↔ absSum (dx, dy, dz) = 1 ∧ (dx, dy, dz) ∈ l) as Ho.
  { intros l. rewrite list_elem_of_filter. unfold isOrthogonal.
    by rewrite bool_decide_eq_true. }
  assert (∀ l : list (Z * Z * Z), (dx, dy, dz) ∈ filter (fun d => isDiagonal d = true) l
            ↔ 1 < absSum (dx, dy, dz) ∧ (dx, dy, dz) ∈ l) as Hd.
  { intros l. rewrite list_elem_of_filter. unfold isDiagonal.
    by rewrite bool_decide_eq_true. }
  assert ((dx, dy, dz) ∈ all3DDirections →
          absSum (dx, dy, dz) = 1 ∨ 1 < absSum (dx, dy, dz)) as Hsplit.
  { intros Hin. specialize (Hpos Hin). lia. }
  destruct type; cbn [dirAllowed]; rewrite ?Ho, ?Hd, ?elem_of_nil; tauto.
Qed.

(** A step of [k >= 1] cells along a direction that stays in the cube is at
    most seven cells long. *)
Lemma ray_length x y z dx dy dz k :
  (dx, dy, dz) ∈ all3DDirections → 1 ≤ k →
  isWithinBounds x y z = true →
  isWithinBounds (x + dx * k) (y + dy * k) (z + dz * k) = true →
  k ≤ SIZE - 1.
Proof.
  intros Hd%all3DDirections_spec Hk Hs%isWithinBounds_true Ht%isWithinBounds_true.
  unfold SIZE in *.
  assert (dx = -1 ∨ dx = 0 ∨ dx = 1) as Cx by lia.
  assert (dy = -1 ∨ dy = 0 ∨ dy = 1) as Cy by lia.
  assert (dz = -1 ∨ dz = 0 ∨ dz = 1) as Cz by lia.
  destruct Cx as [-> | [-> | ->]], Cy as [-> | [-> | ->]], Cz as [-> | [-> | ->]]; lia.
Qed.

(** ** What the generator returns *)

Lemma in_knightStep b color sx sy sz dx dy dz m :
  m ∈ knightStep b color sx sy sz (dx, dy, dz) ↔
  isWithinBounds (sx + dx) (sy + dy) (sz + dz) = true ∧
  notOwn color (cell b (sx + dx) (sy + dy) (sz + dz)) ∧
  m = plainTo b (sx + dx) (sy + dy) (sz + dz).
Proof.
  unfold knightStep, plainTo.
  destruct (isWithinBounds (sx + dx) (sy + dy) (sz + dz)) eqn:Hb.
  - destruct (cell b (sx + dx) (sy + dy) (sz + dz)) as [t|] eqn:Hc; simpl.
    + case_bool_decide; rewrite ?list_elem_of_singleton, ?elem_of_nil; naive_solver.
    + rewrite list_elem_of_singleton. naive_solver.
  - rewrite elem_of_nil. naive_solver.
Qed.

Lemma in_pawnCapture b color sx sy sz dx dy dz m :
  m ∈ pawnCapture b color sx sy sz (dx, dy, dz) ↔
  isWithinBounds (sx + dx) (sy + dy) (sz + dz) = true ∧
  (∃ t, cell b (sx + dx) (sy + dy) (sz + dz) = Some t ∧ Piece.color t ≠ color) ∧
  m = Move.mk (sx + dx) (sy + dy) (sz + dz) true None.
Proof.
  unfold pawnCapture.
  destruct (isWithinBounds (sx + dx) (sy + dy) (sz + dz)) eqn:Hb.
  - destruct (cell b (sx + dx) (sy + dy) (sz + dz)) as [t|] eqn:Hc; simpl.
    + case_bool_decide; rewrite ?list_elem_of_singleton, ?elem_of_nil; naive_solver.
    + rewrite elem_of_nil. naive_solver.
  - rewrite elem_of_nil. naive_solver.
Qed.

Lemma in_pawnCaptureDirections dx dy :
  (dx, dy) ∈ pawnCaptureDirections ↔
  (-1 ≤ dx ≤ 1 ∧ -1 ≤ dy ≤ 1 ∧ ¬ (dx = 0 ∧ dy = 0)).
Proof.
  split.
  - intros H. apply list_elem_of_In in H. vm_compute in H.
    repeat (destruct H as [H|H]; [simplify_eq; lia|]). done.
  - intros (Hx & Hy & Hne).
    assert (dx = -1 ∨ dx = 0 ∨ dx = 1) as Cx by lia.
    assert (dy = -1 ∨ dy = 0 ∨ dy = 1) as Cy by lia.
    destruct Cx as [-> | [-> | ->]], Cy as [-> | [-> | ->]];
      try (exfalso; apply Hne; done);
      apply list_elem_of_In; vm_compute; tauto.
Qed.

Lemma zDirOf_cases c : zDirOf c = 1 ∨ zDirOf c = -1.
Proof. destruct c; simpl; lia. Qed.

Lemma pawnMoves_plain b piece m :
  m ∈ pawnMoves b (Piece.color piece) (Piece.x piece) (Piece.y piece) (Piece.z piece) →
  plainMove b piece m.
Proof.
  unfold pawnMoves. rewrite elem_of_app. intros [Hf|Hc].
  - destruct (isWithinBounds _ _ (Piece.z piece + zDirOf (Piece.color piece))) eqn:Hb1;
      [|by apply elem_of_nil in Hf].
    destruct (cell b _ _ (Piece.z piece + zDirOf (Piece.color piece))) as [t|] eqn:Hc1;
      [by apply elem_of_nil in Hf|].
    cbn [truthy negb andb] in Hf. apply elem_of_cons in Hf as [->|Hf].
    + unfold plainMove. cbn. rewrite Hb1, Hc1.
      pose proof (zDirOf_cases (Piece.color piece)).
      repeat split; try done. intros [=]. lia.
    + case_bool_decide; [|by apply elem_of_nil in Hf].
      destruct (isWithinBounds _ _ (Piece.z piece + zDirOf (Piece.color piece) * 2)) eqn:Hb2;
        [|by apply elem_of_nil in Hf].
      destruct (cell b _ _ (Piece.z piece + zDirOf (Piece.color piece) * 2)) as [t|] eqn:Hc2;
        [by apply elem_of_nil in Hf|].
      cbn [truthy negb andb] in Hf. apply list_elem_of_singleton in Hf as ->.
      unfold plainMove. cbn. rewrite Hb2, Hc2.
      pose proof (zDirOf_cases (Piece.color piece)).
      repeat split; try done. intros [=]. lia.
  - apply list_elem_of_In, in_flat_map in Hc as ([[dx dy] dz] & Hd & Hm).
    apply list_elem_of_In, in_pawnCapture in Hm as (Hb & (t & Ht & Hcol) & ->).
    apply in_map_iff in Hd as ([dx' dy'] & [= -> -> <-] & _).
    unfold plainMove. cbn. rewrite Hb, Ht.
    pose proof (zDirOf_cases (Piece.color piece)).
    repeat split; try done. intros [=]. lia.
Qed.

Lemma knightMoves_nonzero dx dy dz :
  (dx, dy, dz) ∈ knightMoves → ¬ (dx = 0 ∧ dy = 0 ∧ dz = 0).
Proof.
  intros H. apply list_elem_of_In in H. vm_compute in H.
  repeat (destruct H as [H|H]; [simplify_eq; lia|]). done.
Qed.

Lemma knight_plain b piece m :
  m ∈ flat_map (knightStep b (Piece.color piece)
                  (Piece.x piece) (Piece.y piece) (Piece.z piece)) knightMoves →
  plainMove b piece m.
Proof.
  intros H. apply list_elem_of_In, in_flat_map in H as ([[dx dy] dz] & Hd & Hm).
  apply list_elem_of_In, in_knightStep in Hm as (Hb & Hown & ->).
  apply list_elem_of_In, knightMoves_nonzero in Hd.
  unfold plainMove, plainTo. cbn. repeat split; try done. intros [=]. lia.
Qed.

Lemma sliding_plain b piece m :
  m ∈ slidingMoves piece b → plainMove b piece m.
Proof.
  intros H. apply list_elem_of_In, in_flat_map in H as ([[dx dy] dz] & Hd & Hm).
  apply list_elem_of_In in Hm.
  apply list_elem_of_In, rayDirections_spec in Hd as [Hd _].
  apply all3DDirections_spec in Hd.
  destruct (maxDistance (Piece.type piece)) as [|n|n] eqn:Hmax;
    try (by apply elem_of_nil in Hm).
  rewrite <- (Z2Nat.id (Z.pos n)) in Hm by lia.
  apply in_rayMoves in Hm as (k & Hk & _ & Hb & Hown & ->).
  cbn [fst snd] in *. unfold plainMove, rayMove. cbn.
  repeat split; try done. intros [=]. nia.
Qed.

Lemma isUnmovedRook_true color c x y z b :
  c = cell b x y z → isUnmovedRook color c = true ↔ unmovedRookAt b color x y z.
Proof.
  intros ->. unfold isUnmovedRook, unmovedRookAt.
  destruct (cell b x y z) as [r|].
  - rewrite !andb_true_iff, !bool_decide_eq_true, negb_true_iff. naive_solver.
  - naive_solver.
Qed.

Lemma isNull_true c : isNull c = true ↔ c = None.
Proof. destruct c; naive_solver. Qed.

Lemma in_castleMoves piece b m :
  m ∈ castleMoves piece b ↔
  castleReady piece b ∧
  ((m = kingsideMove piece ∧ kingsideOpen piece b) ∨
   (m = queensideMove piece ∧ queensideOpen piece b)).
Proof.
  unfold castleMoves, castleReady, kingsideOpen, queensideOpen, homeZ.
  destruct (bool_decide (Piece.type piece = K) && negb (Piece.hasMoved piece)
            && negb (isKingInCheck (Piece.color piece) b)) eqn:Hready.
  - apply andb_true_iff in Hready as [[Hk%bool_decide_eq_true Hm%negb_true_iff]%andb_true_iff
                                        Hchk%negb_true_iff].
    destruct (bool_decide (Piece.y piece = _) && bool_decide (Piece.z piece = _)) eqn:Hhome.
    + apply andb_true_iff in Hhome as [Hy%bool_decide_eq_true Hz%bool_decide_eq_true].
      rewrite elem_of_app.
      assert (∀ (c : bool) (x : Move.t), m ∈ (if c then [x] else []) ↔ c = true ∧ m = x) as Hif.
      { intros [] x; rewrite ?list_elem_of_singleton, ?elem_of_nil; naive_solver. }
      rewrite !Hif, !andb_true_iff, !negb_true_iff, !isNull_true.
      rewrite (isUnmovedRook_true _ _ 7 (Piece.y piece) (Piece.z piece) b eq_refl).
      rewrite (isUnmovedRook_true _ _ 0 (Piece.y piece) (Piece.z piece) b eq_refl).
      split.
      * intros [H|H]; (split; [repeat split; try done; by destruct (Piece.color piece)|]);
          [left|right]; unfold kingsideMove, queensideMove; tauto.
      * intros [_ [H|H]]; [left|right]; unfold kingsideMove, queensideMove in *; tauto.
    + rewrite elem_of_nil. split; [done|]. intros [(_ & _ & _ & Hy & Hz) _].
      apply andb_false_iff in Hhome as [H%bool_decide_eq_false|H%bool_decide_eq_false];
        destruct (Piece.color piece); simpl in *; congruence.
  - rewrite elem_of_nil. split; [done|]. intros [(Hk & Hm & Hchk & _) _].
    rewrite Hk, Hm, Hchk in Hready. by rewrite bool_decide_eq_true_2 in Hready.
Qed.

(** Every move of the generator is a plain move or one of the two castle
    moves of a king. *)
Lemma calculateValidMoves_cases piece b m :
  m ∈ calculateValidMoves piece b →
  plainMove b piece m ∨ m ∈ castleMoves piece b.
Proof.
  unfold calculateValidMoves.
  destruct (Piece.type piece) eqn:Ht;
    rewrite ?elem_of_app;
    try (intros [H|H]; [left; by apply sliding_plain|by right]).
  - intros H. left. by apply pawnMoves_plain.
  - intros H. left. by apply knight_plain.
Qed.

Lemma castleMoves_king piece b m :
  m ∈ castleMoves piece b → Piece.type piece = K ∧ is_Some (Move.castle m).
Proof.
  intros (Hr & [[-> _]|[-> _]])%in_castleMoves; (split; [apply Hr|by eexists]).
Qed.


(** ** Checking a concrete board *)

Lemma in_allCells x y z : isWithinBounds x y z = true → (x, y, z) ∈ allCells.
Proof.
  intros (Hx & Hy & Hz)%isWithinBounds_true.
  apply list_elem_of_In. unfold allCells.
  apply in_flat_map. exists x. split; [apply list_elem_of_In, elem_of_seqZ; lia|].
  apply in_flat_map. exists y. split; [apply list_elem_of_In, elem_of_seqZ; lia|].
  apply in_map_iff. exists z. split; [done|]. apply list_elem_of_In, elem_of_seqZ. lia.
Qed.

Lemma positionsAgree_singleCell b : positionsAgree b → singleCell b.
Proof.
  intros Hp p x1 y1 z1 x2 y2 z2 H1 H2.
  destruct (Hp _ _ _ _ H1) as (<- & <- & <-).
  by destruct (Hp _ _ _ _ H2) as (<- & <- & <-).
Qed.

Lemma checkBoard_sound b : checkBoard b = true → boardInvariant b.
Proof.
  unfold checkBoard. rewrite andb_true_iff, bool_decide_eq_true, forallb_forall.
  intros [Hc Hall].
  assert (positionsAgree b) as Hp.
  { intros x y z p Hcell.
    pose proof (cell_Some_bounds _ _ _ _ _ Hc Hcell) as Hb.
    apply in_allCells, list_elem_of_In, Hall in Hb. unfold agreesAt in Hb.
    rewrite Hcell, !andb_true_iff, !bool_decide_eq_true in Hb. tauto. }
  split; [done|]. split; [done|]. by apply positionsAgree_singleCell.
Qed.

Ltac check_board := apply checkBoard_sound; vm_compute; reflexivity.
Ltac check_cubic := apply (bool_decide_unpack _); vm_compute; exact I.
Ltac in_moves := apply (bool_decide_unpack _); vm_compute; exact I.

Lemma castleBoard_ok : boardInvariant castleBoard.
Proof. check_board. Qed.
Lemma guardedBoard_ok : boardInvariant guardedBoard.
Proof. check_board. Qed.
Lemma offColumnBoard_ok : boardInvariant offColumnBoard.
Proof. check_board. Qed.
Lemma pinBoard_ok : boardInvariant pinBoard.
Proof. check_board. Qed.
Lemma initializeBoardState_ok : boardInvariant initializeBoardState.
Proof. check_board. Qed.

(** ** The generator returns the pseudo-legal moves, all of them *)

Lemma in_slidingMoves piece b m :
  m ∈ slidingMoves piece b ↔
  ∃ dx dy dz k,
    (dx, dy, dz) ∈ all3DDirections ∧ dirAllowed (Piece.type piece) (dx, dy, dz) ∧
    1 ≤ k < 1 + Z.of_nat (Z.to_nat (maxDistance (Piece.type piece))) ∧
    clearTo b (Piece.x piece) (Piece.y piece) (Piece.z piece) (dx, dy, dz) 1 k ∧
    isWithinBounds (Piece.x piece + dx * k) (Piece.y piece + dy * k)
                   (Piece.z piece + dz * k) = true ∧
    notOwn (Piece.color piece)
           (cell b (Piece.x piece + dx * k) (Piece.y piece + dy * k)
                 (Piece.z piece + dz * k)) ∧
    m = rayMove b (Piece.x piece) (Piece.y piece) (Piece.z piece) (dx, dy, dz) k.
Proof.
  unfold slidingMoves.
  assert (seqZ 1 (maxDistance (Piece.type piece))
          = seqZ 1 (Z.of_nat (Z.to_nat (maxDistance (Piece.type piece))))) as ->.
  { f_equal. by destruct (Piece.type piece). }
  rewrite list_elem_of_In, in_flat_map. split.
  - intros ([[dx dy] dz] & [Hd Hal]%list_elem_of_In%rayDirections_spec
            & Hm%list_elem_of_In%in_rayMoves).
    destruct Hm as (k & Hk & Hclear & Hb & Hown & ->).
    exists dx, dy, dz, k. cbn [fst snd] in *. tauto.
  - intros (dx & dy & dz & k & Hd & Hal & Hk & Hclear & Hb & Hown & ->).
    exists (dx, dy, dz). split.
    + apply list_elem_of_In, rayDirections_spec. tauto.
    + apply list_elem_of_In, in_rayMoves. exists k. cbn [fst snd]. tauto.
Qed.

Lemma in_pawnMoves b color x y z m :
  m ∈ pawnMoves b color x y z ↔
  (isWithinBounds x y (z + zDirOf color) = true ∧ cell b x y (z + zDirOf color) = None ∧
   m = Move.mk x y (z + zDirOf color) false None) ∨
  (z = pawnStartLayer color ∧
   isWithinBounds x y (z + zDirOf color) = true ∧ cell b x y (z + zDirOf color) = None ∧
   isWithinBounds x y (z + zDirOf color * 2) = true ∧
   cell b x y (z + zDirOf color * 2) = None ∧
   m = Move.mk x y (z + zDirOf color * 2) false None) ∨
  (∃ dx dy t, (dx, dy) ∈ pawnCaptureDirections ∧
     isWithinBounds (x + dx) (y + dy) (z + zDirOf color) = true ∧
     cell b (x + dx) (y + dy) (z + zDirOf color) = Some t ∧ Piece.color t ≠ color ∧
     m = Move.mk (x + dx) (y + dy) (z + zDirOf color) true None).
Proof.
  unfold pawnMoves. rewrite elem_of_app.
  assert (m ∈ flat_map (pawnCapture b color x y z)
                (map (fun '(dx, dy) => (dx, dy, zDirOf color)) pawnCaptureDirections)
          ↔ ∃ dx dy t, (dx, dy) ∈ pawnCaptureDirections ∧
              isWithinBounds (x + dx) (y + dy) (z + zDirOf color) = true ∧
              cell b (x + dx) (y + dy) (z + zDirOf color) = Some t ∧
              Piece.color t ≠ color ∧
              m = Move.mk (x + dx) (y + dy) (z + zDirOf color) true None) as ->.
  { rewrite list_elem_of_In, in_flat_map. split.
    - intros ([[dx dy] dz] & Hd & Hm).
      apply list_elem_of_In, in_pawnCapture in Hm as (Hb & (t & Ht & Hcol) & ->).
      apply in_map_iff in Hd as ([dx' dy'] & Heq & Hd). simplify_eq.
      exists dx, dy, t. by rewrite list_elem_of_In.
    - intros (dx & dy & t & Hd & Hb & Ht & Hcol & ->).
      exists (dx, dy, zDirOf color). split.
      + apply in_map_iff. exists (dx, dy). by rewrite <- list_elem_of_In.
      + apply list_elem_of_In, in_pawnCapture. eauto. }
  assert (pawnStartLayer color = match color with white => 1 | black => 6 end) as Hlayer
    by done.
  destruct (isWithinBounds x y (z + zDirOf color)) eqn:Hb1; cbn [andb];
    [|rewrite elem_of_nil; naive_solver].
  destruct (cell b x y (z + zDirOf color)) as [t1|] eqn:Hc1; cbn [truthy negb];
    [rewrite elem_of_nil; naive_solver|].
  rewrite elem_of_cons, <- Hlayer. case_bool_decide as Hstart;
    [|rewrite elem_of_nil; naive_solver].
  destruct (isWithinBounds x y (z + zDirOf color * 2)) eqn:Hb2; cbn [andb];
    [|rewrite elem_of_nil; naive_solver].
  destruct (cell b x y (z + zDirOf color * 2)) as [t2|] eqn:Hc2; cbn [truthy negb andb];
    [rewrite elem_of_nil; naive_solver|].
  rewrite list_elem_of_singleton. naive_solver.
Qed.

Lemma pseudoLegal_generated b piece m :
  pseudoLegal b piece m ↔ m ∈ calculateValidMoves piece b ∧ Move.castle m = None.
Proof.
  assert (∀ k type, 1 ≤ k ≤ maxDistance type
                    ↔ 1 ≤ k < 1 + Z.of_nat (Z.to_nat (maxDistance type))) as Hsteps.
  { intros k type. rewrite Z2Nat.id by (by destruct type). lia. }
  assert (Piece.type piece ≠ P → Piece.type piece ≠ N →
          (m ∈ slidingMoves piece b
           ↔ m ∈ calculateValidMoves piece b ∧ Move.castle m = None)) as Hslide.
  { intros HP HN. unfold calculateValidMoves.
    destruct (Piece.type piece); try done; rewrite elem_of_app; (split;
      [intros Hm; split; [by left|by apply sliding_plain in Hm as [? _]]
      |intros [[?|Hcm] Hnone]; [done|];
       apply castleMoves_king in Hcm as [_ [side Hside]]; congruence]). }
  unfold pseudoLegal.
  destruct (Piece.type piece) eqn:Hty.
  - unfold calculateValidMoves. rewrite Hty, in_pawnMoves. split; [|tauto].
    intros H. split; [done|].
    destruct H as [(_ & _ & ->)|[(_ & _ & _ & _ & _ & ->)|(dx & dy & t & _ & _ & _ & _ & ->)]];
      done.
  - unfold calculateValidMoves. rewrite Hty, list_elem_of_In, in_flat_map. split.
    + intros (dx & dy & dz & Hd & Hrest). split.
      * exists (dx, dy, dz). split; [by apply list_elem_of_In|].
        by apply list_elem_of_In, in_knightStep.
      * by destruct Hrest as (_ & _ & ->).
    + intros [([[dx dy] dz] & Hd & Hm) _]. exists dx, dy, dz.
      split; [by apply list_elem_of_In|]. by apply list_elem_of_In, in_knightStep in Hm.
  - rewrite <- Hslide, in_slidingMoves by done. rewrite Hty.
    by setoid_rewrite Hsteps.
  - rewrite <- Hslide, in_slidingMoves by done. rewrite Hty.
    by setoid_rewrite Hsteps.
  - rewrite <- Hslide, in_slidingMoves by done. rewrite Hty.
    by setoid_rewrite Hsteps.
  - rewrite <- Hslide, in_slidingMoves by done. rewrite Hty.
    by setoid_rewrite Hsteps.
Qed.

(** ** The claims about the generator *)

(** C1. The generator is pseudo-legal. It returns every move the
    movement rules allow, with no regard to check: each pseudo-legal move is
    in the list, and each move of the list that is no castle is pseudo-legal
    (the castle branch alone tests for check). So there are a piece, a board
    and a move returned by [calculateValidMoves] whose application by
    [executeMove] leaves the mover's own king in check: the white rook on
    [(0, 3, 0)] shields its king on [(0, 0, 0)] from the black rook on
    [(0, 7, 0)]; the king is not in check, the rook may step aside to
    [(1, 3, 0)], and after the move the king is in check. *)
Theorem generator_is_pseudo_legal :
  (∀ piece b m, pseudoLegal b piece m → m ∈ calculateValidMoves piece b) ∧
  (∀ piece b m, m ∈ calculateValidMoves piece b → Move.castle m = None →
                pseudoLegal b piece m) ∧
  ∃ piece b m st',
    boardInvariant b ∧
    cell b (Piece.x piece) (Piece.y piece) (Piece.z piece) = Some piece ∧
    isKingInCheck (Piece.color piece) b = false ∧
    m ∈ calculateValidMoves piece b ∧
    executeMove (stateOf b (Piece.color piece)) piece
                (Move.x m) (Move.y m) (Move.z m) m = Done st' ∧
    isKingInCheck (Piece.color piece) (State.boardState st') = true.
Proof.
  split; [|split].
  - intros piece b m H. by apply pseudoLegal_generated in H as [? _].
  - intros piece b m Hm Hnone. by apply pseudoLegal_generated.
  - exists pinnedRook, pinBoard, pinMove. eexists.
    split; [apply pinBoard_ok|].
    split; [reflexivity|]. split; [reflexivity|].
    split; [in_moves|]. split; [vm_compute; reflexivity|]. reflexivity.
Qed.

Lemma generator_is_pseudo_legal_witness :
  pseudoLegal pinBoard pinnedRook pinMove ∧
  pinMove ∈ calculateValidMoves pinnedRook pinBoard.
Proof.
  assert (pseudoLegal pinBoard pinnedRook pinMove) as Hrule.
  { exists 1, 0, 0, 1. split; [apply all3DDirections_spec; lia|].
    split; [reflexivity|]. split; [unfold maxDistance, SIZE; simpl; lia|].
    split; [intros j Hj; lia|]. split; [reflexivity|]. split; [exact I|].
    reflexivity. }
  split; [exact Hrule|].
  exact (proj1 generator_is_pseudo_legal pinnedRook pinBoard pinMove Hrule).
Defined.

(** C3, as the specification words it, fails: the landing cell of a castle
    does bear on the move. On [castleBoard] and on [guardedBoard] the white
    king is ready, the rook on [x = 7] is unmoved, the cells [x = 5] and
    [x = 6] are empty and the cell [x = 5] the king passes over is not
    attacked; the boards differ by a black rook that attacks the landing
    cell [(6, 3, 0)] only. The kingside castle is produced on the first
    board and not on the second. *)
Lemma castle_landing_cell_counterexample :
  castleReady homeKing castleBoard ∧ castleReady homeKing guardedBoard ∧
  unmovedRookAt castleBoard white 7 3 0 ∧ unmovedRookAt guardedBoard white 7 3 0 ∧
  cell castleBoard 5 3 0 = None ∧ cell castleBoard 6 3 0 = None ∧
  cell guardedBoard 5 3 0 = None ∧ cell guardedBoard 6 3 0 = None ∧
  isSquareAttacked 5 3 0 black castleBoard = false ∧
  isSquareAttacked 5 3 0 black guardedBoard = false ∧
  (Move.x (kingsideMove homeKing), Move.y (kingsideMove homeKing),
   Move.z (kingsideMove homeKing)) = (6, 3, 0) ∧
  isSquareAttacked 6 3 0 black castleBoard = false ∧
  isSquareAttacked 6 3 0 black guardedBoard = true ∧
  kingsideMove homeKing ∈ calculateValidMoves homeKing castleBoard ∧
  Forall (fun m => Move.castle m ≠ Some Castle.king)
         (calculateValidMoves homeKing guardedBoard).
Proof.
  assert (∀ b, cell b 7 3 0 = Some (Piece.mk R white 7 3 0 false) →
               unmovedRookAt b white 7 3 0) as Hrook.
  { intros b Hb. eexists. split; [exact Hb|]. done. }
  repeat split; try reflexivity; try (by apply Hrook).
  - in_moves.
  - apply (bool_decide_unpack _). vm_compute. exact I.
Qed.

(** C3, amended. The attack tests of castle generation are on fixed cells:
    [x = 5] and [x = 6] of the king's row for the kingside castle, [x = 2]
    and [x = 3] for the queenside castle. For a king on its first column
    [x = 4] the landing cell ([x + 2 = 6], [x - 2 = 2]) is one of them, so a
    castle move is produced only when its landing cell is not attacked. *)
Theorem castle_attack_tests (piece : Piece.t) (b : BoardState) (m : Move.t) :
  cubic b → m ∈ calculateValidMoves piece b →
  let opp := opponentOf (Piece.color piece) in
  (Move.castle m = Some Castle.king →
     isSquareAttacked 5 (Piece.y piece) (Piece.z piece) opp b = false ∧
     isSquareAttacked 6 (Piece.y piece) (Piece.z piece) opp b = false ∧
     (Piece.x piece = 4 →
      isSquareAttacked (Move.x m) (Move.y m) (Move.z m) opp b = false)) ∧
  (Move.castle m = Some Castle.queen →
     isSquareAttacked 2 (Piece.y piece) (Piece.z piece) opp b = false ∧
     isSquareAttacked 3 (Piece.y piece) (Piece.z piece) opp b = false ∧
     (Piece.x piece = 4 →
      isSquareAttacked (Move.x m) (Move.y m) (Move.z m) opp b = false)).
Proof.
  intros _ Hm opp. split; intros Hside.
  - apply calculateValidMoves_cases in Hm as [[Hnone _]|Hc]; [congruence|].
    apply in_castleMoves in Hc as [_ [[-> Ho]|[-> _]]]; [|discriminate Hside].
    destruct Ho as (_ & _ & _ & H5 & H6). split; [done|]. split; [done|].
    intros Hx. unfold kingsideMove. cbn. by rewrite Hx.
  - apply calculateValidMoves_cases in Hm as [[Hnone _]|Hc]; [congruence|].
    apply in_castleMoves in Hc as [_ [[-> _]|[-> Ho]]]; [discriminate Hside|].
    destruct Ho as (_ & _ & _ & _ & H2 & H3). split; [done|]. split; [done|].
    intros Hx. unfold queensideMove. cbn. by rewrite Hx.
Qed.

Lemma castle_attack_tests_witness :
  cubic castleBoard ∧
  kingsideMove homeKing ∈ calculateValidMoves homeKing castleBoard ∧
  isSquareAttacked 6 3 0 black castleBoard = false.
Proof.
  assert (cubic castleBoard) as Hc by check_cubic.
  assert (kingsideMove homeKing ∈ calculateValidMoves homeKing castleBoard) as Hm
    by in_moves.
  split; [exact Hc|]. split; [exact Hm|].
  exact (proj2 (proj2 (proj1 (castle_attack_tests homeKing castleBoard _ Hc Hm) eq_refl))
           eq_refl).
Defined.

(** C7, as stated over every board, fails on a castle: an unmoved king that
    does not stand on its first column. With the white king on [(2, 3, 0)]
    the kingside castle lands on [(4, 3, 0)], where a white bishop stands. *)
Lemma castle_onto_own_piece_counterexample :
  boardInvariant offColumnBoard ∧
  cell offColumnBoard 2 3 0 = Some offColumnKing ∧
  kingsideMove offColumnKing ∈ calculateValidMoves offColumnKing offColumnBoard ∧
  ∃ t, cell offColumnBoard (Move.x (kingsideMove offColumnKing))
            (Move.y (kingsideMove offColumnKing))
            (Move.z (kingsideMove offColumnKing)) = Some t ∧
       Piece.color t = Piece.color offColumnKing ∧ t ≠ offColumnKing.
Proof.
  split; [apply offColumnBoard_ok|]. split; [reflexivity|]. split; [in_moves|].
  eexists. split; [reflexivity|]. split; [reflexivity|]. discriminate.
Qed.

(** C7, amended. On a board where an unmoved king (if the piece is one)
    stands on its first column [x = 4], as it does in every position played
    from the initial layout, every move of the generator lands inside the
    cube and never on a piece of the mover's color. *)
Theorem moves_in_bounds_not_own (piece : Piece.t) (b : BoardState) (m : Move.t) :
  cubic b →
  (Piece.type piece = K → Piece.hasMoved piece = false → Piece.x piece = 4) →
  m ∈ calculateValidMoves piece b →
  isWithinBounds (Move.x m) (Move.y m) (Move.z m) = true ∧
  ∀ t, cell b (Move.x m) (Move.y m) (Move.z m) = Some t →
       Piece.color t ≠ Piece.color piece.
Proof.
  intros _ Hcol [Hplain|Hc]%calculateValidMoves_cases.
  - destruct Hplain as (_ & Hb & Hown & _). split; [done|].
    intros t Ht. by rewrite Ht in Hown.
  - apply in_castleMoves in Hc as [(Hk & Hm & _ & Hy & Hz) Hside].
    specialize (Hcol Hk Hm).
    assert (isWithinBounds 0 (Piece.y piece) (Piece.z piece) = true) as Hrow.
    { rewrite Hy, Hz. by destruct (Piece.color piece). }
    apply isWithinBounds_true in Hrow. unfold SIZE in Hrow.
    destruct Hside as [[-> Ho]|[-> Ho]]; unfold kingsideMove, queensideMove; cbn;
      rewrite Hcol.
    + destruct Ho as (_ & _ & H6 & _). split.
      * apply isWithinBounds_true. unfold SIZE. lia.
      * intros t. change (4 + 2) with 6. congruence.
    + destruct Ho as (_ & _ & H2 & _). split.
      * apply isWithinBounds_true. unfold SIZE. lia.
      * intros t. change (4 - 2) with 2. congruence.
Qed.

Lemma moves_in_bounds_not_own_witness :
  cubic castleBoard ∧
  kingsideMove homeKing ∈ calculateValidMoves homeKing castleBoard ∧
  isWithinBounds 6 3 0 = true ∧
  ∀ t, cell castleBoard 6 3 0 = Some t → Piece.color t ≠ white.
Proof.
  assert (cubic castleBoard) as Hc by check_cubic.
  assert (kingsideMove homeKing ∈ calculateValidMoves homeKing castleBoard) as Hm
    by in_moves.
  split; [exact Hc|]. split; [exact Hm|].
  exact (moves_in_bounds_not_own homeKing castleBoard _ Hc (fun _ _ => eq_refl) Hm).
Defined.

(** ** [findKing] *)

Lemma isKingOf_true kingColor c :
  isKingOf kingColor c = true ↔ ∃ p, c = Some p ∧ kingOf kingColor p.
Proof.
  unfold isKingOf, kingOf. destruct c as [p|].
  - rewrite andb_true_iff, !bool_decide_eq_true. naive_solver.
  - naive_solver.
Qed.

Lemma firstKing_None kingColor b cs :
  firstKing kingColor b cs = None →
  ∀ x y z p, (x, y, z) ∈ cs → cell b x y z = Some p → ¬ kingOf kingColor p.
Proof.
  induction cs as [|[[x0 y0] z0] cs IH]; simpl; intros Hnone x y z p Hin Hcell Hking.
  - by apply elem_of_nil in Hin.
  - destruct (isKingOf kingColor (cell b x0 y0 z0)) eqn:Hk.
    + apply isKingOf_true in Hk as (q & Hq & _). congruence.
    + apply elem_of_cons in Hin as [Heq|Hin].
      * simplify_eq.
        assert (isKingOf kingColor (cell b x0 y0 z0) = true) as Hyes
          by (apply isKingOf_true; eauto).
        congruence.
      * by apply (IH Hnone x y z p).
Qed.

Lemma firstKing_Some kingColor b cs king :
  firstKing kingColor b cs = Some king →
  ∃ x y z, (x, y, z) ∈ cs ∧ cell b x y z = Some king ∧ kingOf kingColor king.
Proof.
  induction cs as [|[[x0 y0] z0] cs IH]; simpl; [done|].
  destruct (isKingOf kingColor (cell b x0 y0 z0)) eqn:Hk.
  - intros Hcell. apply isKingOf_true in Hk as (q & Hq & Hking).
    exists x0, y0, z0. split; [apply list_elem_of_here|].
    split; [done|]. congruence.
  - intros (x & y & z & Hin & Hrest)%IH. exists x, y, z.
    split; [by apply list_elem_of_further|done].
Qed.

Lemma opponentOf_other (c attacker : Color) : attacker ≠ c → opponentOf c = attacker.
Proof. by destruct c, attacker. Qed.

Lemma checkSoleKing_sound b color x y z :
  cubic b → checkSoleKing b color x y z = true → soleKingAt b color x y z.
Proof.
  intros Hc Hall x' y' z' p Hcell Hking.
  unfold checkSoleKing in Hall. rewrite forallb_forall in Hall.
  pose proof (in_allCells _ _ _ (cell_Some_bounds _ _ _ _ _ Hc Hcell)) as Hin.
  apply list_elem_of_In, Hall in Hin. cbn in Hin.
  apply orb_true_iff in Hin as [Hno|Heq].
  - apply negb_true_iff in Hno.
    assert (isKingOf color (cell b x' y' z') = true) as Hyes
      by (apply isKingOf_true; eauto).
    congruence.
  - by apply bool_decide_eq_true in Heq.
Qed.

(** The king [findKing] returns stands on the board, and [isKingInCheck]
    asks about the cell its coordinates name and the color that is not
    its own. *)
Lemma isKingInCheck_found kingColor b king attacker :
  findKing kingColor b = Some king → attacker ≠ kingColor →
  isKingInCheck kingColor b
  = isSquareAttacked (Piece.x king) (Piece.y king) (Piece.z king) attacker b.
Proof.
  intros Hf Hatt. unfold isKingInCheck. rewrite Hf.
  by rewrite (opponentOf_other _ _ Hatt).
Qed.

Lemma findKing_is_Some kingColor b x y z p :
  cubic b → cell b x y z = Some p → kingOf kingColor p →
  is_Some (findKing kingColor b).
Proof.
  intros Hc Hcell Hking.
  destruct (findKing kingColor b) as [king|] eqn:Hf; [by eexists|].
  exfalso. eapply (firstKing_None _ _ _ Hf x y z p); [|done..].
  apply in_allCells. by eapply cell_Some_bounds.
Qed.

(** With every king of the color on one cell, that cell's king is the one
    [findKing] returns. *)
Lemma findKing_sole kingColor b x y z king :
  cubic b → cell b x y z = Some king → kingOf kingColor king →
  soleKingAt b kingColor x y z →
  findKing kingColor b = Some king.
Proof.
  intros Hc Hcell Hking Hsole.
  destruct (findKing_is_Some kingColor b x y z king Hc Hcell Hking) as [king' Hf].
  pose proof Hf as (x' & y' & z' & _ & Hcell' & Hking')%firstKing_Some.
  pose proof (Hsole _ _ _ _ Hcell' Hking') as Hsame. simplify_eq. congruence.
Qed.

(** C9. On a board without a king of the color, [isKingInCheck] answers
    [false]. On a board with one, it answers what [isSquareAttacked] says of
    the opposing color, the color that is not the king's, at the cell of a
    king of the color: the first one [findKing] meets, which is the king
    when the color has a single one. *)
Theorem isKingInCheck_spec (kingColor : Color) (b : BoardState) :
  boardInvariant b →
  ((∀ x y z p, cell b x y z = Some p → ¬ kingOf kingColor p) →
   isKingInCheck kingColor b = false) ∧
  ((∃ x y z p, cell b x y z = Some p ∧ kingOf kingColor p) →
   ∃ x y z king, cell b x y z = Some king ∧ kingOf kingColor king ∧
     findKing kingColor b = Some king ∧
     ∀ attacker, attacker ≠ kingColor →
       isKingInCheck kingColor b = isSquareAttacked x y z attacker b) ∧
  (∀ x y z king,
     cell b x y z = Some king → kingOf kingColor king →
     (∀ x' y' z' p, cell b x' y' z' = Some p → kingOf kingColor p →
                    (x', y', z') = (x, y, z)) →
     ∀ attacker, attacker ≠ kingColor →
       isKingInCheck kingColor b = isSquareAttacked x y z attacker b).
Proof.
  intros (Hc & Hp & _).
  split; [|split].
  - intros Hno. unfold isKingInCheck.
    destruct (findKing kingColor b) as [king|] eqn:Hf; [|done].
    apply firstKing_Some in Hf as (x & y & z & _ & Hcell & Hking).
    by destruct (Hno _ _ _ _ Hcell).
  - intros (x0 & y0 & z0 & p & Hcell0 & Hking0).
    destruct (findKing_is_Some kingColor b x0 y0 z0 p Hc Hcell0 Hking0) as [king Hf].
    pose proof Hf as (x & y & z & _ & Hcell & Hking)%firstKing_Some.
    exists x, y, z, king. split; [done|]. split; [done|]. split; [done|].
    intros attacker Hatt. rewrite (isKingInCheck_found _ _ _ _ Hf Hatt).
    by destruct (Hp _ _ _ _ Hcell) as (-> & -> & ->).
  - intros x y z king Hcell Hking Huniq attacker Hatt.
    rewrite (isKingInCheck_found _ _ king attacker); [|by eapply findKing_sole|done].
    by destruct (Hp _ _ _ _ Hcell) as (-> & -> & ->).
Qed.

Lemma blackCheckBoard_ok : boardInvariant blackCheckBoard.
Proof. check_board. Qed.

Lemma isKingInCheck_spec_witness :
  (boardInvariant pinBoard ∧
   ∃ x y z king, cell pinBoard x y z = Some king ∧ kingOf white king ∧
     findKing white pinBoard = Some king ∧
     isKingInCheck white pinBoard = isSquareAttacked x y z black pinBoard) ∧
  (boardInvariant blackCheckBoard ∧
   cell blackCheckBoard 7 7 7 = Some blackCheckedKing ∧
   isKingInCheck black blackCheckBoard = isSquareAttacked 7 7 7 white blackCheckBoard ∧
   isSquareAttacked 7 7 7 white blackCheckBoard = true ∧
   isSquareAttacked 7 7 7 black blackCheckBoard = false).
Proof.
  split.
  - split; [apply pinBoard_ok|].
    destruct (proj1 (proj2 (isKingInCheck_spec white pinBoard pinBoard_ok)))
      as (x & y & z & king & Hcell & Hking & Hf & Hchk).
    { exists 0, 0, 0, (Piece.mk K white 0 0 0 true). split; [reflexivity|].
      split; reflexivity. }
    exists x, y, z, king. split; [exact Hcell|]. split; [exact Hking|].
    split; [exact Hf|]. apply Hchk. discriminate.
  - split; [apply blackCheckBoard_ok|]. split; [reflexivity|].
    split; [|split; reflexivity].
    apply (proj2 (proj2 (isKingInCheck_spec black blackCheckBoard blackCheckBoard_ok))
             7 7 7 blackCheckedKing).
    + reflexivity.
    + split; reflexivity.
    + apply checkSoleKing_sound; [apply blackCheckBoard_ok|vm_compute; reflexivity].
    + discriminate.
Defined.

(** ** Castling *)





(** ** The applier: invariant *)

Lemma bind_Done {A B : Type} (m : outcome A) (f : A → outcome B) r :
  (m ≫= f) = Done r → ∃ a, m = Done a ∧ f a = Done r.
Proof. destruct m; simpl; [eauto|done..]. Qed.

Lemma writeCell_positionsAgree b x y z v b' :
  positionsAgree b → writeCell b x y z v = Done b' →
  (∀ p, v = Some p → Piece.x p = x ∧ Piece.y p = y ∧ Piece.z p = z) →
  positionsAgree b'.
Proof.
  intros Hp Hw Hv x' y' z' p. rewrite (cell_writeCell _ _ _ _ _ _ _ _ _ Hw).
  case_bool_decide as Heq.
  - intros ->. simplify_eq. by apply Hv.
  - apply Hp.
Qed.

Lemma shaped_invariant b : shaped b ↔ boardInvariant b.
Proof.
  unfold shaped, boardInvariant. split; [|tauto].
  intros [? ?]. split; [done|]. split; [done|]. by apply positionsAgree_singleCell.
Qed.

Lemma writeCell_shaped b x y z v b' :
  shaped b → writeCell b x y z v = Done b' →
  (∀ p, v = Some p → Piece.x p = x ∧ Piece.y p = y ∧ Piece.z p = z) →
  shaped b'.
Proof.
  intros [Hc Hp] Hw Hv. split.
  - by eapply writeCell_cubic.
  - by eapply writeCell_positionsAgree.
Qed.

Lemma relocateRook_shaped b from to targetY targetZ b' :
  shaped b → relocateRook b from to targetY targetZ = Done b' → shaped b'.
Proof.
  intros Hs. unfold relocateRook.
  intros (rook & Hr & Hrest)%bind_Done. apply readCell_cell in Hr.
  destruct rook as [rook|]; [|by simplify_eq].
  apply bind_Done in Hrest as (b1 & Hw1 & Hw2).
  destruct Hs as [Hc Hp]. symmetry in Hr.
  destruct (Hp _ _ _ _ Hr) as (_ & Hy & Hz).
  eapply writeCell_shaped; [|exact Hw2|].
  - eapply writeCell_shaped; [by split|exact Hw1|done].
  - intros p [= <-]. cbn. by rewrite Hy, Hz.
Qed.

Lemma executeMove_shaped st piece targetX targetY targetZ move st' :
  shaped (State.boardState st) →
  executeMove st piece targetX targetY targetZ move = Done st' →
  shaped (State.boardState st').
Proof.
  intros Hs. unfold executeMove.
  destruct (bool_decide (Piece.type piece = P) && _); [by intros [= <-]|].
  intros (targetPiece & _ & Hrest)%bind_Done.
  destruct (afterCapture st (Piece.color piece) targetPiece) as [status captured].
  apply bind_Done in Hrest as (b1 & Hw1 & Hrest).
  apply bind_Done in Hrest as (b2 & Hb2 & [= <-]). cbn.
  assert (shaped b1) as Hs1 by (eapply writeCell_shaped; [exact Hs|exact Hw1|done]).
  assert (∀ b', writeCell b1 targetX targetY targetZ
                  (Some (movedTo piece targetX targetY targetZ)) = Done b' →
                shaped b') as Hput.
  { intros b' Hw. eapply writeCell_shaped; [exact Hs1|exact Hw|].
    by intros p [= <-]. }
  destruct (Move.castle move) as [side|]; [|by apply Hput].
  apply bind_Done in Hb2 as (bk & Hwk & Hrook).
  destruct side; eapply relocateRook_shaped; try exact Hrook; by apply Hput.
Qed.

Lemma handlePromotion_shaped st promotedTo st' :
  shaped (State.boardState st) →
  handlePromotion st promotedTo = Done st' →
  shaped (State.boardState st').
Proof.
  intros Hs. unfold handlePromotion.
  destruct (State.promotionData st) as [pd|]; [|by intros [= <-]].
  intros (b1 & Hw1 & Hrest)%bind_Done.
  apply bind_Done in Hrest as (targetPiece & _ & Hrest).
  destruct (afterCapture st _ targetPiece) as [status captured].
  apply bind_Done in Hrest as (b2 & Hw2 & [= <-]). cbn.
  eapply writeCell_shaped; [|exact Hw2|by intros p [= <-]].
  eapply writeCell_shaped; [exact Hs|exact Hw1|done].
Qed.

(** ** The applier runs to its end on generated moves *)

Lemma relocateRook_Done b from to targetY targetZ :
  cubic b → isWithinBounds from targetY targetZ = true →
  isWithinBounds to targetY targetZ = true →
  ∃ b', relocateRook b from to targetY targetZ = Done b'.
Proof.
  intros Hc Hf Ht. unfold relocateRook. rewrite (readCell_Done _ _ _ _ Hc Hf). cbn.
  destruct (cell b from targetY targetZ) as [rook|]; [|eauto].
  destruct (writeCell_Done b from targetY targetZ None Hc Hf) as [b1 Hw1].
  rewrite Hw1. cbn. apply writeCell_Done; [|done]. by eapply writeCell_cubic.
Qed.

(** The column of a king that may castle: left of the cells that must be
    empty on the king's side, right of them on the queen's side. *)
Lemma castle_column piece b m :
  cell b (Piece.x piece) (Piece.y piece) (Piece.z piece) = Some piece →
  cubic b → m ∈ castleMoves piece b →
  isWithinBounds 0 (Piece.y piece) (Piece.z piece) = true ∧
  ((m = kingsideMove piece ∧ 0 ≤ Piece.x piece ≤ 4) ∨
   (m = queensideMove piece ∧ 4 ≤ Piece.x piece ≤ 7)).
Proof.
  intros Hon Hc [(Hk & _) Hside]%in_castleMoves.
  pose proof (cell_Some_bounds _ _ _ _ _ Hc Hon) as Hb.
  apply isWithinBounds_true in Hb. unfold SIZE in Hb.
  split; [apply isWithinBounds_true; unfold SIZE; lia|].
  destruct Hside as [[-> Ho]|[-> Ho]]; [left|right]; (split; [done|]).
  - destruct Ho as ((rook & Hr & Hty & _) & H5 & H6 & _).
    destruct (decide (Piece.x piece = 5)) as [e|]; [rewrite e in Hon; congruence|].
    destruct (decide (Piece.x piece = 6)) as [e|]; [rewrite e in Hon; congruence|].
    destruct (decide (Piece.x piece = 7)) as [e|]; [rewrite e in Hon; congruence|].
    lia.
  - destruct Ho as ((rook & Hr & Hty & _) & H1 & H2 & H3 & _).
    destruct (decide (Piece.x piece = 0)) as [e|]; [rewrite e in Hon; congruence|].
    destruct (decide (Piece.x piece = 1)) as [e|]; [rewrite e in Hon; congruence|].
    destruct (decide (Piece.x piece = 2)) as [e|]; [rewrite e in Hon; congruence|].
    destruct (decide (Piece.x piece = 3)) as [e|]; [rewrite e in Hon; congruence|].
    lia.
Qed.

Lemma executeMove_Done st piece m :
  cubic (State.boardState st) →
  cell (State.boardState st) (Piece.x piece) (Piece.y piece) (Piece.z piece) = Some piece →
  m ∈ calculateValidMoves piece (State.boardState st) →
  ∃ st', executeMove st piece (Move.x m) (Move.y m) (Move.z m) m = Done st'.
Proof.
  intros Hc Hon Hm. unfold executeMove.
  destruct (bool_decide (Piece.type piece = P) && _); [eauto|].
  pose proof (cell_Some_bounds _ _ _ _ _ Hc Hon) as Hob.
  assert (isWithinBounds (Move.x m) (Move.y m) (Move.z m) = true) as Htb.
  { apply calculateValidMoves_cases in Hm as [Hplain|Hcastle]; [apply Hplain|].
    destruct (castle_column _ _ _ Hon Hc Hcastle) as [Hrow [[-> Hx]|[-> Hx]]];
      apply isWithinBounds_true in Hrow; apply isWithinBounds_true;
      unfold SIZE in *; cbn; lia. }
  rewrite (readCell_Done _ _ _ _ Hc Htb). cbn.
  destruct (afterCapture st _ _) as [status captured].
  destruct (writeCell_Done _ _ _ _ None Hc Hob) as [b1 Hw1]. rewrite Hw1. cbn.
  pose proof (writeCell_cubic _ _ _ _ _ _ Hc Hw1) as Hc1.
  destruct (writeCell_Done b1 _ _ _
              (Some (movedTo piece (Move.x m) (Move.y m) (Move.z m))) Hc1 Htb)
    as [b2 Hw2].
  pose proof (writeCell_cubic _ _ _ _ _ _ Hc1 Hw2) as Hc2.
  apply calculateValidMoves_cases in Hm as [Hplain|Hcastle].
  - destruct Hplain as [-> _]. rewrite Hw2. cbn. eauto.
  - destruct (castle_column _ _ _ Hon Hc Hcastle) as [Hrow [[-> Hx]|[-> Hx]]];
      cbn in *; rewrite Hw2; cbn; apply isWithinBounds_true in Hrow; unfold SIZE in Hrow.
    + destruct (relocateRook_Done b2 7 (Piece.x piece + 2 - 1) (Piece.y piece)
                  (Piece.z piece) Hc2) as [b3 ->];
        [apply isWithinBounds_true; unfold SIZE; lia..|]. cbn. eauto.
    + destruct (relocateRook_Done b2 0 (Piece.x piece - 2 + 1) (Piece.y piece)
                  (Piece.z piece) Hc2) as [b3 ->];
        [apply isWithinBounds_true; unfold SIZE; lia..|]. cbn. eauto.
Qed.

Lemma handlePromotion_Done st pd promotedTo :
  cubic (State.boardState st) →
  State.promotionData st = Some pd →
  isWithinBounds (Piece.x (PromotionData.piece pd)) (Piece.y (PromotionData.piece pd))
                 (Piece.z (PromotionData.piece pd)) = true →
  isWithinBounds (PromotionData.x pd) (PromotionData.y pd) (PromotionData.z pd) = true →
  ∃ st', handlePromotion st promotedTo = Done st' ∧
    cell (State.boardState st') (PromotionData.x pd) (PromotionData.y pd)
         (PromotionData.z pd)
    = Some (Piece.mk promotedTo (Piece.color (PromotionData.piece pd))
              (PromotionData.x pd) (PromotionData.y pd) (PromotionData.z pd) true).
Proof.
  intros Hc Hpd Hob Htb. unfold handlePromotion. rewrite Hpd.
  destruct (writeCell_Done _ _ _ _ None Hc Hob) as [b1 Hw1]. rewrite Hw1. cbn.
  pose proof (writeCell_cubic _ _ _ _ _ _ Hc Hw1) as Hc1.
  rewrite (readCell_Done _ _ _ _ Hc1 Htb). cbn.
  destruct (afterCapture st _ _) as [status captured].
  destruct (writeCell_Done b1 _ _ _
              (Some (Piece.mk promotedTo (Piece.color (PromotionData.piece pd))
                       (PromotionData.x pd) (PromotionData.y pd) (PromotionData.z pd)
                       true)) Hc1 Htb) as [b2 Hw2].
  rewrite Hw2. cbn. eexists. split; [done|]. cbn.
  rewrite (cell_writeCell _ _ _ _ _ _ _ _ _ Hw2). by rewrite bool_decide_eq_true_2.
Qed.

(** ** Unmoved kings stay on their column *)

Lemma writeCell_unmovedKingsHome b x y z v b' :
  unmovedKingsHome b → writeCell b x y z v = Done b' →
  (∀ p, v = Some p → Piece.hasMoved p = true) →
  unmovedKingsHome b'.
Proof.
  intros Hhome Hw Hv x' y' z' p. rewrite (cell_writeCell _ _ _ _ _ _ _ _ _ Hw).
  destruct (decide ((x', y', z') = (x, y, z))) as [Heq|Hne].
  - rewrite bool_decide_eq_true_2 by done. intros Hp%Hv _ Hunmoved. congruence.
  - rewrite bool_decide_eq_false_2 by done. apply Hhome.
Qed.

Lemma relocateRook_unmovedKingsHome b from to targetY targetZ b' :
  unmovedKingsHome b → relocateRook b from to targetY targetZ = Done b' →
  unmovedKingsHome b'.
Proof.
  intros Hhome. unfold relocateRook.
  intros (rook & _ & Hrest)%bind_Done.
  destruct rook as [rook|]; [|by simplify_eq].
  apply bind_Done in Hrest as (b1 & Hw1 & Hw2).
  eapply writeCell_unmovedKingsHome; [|exact Hw2|by intros p [= <-]].
  eapply writeCell_unmovedKingsHome; [exact Hhome|exact Hw1|done].
Qed.

(** Every position played from the initial layout keeps its unmoved kings
    on column [x = 4]: both handlers store pieces with [hasMoved = true]
    only. *)
Lemma unmoved_kings_stay_home :
  unmovedKingsHome (State.boardState initialState) ∧
  (∀ st piece targetX targetY targetZ move st',
     unmovedKingsHome (State.boardState st) →
     executeMove st piece targetX targetY targetZ move = Done st' →
     unmovedKingsHome (State.boardState st')) ∧
  (∀ st promotedTo st',
     unmovedKingsHome (State.boardState st) →
     handlePromotion st promotedTo = Done st' →
     unmovedKingsHome (State.boardState st')).
Proof.
  split; [|split].
  - intros x y z p Hcell Hty Hunmoved.
    destruct initializeBoardState_ok as (Hc & _).
    pose proof (cell_Some_bounds _ _ _ _ _ Hc Hcell) as Hb.
    assert (checkKingsHome initializeBoardState = true) as Hall
      by (vm_compute; reflexivity).
    unfold checkKingsHome in Hall. rewrite forallb_forall in Hall.
    apply in_allCells, list_elem_of_In, Hall in Hb. cbn in Hb.
    change (cell initializeBoardState x y z = Some p) in Hcell. rewrite Hcell in Hb.
    rewrite Hunmoved, bool_decide_eq_true_2 in Hb by done.
    by apply bool_decide_eq_true in Hb.
  - intros st piece tx ty tz move st' Hhome. unfold executeMove.
    destruct (bool_decide (Piece.type piece = P) && _); [by intros [= <-]|].
    intros (targetPiece & _ & Hrest)%bind_Done.
    destruct (afterCapture st (Piece.color piece) targetPiece) as [status captured].
    apply bind_Done in Hrest as (b1 & Hw1 & Hrest).
    apply bind_Done in Hrest as (b2 & Hb2 & [= <-]). cbn.
    assert (unmovedKingsHome b1) as Hhome1
      by (eapply writeCell_unmovedKingsHome; [exact Hhome|exact Hw1|done]).
    assert (∀ b', writeCell b1 tx ty tz (Some (movedTo piece tx ty tz)) = Done b' →
                  unmovedKingsHome b') as Hput.
    { intros b' Hw. eapply writeCell_unmovedKingsHome; [exact Hhome1|exact Hw|].
      by intros p [= <-]. }
    destruct (Move.castle move) as [side|]; [|by apply Hput].
    apply bind_Done in Hb2 as (bk & Hwk & Hrook).
    destruct side; eapply relocateRook_unmovedKingsHome; try exact Hrook; by apply Hput.
  - intros st promotedTo st' Hhome. unfold handlePromotion.
    destruct (State.promotionData st) as [pd|]; [|by intros [= <-]].
    intros (b1 & Hw1 & Hrest)%bind_Done.
    apply bind_Done in Hrest as (targetPiece & _ & Hrest).
    destruct (afterCapture st _ targetPiece) as [status captured].
    apply bind_Done in Hrest as (b2 & Hw2 & [= <-]). cbn.
    eapply writeCell_unmovedKingsHome; [|exact Hw2|by intros p [= <-]].
    eapply writeCell_unmovedKingsHome; [exact Hhome|exact Hw1|done].
Qed.

(** ** The claims about the applier *)

(** C5. The board invariant (a cell holds at most one piece, which is the
    type of a cell; no piece is held by two cells; the coordinates stored in
    a piece are those of its cell) holds of the initial layout and is kept
    by every move commit of [executeMove], capture and the rook relocation
    of a castle included, and by every promotion completed by
    [handlePromotion]. A move of the generator for a piece of the board is
    always committed: [executeMove] runs to its end on it. *)
Theorem board_invariant_preserved :
  boardInvariant (State.boardState initialState) ∧
  (∀ st piece targetX targetY targetZ move st',
     boardInvariant (State.boardState st) →
     executeMove st piece targetX targetY targetZ move = Done st' →
     boardInvariant (State.boardState st')) ∧
  (∀ st promotedTo st',
     boardInvariant (State.boardState st) →
     handlePromotion st promotedTo = Done st' →
     boardInvariant (State.boardState st')) ∧
  (∀ st piece m,
     boardInvariant (State.boardState st) →
     cell (State.boardState st) (Piece.x piece) (Piece.y piece) (Piece.z piece)
     = Some piece →
     m ∈ calculateValidMoves piece (State.boardState st) →
     ∃ st', executeMove st piece (Move.x m) (Move.y m) (Move.z m) m = Done st' ∧
            boardInvariant (State.boardState st')).
Proof.
  split; [apply initializeBoardState_ok|]. split; [|split].
  - intros st piece tx ty tz move st' Hinv%shaped_invariant Hrun.
    apply shaped_invariant. by eapply executeMove_shaped.
  - intros st promotedTo st' Hinv%shaped_invariant Hrun.
    apply shaped_invariant. by eapply handlePromotion_shaped.
  - intros st piece m Hinv Hon Hm.
    destruct (executeMove_Done st piece m) as [st' Hrun]; [apply Hinv|done..|].
    exists st'. split; [done|].
    apply shaped_invariant. eapply executeMove_shaped; [|exact Hrun].
    by apply shaped_invariant.
Qed.

Lemma board_invariant_preserved_witness :
  ∃ st', executeMove (stateOf castleBoard white) homeKing 6 3 0 (kingsideMove homeKing)
         = Done st' ∧
         boardInvariant (State.boardState st').
Proof.
  apply (proj2 (proj2 (proj2 board_invariant_preserved))
           (stateOf castleBoard white) homeKing (kingsideMove homeKing)).
  - apply castleBoard_ok.
  - reflexivity.
  - in_moves.
Defined.

Lemma promotionBoard_ok : boardInvariant promotionBoard.
Proof. check_board. Qed.

(** A pawn move onto the layer [promotionRank] names is held back, and
    [handlePromotion] commits it with the bookkeeping of [afterCapture]. *)
Lemma promotion_steps st piece m :
  boardInvariant (State.boardState st) →
  cell (State.boardState st) (Piece.x piece) (Piece.y piece) (Piece.z piece)
  = Some piece →
  Piece.type piece = P →
  m ∈ calculateValidMoves piece (State.boardState st) →
  Move.z m = promotionRank (Piece.color piece) →
  let b := State.boardState st in
  let st1 := pending st (PromotionData.mk piece (Move.x m) (Move.y m) (Move.z m)) in
  executeMove st piece (Move.x m) (Move.y m) (Move.z m) m = Done st1 ∧
  notOwn (Piece.color piece) (cell b (Move.x m) (Move.y m) (Move.z m)) ∧
  ∀ promotedTo, ∃ st2,
    handlePromotion st1 promotedTo = Done st2 ∧
    cell (State.boardState st2) (Piece.x piece) (Piece.y piece) (Piece.z piece) = None ∧
    cell (State.boardState st2) (Move.x m) (Move.y m) (Move.z m)
    = Some (Piece.mk promotedTo (Piece.color piece)
                     (Move.x m) (Move.y m) (Move.z m) true) ∧
    (∀ x y z, (x, y, z) ≠ (Piece.x piece, Piece.y piece, Piece.z piece) →
              (x, y, z) ≠ (Move.x m, Move.y m, Move.z m) →
              cell (State.boardState st2) x y z = cell b x y z) ∧
    (State.gameStatus st2, State.capturedPieces st2)
    = afterCapture st (Piece.color piece) (cell b (Move.x m) (Move.y m) (Move.z m)) ∧
    State.turn st2 = flipTurn (State.turn st) ∧
    State.promotionData st2 = None.
Proof.
  intros (Hc & Hp & _) Hon Hty Hm Hz b st1.
  split; [unfold executeMove; by rewrite !bool_decide_eq_true_2|].
  assert (plainMove b piece m) as (_ & Htb & Hown & _ & Hne).
  { unfold calculateValidMoves in Hm. rewrite Hty in Hm. by apply pawnMoves_plain. }
  split; [done|].
  pose proof (cell_Some_bounds _ _ _ _ _ Hc Hon) as Hob.
  intros promotedTo. unfold handlePromotion, st1. cbn.
  destruct (writeCell_Done b _ _ _ None Hc Hob) as [b1 Hw1]. fold b. rewrite Hw1. cbn.
  pose proof (writeCell_cubic _ _ _ _ _ _ Hc Hw1) as Hc1.
  rewrite (readCell_Done _ _ _ _ Hc1 Htb). cbn.
  assert (cell b1 (Move.x m) (Move.y m) (Move.z m)
          = cell b (Move.x m) (Move.y m) (Move.z m)) as ->.
  { rewrite (cell_writeCell _ _ _ _ _ _ _ _ _ Hw1).
    by rewrite bool_decide_eq_false_2. }
  change (afterCapture (pending st _) (Piece.color piece)
            (cell b (Move.x m) (Move.y m) (Move.z m)))
    with (afterCapture st (Piece.color piece)
            (cell b (Move.x m) (Move.y m) (Move.z m))).
  destruct (afterCapture st _ _) as [status captured].
  destruct (writeCell_Done b1 _ _ _
              (Some (Piece.mk promotedTo (Piece.color piece)
                       (Move.x m) (Move.y m) (Move.z m) true)) Hc1 Htb) as [b2 Hw2].
  rewrite Hw2. cbn. eexists. split; [done|]. cbn.
  repeat split.
  + rewrite (cell_writeCell _ _ _ _ _ _ _ _ _ Hw2).
    rewrite bool_decide_eq_false_2 by congruence.
    rewrite (cell_writeCell _ _ _ _ _ _ _ _ _ Hw1).
    by rewrite bool_decide_eq_true_2.
  + rewrite (cell_writeCell _ _ _ _ _ _ _ _ _ Hw2).
    by rewrite bool_decide_eq_true_2.
  + intros x y z Hno Hnd.
    rewrite (cell_writeCell _ _ _ _ _ _ _ _ _ Hw2).
    rewrite bool_decide_eq_false_2 by done.
    rewrite (cell_writeCell _ _ _ _ _ _ _ _ _ Hw1).
    by rewrite bool_decide_eq_false_2.
Qed.

Lemma blackPromotionBoard_ok : boardInvariant blackPromotionBoard.
Proof. check_board. Qed.

(** C6. A pawn move onto the opponent's back layer, [z = 7] for a white
    pawn and [z = 0] for a black one, is not committed by [executeMove]: the
    outcome is the state as it was, with the promotion pending; board, side
    to move, captured lists and status are untouched and the pawn is still
    on its cell. [handlePromotion] then commits for whatever kind it is
    given: the pawn's cell is cleared, a piece of that kind and of the
    pawn's color stands on the destination with [hasMoved = true], no other
    cell changes, and the side to move flips. A piece found on the
    destination is of the other color and is appended to the captured list
    of that color, the other list staying as it was; the capture of a king
    sets the status to the win of the pawn's color; with no piece there,
    lists and status stay as they were. *)
Theorem promotion_two_phase :
  (∀ st piece targetX targetY targetZ move,
     Piece.type piece = P →
     (Piece.color piece = white ∧ targetZ = 7) ∨
     (Piece.color piece = black ∧ targetZ = 0) →
     let st1 := pending st (PromotionData.mk piece targetX targetY targetZ) in
     executeMove st piece targetX targetY targetZ move = Done st1 ∧
     State.promotionData st1 = Some (PromotionData.mk piece targetX targetY targetZ) ∧
     State.boardState st1 = State.boardState st ∧
     State.turn st1 = State.turn st ∧
     State.capturedPieces st1 = State.capturedPieces st ∧
     State.gameStatus st1 = State.gameStatus st) ∧
  (∀ st piece m,
     boardInvariant (State.boardState st) →
     cell (State.boardState st) (Piece.x piece) (Piece.y piece) (Piece.z piece)
     = Some piece →
     Piece.type piece = P →
     m ∈ calculateValidMoves piece (State.boardState st) →
     (Piece.color piece = white ∧ Move.z m = 7) ∨
     (Piece.color piece = black ∧ Move.z m = 0) →
     let b := State.boardState st in
     let old := State.capturedPieces st in
     let st1 := pending st (PromotionData.mk piece (Move.x m) (Move.y m) (Move.z m)) in
     executeMove st piece (Move.x m) (Move.y m) (Move.z m) m = Done st1 ∧
     cell (State.boardState st1) (Piece.x piece) (Piece.y piece) (Piece.z piece)
     = Some piece ∧
     ∀ promotedTo, ∃ st2,
       handlePromotion st1 promotedTo = Done st2 ∧
       cell (State.boardState st2) (Piece.x piece) (Piece.y piece) (Piece.z piece) = None ∧
       cell (State.boardState st2) (Move.x m) (Move.y m) (Move.z m)
       = Some (Piece.mk promotedTo (Piece.color piece)
                        (Move.x m) (Move.y m) (Move.z m) true) ∧
       (∀ x y z, (x, y, z) ≠ (Piece.x piece, Piece.y piece, Piece.z piece) →
                 (x, y, z) ≠ (Move.x m, Move.y m, Move.z m) →
                 cell (State.boardState st2) x y z = cell b x y z) ∧
       (cell b (Move.x m) (Move.y m) (Move.z m) = None →
          State.capturedPieces st2 = old ∧
          State.gameStatus st2 = State.gameStatus st) ∧
       (∀ t, cell b (Move.x m) (Move.y m) (Move.z m) = Some t →
          Piece.color t ≠ Piece.color piece ∧
          (Piece.color piece = white →
             Captured.black (State.capturedPieces st2) = Captured.black old ++ [t] ∧
             Captured.white (State.capturedPieces st2) = Captured.white old) ∧
          (Piece.color piece = black →
             Captured.white (State.capturedPieces st2) = Captured.white old ++ [t] ∧
             Captured.black (State.capturedPieces st2) = Captured.black old) ∧
          (Piece.type t ≠ K → State.gameStatus st2 = State.gameStatus st) ∧
          (Piece.type t = K → Piece.color piece = white →
             State.gameStatus st2 = "WHITE WINS!"%string) ∧
          (Piece.type t = K → Piece.color piece = black →
             State.gameStatus st2 = "BLACK WINS!"%string)) ∧
       (State.turn st = white → State.turn st2 = black) ∧
       (State.turn st = black → State.turn st2 = white) ∧
       State.promotionData st2 = None).
Proof.
  assert (∀ color z, (color = white ∧ z = 7) ∨ (color = black ∧ z = 0) →
                     z = promotionRank color) as Hlayer.
  { by intros color z [[-> ->]|[-> ->]]. }
  split.
  - intros st piece tx ty tz move Hty Hz%Hlayer st1.
    split; [unfold executeMove; by rewrite !bool_decide_eq_true_2|done].
  - intros st piece m Hinv Hon Hty Hm Hz%Hlayer b old st1.
    destruct (promotion_steps st piece m Hinv Hon Hty Hm Hz) as (Hrun & Hown & Hcommit).
    split; [exact Hrun|]. split; [exact Hon|].
    intros promotedTo.
    destruct (Hcommit promotedTo)
      as (st2 & Hrun2 & Horigin & Hdest & Hframe & Hcap & Hturn & Hpd).
    exists st2. split; [exact Hrun2|]. split; [exact Horigin|]. split; [exact Hdest|].
    split; [exact Hframe|]. fold b in Hcap, Hown.
    split; [|split; [|split; [|split; [|exact Hpd]]]].
    + intros Hnone. rewrite Hnone in Hcap. cbn in Hcap. by simplify_eq.
    + intros t Ht. rewrite Ht in Hcap, Hown. cbn in Hcap, Hown.
      split; [exact Hown|].
      injection Hcap as -> ->. subst old.
      split; [by intros ->|]. split; [by intros ->|].
      split; [intros Hk; by rewrite bool_decide_eq_false_2|].
      split; intros Hk ->; by rewrite bool_decide_eq_true_2.
    + intros Hw. rewrite Hw in Hturn. exact Hturn.
    + intros Hb. rewrite Hb in Hturn. exact Hturn.
Qed.

Lemma promotion_two_phase_witness :
  (∃ st2,
     handlePromotion
       (pending (stateOf promotionBoard white) (PromotionData.mk lastStepPawn 3 2 7))
       Q = Done st2 ∧
     cell (State.boardState st2) 2 2 6 = None ∧
     cell (State.boardState st2) 3 2 7 = Some (Piece.mk Q white 3 2 7 true) ∧
     Captured.black (State.capturedPieces st2) = [Piece.mk N black 3 2 7 false] ∧
     Captured.white (State.capturedPieces st2) = [] ∧
     State.gameStatus st2 = "active"%string ∧
     State.turn st2 = black) ∧
  (∃ st2,
     handlePromotion
       (pending (stateOf blackPromotionBoard black)
                (PromotionData.mk blackLastStepPawn 4 5 0))
       R = Done st2 ∧
     cell (State.boardState st2) 5 5 1 = None ∧
     cell (State.boardState st2) 4 5 0 = Some (Piece.mk R black 4 5 0 true) ∧
     Captured.white (State.capturedPieces st2) = [Piece.mk K white 4 5 0 true] ∧
     Captured.black (State.capturedPieces st2) = [] ∧
     State.gameStatus st2 = "BLACK WINS!"%string ∧
     State.turn st2 = white).
Proof.
  split.
  - destruct (proj2 promotion_two_phase (stateOf promotionBoard white) lastStepPawn
                (Move.mk 3 2 7 true None)) as (_ & _ & Hcommit).
    + apply promotionBoard_ok.
    + reflexivity.
    + reflexivity.
    + in_moves.
    + left. split; reflexivity.
    + destruct (Hcommit Q)
        as (st2 & Hrun & Horigin & Hdest & _ & _ & Hcap & Hturn & _ & _).
      destruct (Hcap (Piece.mk N black 3 2 7 false) eq_refl)
        as (_ & Hlists & _ & Hstatus & _).
      exists st2. split; [exact Hrun|]. split; [exact Horigin|]. split; [exact Hdest|].
      split; [exact (proj1 (Hlists eq_refl))|]. split; [exact (proj2 (Hlists eq_refl))|].
      split; [apply Hstatus; discriminate|]. exact (Hturn eq_refl).
  - destruct (proj2 promotion_two_phase (stateOf blackPromotionBoard black)
                blackLastStepPawn (Move.mk 4 5 0 true None)) as (_ & _ & Hcommit).
    + apply blackPromotionBoard_ok.
    + reflexivity.
    + reflexivity.
    + in_moves.
    + right. split; reflexivity.
    + destruct (Hcommit R)
        as (st2 & Hrun & Horigin & Hdest & _ & _ & Hcap & _ & Hturn & _).
      destruct (Hcap (Piece.mk K white 4 5 0 true) eq_refl)
        as (_ & _ & Hlists & _ & _ & Hstatus).
      exists st2. split; [exact Hrun|]. split; [exact Horigin|]. split; [exact Hdest|].
      split; [exact (proj1 (Hlists eq_refl))|]. split; [exact (proj2 (Hlists eq_refl))|].
      split; [exact (Hstatus eq_refl eq_refl)|]. exact (Hturn eq_refl).
Defined.

(** C10. [handlePromotion] does not look at the kind it is given: for a
    pending promotion and each of the six kinds, [Pawn] and [King] included,
    it commits a piece of that very kind on the destination. Only the list
    of buttons of [PromotionModal] keeps the choice to the four kinds
    [Q], [R], [B], [N]. *)
Theorem promotion_kind_unchecked (st : State.t) (pd : PromotionData.t)
    (promotedTo : PieceType) :
  cubic (State.boardState st) →
  State.promotionData st = Some pd →
  isWithinBounds (Piece.x (PromotionData.piece pd)) (Piece.y (PromotionData.piece pd))
                 (Piece.z (PromotionData.piece pd)) = true →
  isWithinBounds (PromotionData.x pd) (PromotionData.y pd) (PromotionData.z pd) = true →
  (∃ st', handlePromotion st promotedTo = Done st' ∧
     cell (State.boardState st') (PromotionData.x pd) (PromotionData.y pd)
          (PromotionData.z pd)
     = Some (Piece.mk promotedTo (Piece.color (PromotionData.piece pd))
               (PromotionData.x pd) (PromotionData.y pd) (PromotionData.z pd) true)) ∧
  promotionPieces = [Q; R; B; N] ∧ (P ∉ promotionPieces) ∧ (K ∉ promotionPieces).
Proof.
  intros Hc Hpd Hob Htb. split; [by apply handlePromotion_Done|].
  split; [done|]. unfold promotionPieces.
  split; intros H; repeat (apply elem_of_cons in H as [H|H]; [discriminate H|]);
    by apply elem_of_nil in H.
Qed.

Lemma promotion_kind_unchecked_witness :
  (∃ st', handlePromotion
            (pending (stateOf promotionBoard white) (PromotionData.mk lastStepPawn 2 2 7))
            K = Done st' ∧
          cell (State.boardState st') 2 2 7 = Some (Piece.mk K white 2 2 7 true)) ∧
  (∃ st', handlePromotion
            (pending (stateOf promotionBoard white) (PromotionData.mk lastStepPawn 2 2 7))
            P = Done st' ∧
          cell (State.boardState st') 2 2 7 = Some (Piece.mk P white 2 2 7 true)).
Proof.
  assert (cubic promotionBoard) as Hc by check_cubic.
  split.
  - exact (proj1 (promotion_kind_unchecked
                    (pending (stateOf promotionBoard white)
                             (PromotionData.mk lastStepPawn 2 2 7))
                    (PromotionData.mk lastStepPawn 2 2 7) K Hc eq_refl eq_refl eq_refl)).
  - exact (proj1 (promotion_kind_unchecked
                    (pending (stateOf promotionBoard white)
                             (PromotionData.mk lastStepPawn 2 2 7))
                    (PromotionData.mk lastStepPawn 2 2 7) P Hc eq_refl eq_refl eq_refl)).
Defined.

(** ** Boards are equal when their cells are *)

Lemma at_of_nat {A : Type} (l : list A) (i : nat) : at_ l (Z.of_nat i) = l !! i.
Proof. unfold at_. rewrite bool_decide_eq_true_2 by lia. by rewrite Nat2Z.id. Qed.

Lemma board_ext (b b' : BoardState) :
  cubic b → cubic b' → (∀ x y z, cell b x y z = cell b' x y z) → b = b'.
Proof.
  intros [Hl Hall] [Hl' Hall'] Hcell.
  apply (list_eq_same_length _ _ (Z.to_nat SIZE)); [done..|].
  intros i col col' _ Hi Hi'.
  destruct (Forall_lookup_1 _ _ _ _ Hall Hi) as [Hlc Hrows].
  destruct (Forall_lookup_1 _ _ _ _ Hall' Hi') as [Hlc' Hrows'].
  apply (list_eq_same_length _ _ (Z.to_nat SIZE)); [done..|].
  intros j row row' _ Hj Hj'.
  pose proof (Forall_lookup_1 _ _ _ _ Hrows Hj) as Hlr.
  pose proof (Forall_lookup_1 _ _ _ _ Hrows' Hj') as Hlr'.
  apply (list_eq_same_length _ _ (Z.to_nat SIZE)); [done..|].
  intros k c c' _ Hk Hk'.
  specialize (Hcell (Z.of_nat i) (Z.of_nat j) (Z.of_nat k)).
  unfold cell in Hcell. rewrite !at_of_nat, Hi, Hi' in Hcell.
  rewrite !at_of_nat, Hj, Hj' in Hcell. by rewrite !at_of_nat, Hk, Hk' in Hcell.
Qed.

Lemma pawnMoves_z b color sx sy sz m :
  m ∈ pawnMoves b color sx sy sz →
  isWithinBounds (Move.x m) (Move.y m) (Move.z m) = true ∧
  (Move.z m = sz + zDirOf color ∨ Move.z m = sz + zDirOf color * 2).
Proof.
  unfold pawnMoves. rewrite elem_of_app. intros [Hf|Hc].
  - destruct (isWithinBounds _ _ (sz + zDirOf color)) eqn:Hb1;
      [|by apply elem_of_nil in Hf].
    destruct (cell b _ _ (sz + zDirOf color)) as [t|] eqn:Hc1;
      [by apply elem_of_nil in Hf|].
    cbn [truthy negb andb] in Hf. apply elem_of_cons in Hf as [->|Hf].
    + cbn. by split; [|left].
    + case_bool_decide; [|by apply elem_of_nil in Hf].
      destruct (isWithinBounds _ _ (sz + zDirOf color * 2)) eqn:Hb2;
        [|by apply elem_of_nil in Hf].
      destruct (cell b _ _ (sz + zDirOf color * 2)) as [t|] eqn:Hc2;
        [by apply elem_of_nil in Hf|].
      cbn [truthy negb andb] in Hf. apply list_elem_of_singleton in Hf as ->.
      cbn. by split; [|right].
  - apply list_elem_of_In, in_flat_map in Hc as ([[dx dy] dz] & Hd & Hm).
    apply list_elem_of_In, in_pawnCapture in Hm as (Hb & _ & ->).
    apply in_map_iff in Hd as ([dx' dy'] & Heq & _). simplify_eq.
    cbn. by split; [|left].
Qed.

(** A pawn that has a move does not stand on its promotion layer. *)
Lemma pawn_not_on_last_layer piece b m :
  Piece.type piece = P → m ∈ calculateValidMoves piece b →
  Piece.z piece ≠ promotionRank (Piece.color piece).
Proof.
  intros Hty Hm. unfold calculateValidMoves in Hm. rewrite Hty in Hm.
  apply pawnMoves_z in Hm as [Hb%isWithinBounds_true Hz]. unfold SIZE in Hb.
  destruct (Piece.color piece); cbn in *; lia.
Qed.

(** C8. Round trip of the applier. A generated move of a piece from its
    cell A to a cell B that is no castle, no capture and no promotion is
    committed by [executeMove]; moving the piece back from B to A with
    [executeMove] then gives the board one started from, cell for cell,
    but for the [hasMoved] flag of the piece, which is [true]. The side to
    move, the captured lists and the game status are as before. *)
Theorem executeMove_round_trip (st : State.t) (piece : Piece.t) (m : Move.t) :
  boardInvariant (State.boardState st) →
  cell (State.boardState st) (Piece.x piece) (Piece.y piece) (Piece.z piece)
  = Some piece →
  m ∈ calculateValidMoves piece (State.boardState st) →
  Move.castle m = None →
  Move.capture m = false →
  ¬ (Piece.type piece = P ∧ Move.z m = promotionRank (Piece.color piece)) →
  let back := Move.mk (Piece.x piece) (Piece.y piece) (Piece.z piece) false None in
  let settled := Piece.mk (Piece.type piece) (Piece.color piece)
                          (Piece.x piece) (Piece.y piece) (Piece.z piece) true in
  ∃ st1 st2,
    executeMove st piece (Move.x m) (Move.y m) (Move.z m) m = Done st1 ∧
    executeMove st1 (movedTo piece (Move.x m) (Move.y m) (Move.z m))
                (Piece.x piece) (Piece.y piece) (Piece.z piece) back = Done st2 ∧
    writeCell (State.boardState st) (Piece.x piece) (Piece.y piece) (Piece.z piece)
              (Some settled) = Done (State.boardState st2) ∧
    (Piece.hasMoved piece = true → State.boardState st2 = State.boardState st) ∧
    State.turn st2 = State.turn st ∧
    State.capturedPieces st2 = State.capturedPieces st ∧
    State.gameStatus st2 = State.gameStatus st.
Proof.
  intros (Hc & Hp & _) Hon Hm Hcastle Hcap Hnopromo back settled.
  set (b := State.boardState st) in *.
  pose proof (cell_Some_bounds _ _ _ _ _ Hc Hon) as Hob.
  assert (plainMove b piece m) as (_ & Htb & _ & Hflag & Hne).
  { apply calculateValidMoves_cases in Hm as [?|Hcm]; [done|].
    apply castleMoves_king in Hcm as [_ [side Hside]]. congruence. }
  rewrite Hcap in Hflag.
  assert (cell b (Move.x m) (Move.y m) (Move.z m) = None) as Hempty.
  { by destruct (cell b (Move.x m) (Move.y m) (Move.z m)). }
  assert (bool_decide (Piece.type piece = P)
          && bool_decide (Move.z m = promotionRank (Piece.color piece)) = false) as Hgo.
  { apply andb_false_iff. rewrite !bool_decide_eq_false.
    destruct (decide (Piece.type piece = P)) as [Hty|]; [right|by left].
    intros Hz. by apply Hnopromo. }
  assert (bool_decide (Piece.type piece = P)
          && bool_decide (Piece.z piece = promotionRank (Piece.color piece)) = false)
    as Hgo'.
  { apply andb_false_iff. rewrite !bool_decide_eq_false.
    destruct (decide (Piece.type piece = P)) as [Hty|]; [right|by left].
    by eapply pawn_not_on_last_layer. }
  destruct (writeCell_Done b _ _ _ None Hc Hob) as [b1 Hw1].
  pose proof (writeCell_cubic _ _ _ _ _ _ Hc Hw1) as Hc1.
  destruct (writeCell_Done b1 _ _ _
              (Some (movedTo piece (Move.x m) (Move.y m) (Move.z m))) Hc1 Htb)
    as [b2 Hw2].
  pose proof (writeCell_cubic _ _ _ _ _ _ Hc1 Hw2) as Hc2.
  destruct (writeCell_Done b2 _ _ _ None Hc2 Htb) as [b3 Hw3].
  pose proof (writeCell_cubic _ _ _ _ _ _ Hc2 Hw3) as Hc3.
  destruct (writeCell_Done b3 _ _ _ (Some settled) Hc3 Hob) as [b4 Hw4].
  pose proof (writeCell_cubic _ _ _ _ _ _ Hc3 Hw4) as Hc4.
  destruct (writeCell_Done b _ _ _ (Some settled) Hc Hob) as [bf Hwf].
  pose proof (writeCell_cubic _ _ _ _ _ _ Hc Hwf) as Hcf.
  assert (cell b2 (Piece.x piece) (Piece.y piece) (Piece.z piece) = None) as Hvacant.
  { rewrite (cell_writeCell _ _ _ _ _ _ _ _ _ Hw2).
    rewrite bool_decide_eq_false_2 by congruence.
    rewrite (cell_writeCell _ _ _ _ _ _ _ _ _ Hw1). by rewrite bool_decide_eq_true_2. }
  assert (b4 = bf) as Hsame.
  { apply board_ext; [done..|]. intros x y z.
    rewrite (cell_writeCell _ _ _ _ _ _ _ _ _ Hw4), (cell_writeCell _ _ _ _ _ _ _ _ _ Hwf).
    destruct (decide ((x, y, z) = (Piece.x piece, Piece.y piece, Piece.z piece)))
      as [HA|HA]; [by rewrite !bool_decide_eq_true_2|].
    rewrite !bool_decide_eq_false_2 by done.
    rewrite (cell_writeCell _ _ _ _ _ _ _ _ _ Hw3).
    destruct (decide ((x, y, z) = (Move.x m, Move.y m, Move.z m))) as [HB|HB].
    { rewrite bool_decide_eq_true_2 by done. by simplify_eq. }
    rewrite bool_decide_eq_false_2 by done.
    rewrite (cell_writeCell _ _ _ _ _ _ _ _ _ Hw2).
    rewrite bool_decide_eq_false_2 by done.
    rewrite (cell_writeCell _ _ _ _ _ _ _ _ _ Hw1).
    by rewrite bool_decide_eq_false_2. }
  eexists _, _. split.
  { unfold executeMove. rewrite Hgo. fold b. rewrite (readCell_Done _ _ _ _ Hc Htb). cbn.
    rewrite Hempty. cbn. rewrite Hw1. cbn. rewrite Hcastle, Hw2. cbn. reflexivity. }
  split.
  { unfold executeMove. cbn [movedTo Piece.type Piece.color Piece.x Piece.y Piece.z
                              State.boardState Move.castle back].
    rewrite Hgo'. rewrite (readCell_Done _ _ _ _ Hc2 Hob). cbn.
    rewrite Hvacant. cbn. rewrite Hw3. cbn.
    change (movedTo (movedTo piece (Move.x m) (Move.y m) (Move.z m))
              (Piece.x piece) (Piece.y piece) (Piece.z piece)) with settled.
    rewrite Hw4. cbn. reflexivity. }
  cbn. rewrite Hsame. split; [done|]. split.
  - intros Hmoved. apply board_ext; [done..|]. intros x y z.
    rewrite (cell_writeCell _ _ _ _ _ _ _ _ _ Hwf).
    destruct (decide ((x, y, z) = (Piece.x piece, Piece.y piece, Piece.z piece)))
      as [HA|HA]; [|by rewrite bool_decide_eq_false_2].
    rewrite bool_decide_eq_true_2 by done. simplify_eq. rewrite Hon. f_equal.
    destruct piece; cbn in *. unfold settled. cbn. by rewrite Hmoved.
  - by destruct (State.turn st).
Qed.

Lemma executeMove_round_trip_witness :
  ∃ st1 st2,
    executeMove (stateOf pinBoard white) pinnedRook 1 3 0 pinMove = Done st1 ∧
    executeMove st1 (movedTo pinnedRook 1 3 0) 0 3 0 (Move.mk 0 3 0 false None)
    = Done st2 ∧
    State.boardState st2 = pinBoard.
Proof.
  destruct (executeMove_round_trip (stateOf pinBoard white) pinnedRook pinMove)
    as (st1 & st2 & H1 & H2 & _ & Hsame & _).
  - apply pinBoard_ok.
  - reflexivity.
  - in_moves.
  - reflexivity.
  - reflexivity.
  - intros [Hty _]. discriminate Hty.
  - exists st1, st2. split; [exact H1|]. split; [exact H2|]. exact (Hsame eq_refl).
Defined.

(** ** Attack detection against move generation *)

Lemma existsb_elem_of {A : Type} (f : A → bool) (l : list A) :
  existsb f l = true ↔ ∃ a, a ∈ l ∧ f a = true.
Proof.
  rewrite existsb_exists. split; intros (a & Ha & Hf); exists a;
    (split; [by apply list_elem_of_In|done]).
Qed.

Lemma clearTo_reverse b x y z dx dy dz k :
  clearTo b x y z (dx, dy, dz) 1 k →
  clearTo b (x + dx * k) (y + dy * k) (z + dz * k) (- dx, - dy, - dz) 1 k.
Proof.
  intros H j Hj. cbn [fst snd]. specialize (H (k - j)). cbn [fst snd] in H.
  replace (x + dx * k + - dx * j) with (x + dx * (k - j)) by ring.
  replace (y + dy * k + - dy * j) with (y + dy * (k - j)) by ring.
  replace (z + dz * k + - dz * j) with (z + dz * (k - j)) by ring.
  apply H. lia.
Qed.

Lemma all3DDirections_opp dx dy dz :
  (dx, dy, dz) ∈ all3DDirections → (- dx, - dy, - dz) ∈ all3DDirections.
Proof. rewrite !all3DDirections_spec. lia. Qed.

Lemma dirAllowed_opp type dx dy dz :
  dirAllowed type (dx, dy, dz) → dirAllowed type (- dx, - dy, - dz).
Proof. destruct type; cbn [dirAllowed]; by rewrite ?absSum_opp. Qed.

Lemma rayThreat_spec piece d k :
  rayThreat piece d k = true ↔
  dirAllowed (Piece.type piece) d ∧ (Piece.type piece = K → k = 1).
Proof.
  unfold rayThreat, isOrthogonal, isDiagonal.
  destruct (Piece.type piece); cbn [dirAllowed];
    rewrite ?bool_decide_eq_true; naive_solver.
Qed.

Lemma maxDistance_steps type k :
  1 ≤ k → k ≤ SIZE - 1 → (type = K → k = 1) →
  1 ≤ k < 1 + Z.of_nat (Z.to_nat (maxDistance type)).
Proof.
  intros H1 H2 HK. rewrite Z2Nat.id by (by destruct type).
  destruct type; unfold maxDistance, SIZE in *; try lia. specialize (HK eq_refl). lia.
Qed.

Lemma maxDistance_king k :
  1 ≤ k < 1 + Z.of_nat (Z.to_nat (maxDistance K)) → k = 1.
Proof. rewrite Z2Nat.id by done. unfold maxDistance. lia. Qed.

Section Attacks.
Variable b : BoardState.
Hypothesis Hinv : boardInvariant b.
Variables (attackerColor : Color) (x y z : Z).
Hypothesis Hin : isWithinBounds x y z = true.
Hypothesis Hfree : notOwn attackerColor (cell b x y z).

Lemma pawnAt_true cx cy cz :
  pawnAt b attackerColor cx cy cz = true ↔
  ∃ piece, cell b cx cy cz = Some piece ∧
           Piece.type piece = P ∧ Piece.color piece = attackerColor.
Proof.
  unfold pawnAt. destruct (cell b cx cy cz) as [piece|] eqn:Hc.
  - rewrite (cell_Some_bounds _ _ _ _ _ (proj1 Hinv) Hc). cbn.
    rewrite andb_true_iff, !bool_decide_eq_true. naive_solver.
  - rewrite andb_false_r. naive_solver.
Qed.

Lemma knightAt_true cx cy cz :
  knightAt b attackerColor cx cy cz = true ↔
  ∃ piece, cell b cx cy cz = Some piece ∧
           Piece.type piece = N ∧ Piece.color piece = attackerColor.
Proof.
  unfold knightAt. destruct (cell b cx cy cz) as [piece|] eqn:Hc.
  - rewrite (cell_Some_bounds _ _ _ _ _ (proj1 Hinv) Hc). cbn.
    rewrite andb_true_iff, !bool_decide_eq_true. naive_solver.
  - rewrite andb_false_r. naive_solver.
Qed.

Lemma pawn_part :
  existsb (fun '(dx, dy) =>
             pawnAt b attackerColor (x - dx) (y - dy) (z - zDirOf attackerColor))
          pawnCaptureDirections = true ↔ pawnThreat b attackerColor x y z.
Proof.
  rewrite existsb_elem_of. unfold pawnThreat. split.
  - intros ([dx dy] & Hd & (piece & Hp)%pawnAt_true). by exists dx, dy, piece.
  - intros (dx & dy & piece & Hd & Hp). exists (dx, dy). split; [done|].
    apply pawnAt_true. by exists piece.
Qed.

(** The knight test of [isSquareAttacked] is the knight's own move. *)
Lemma knight_part :
  existsb (fun '(dx, dy, dz) => knightAt b attackerColor (x - dx) (y - dy) (z - dz))
          knightMoves = true ↔
  ∃ px py pz piece m,
    cell b px py pz = Some piece ∧
    Piece.color piece = attackerColor ∧ Piece.type piece = N ∧
    m ∈ calculateValidMoves piece b ∧
    (Move.x m, Move.y m, Move.z m) = (x, y, z).
Proof.
  destruct Hinv as (Hc & Hp & _). rewrite existsb_elem_of. split.
  - intros ([[dx dy] dz] & Hd & (piece & Hcell & Hty & Hcol)%knightAt_true).
    destruct (Hp _ _ _ _ Hcell) as (Hx & Hy & Hz).
    exists (x - dx), (y - dy), (z - dz), piece, (plainTo b x y z).
    split; [done|]. split; [done|]. split; [done|]. split; [|done].
    unfold calculateValidMoves. rewrite Hty.
    apply list_elem_of_In, in_flat_map. exists (dx, dy, dz).
    split; [by apply list_elem_of_In|].
    apply list_elem_of_In, in_knightStep. rewrite Hx, Hy, Hz, Hcol.
    replace (x - dx + dx) with x by lia. replace (y - dy + dy) with y by lia.
    replace (z - dz + dz) with z by lia. done.
  - intros (px & py & pz & piece & m & Hcell & Hcol & Hty & Hm & Hdest).
    destruct (Hp _ _ _ _ Hcell) as (Hx & Hy & Hz).
    unfold calculateValidMoves in Hm. rewrite Hty in Hm.
    apply list_elem_of_In, in_flat_map in Hm as ([[dx dy] dz] & Hd & Hm).
    apply list_elem_of_In, in_knightStep in Hm as (_ & _ & ->).
    cbn in Hdest. exists (dx, dy, dz). split; [by apply list_elem_of_In|].
    apply knightAt_true. exists piece. split; [|done].
    rewrite <- Hcell. f_equal; simplify_eq; lia.
Qed.

(** The ray test of [isSquareAttacked] is a sliding move of the piece the
    ray meets, taken the other way. *)
Lemma ray_part :
  existsb (fun d => rayAttacked b attackerColor x y z d (seqZ 1 (SIZE - 1)))
          all3DDirections = true ↔
  ∃ px py pz piece m,
    cell b px py pz = Some piece ∧
    Piece.color piece = attackerColor ∧
    m ∈ slidingMoves piece b ∧
    (Move.x m, Move.y m, Move.z m) = (x, y, z).
Proof.
  destruct Hinv as (Hc & Hp & _). rewrite existsb_elem_of.
  change (SIZE - 1) with (Z.of_nat 7). split.
  - intros ([[dx dy] dz] & Hd & Hray). apply rayAttacked_true in Hray
      as (k & piece & Hk & Hclear & Hb & Hcell & Hcol & [Hal Hking]%rayThreat_spec).
    cbn [fst snd] in *.
    destruct (Hp _ _ _ _ Hcell) as (Hx & Hy & Hz).
    exists (x + dx * k), (y + dy * k), (z + dz * k), piece,
           (rayMove b (Piece.x piece) (Piece.y piece) (Piece.z piece)
                    (- dx, - dy, - dz) k).
    split; [done|]. split; [done|]. split.
    + apply in_slidingMoves. exists (- dx), (- dy), (- dz), k.
      split; [by apply all3DDirections_opp|].
      split; [by apply dirAllowed_opp|].
      split; [apply maxDistance_steps; [lia|unfold SIZE; lia|done]|].
      rewrite Hx, Hy, Hz.
      split; [by apply clearTo_reverse|].
      replace (x + dx * k + - dx * k) with x by ring.
      replace (y + dy * k + - dy * k) with y by ring.
      replace (z + dz * k + - dz * k) with z by ring.
      rewrite Hcol. done.
    + unfold rayMove. cbn. rewrite Hx, Hy, Hz. f_equal; [f_equal|]; ring.
  - intros (px & py & pz & piece & m & Hcell & Hcol & Hm & Hdest).
    destruct (Hp _ _ _ _ Hcell) as (Hx & Hy & Hz).
    pose proof (cell_Some_bounds _ _ _ _ _ Hc Hcell) as Hpb.
    apply in_slidingMoves in Hm
      as (dx & dy & dz & k & Hd & Hal & Hk & Hclear & Hb & Hown & ->).
    unfold rayMove in Hdest. cbn in Hdest. rewrite Hx, Hy, Hz in *.
    injection Hdest as Ex Ey Ez.
    exists (- dx, - dy, - dz). split; [by apply all3DDirections_opp|].
    apply rayAttacked_true. exists k, piece. cbn [fst snd].
    split. { split; [lia|]. pose proof (ray_length _ _ _ _ _ _ _ Hd (proj1 Hk) Hpb Hb).
             unfold SIZE in *. lia. }
    apply clearTo_reverse in Hclear. rewrite Ex, Ey, Ez in Hclear.
    split; [done|].
    replace (x + - dx * k) with px by lia.
    replace (y + - dy * k) with py by lia.
    replace (z + - dz * k) with pz by lia.
    split; [done|]. split; [done|]. split; [done|].
    apply rayThreat_spec. split; [by apply dirAllowed_opp|].
    intros HK. rewrite HK in Hk. by apply maxDistance_king.
Qed.

Lemma landsOn_split :
  landsOn b attackerColor x y z ↔
  (∃ px py pz piece m,
     cell b px py pz = Some piece ∧
     Piece.color piece = attackerColor ∧ Piece.type piece = N ∧
     m ∈ calculateValidMoves piece b ∧
     (Move.x m, Move.y m, Move.z m) = (x, y, z)) ∨
  (∃ px py pz piece m,
     cell b px py pz = Some piece ∧
     Piece.color piece = attackerColor ∧
     m ∈ slidingMoves piece b ∧
     (Move.x m, Move.y m, Move.z m) = (x, y, z)).
Proof.
  unfold landsOn. split.
  - intros (px & py & pz & piece & m & Hcell & Hcol & Hty & Hm & Hplain & Hdest).
    destruct (decide (Piece.type piece = N)) as [HN|HN].
    + left. by exists px, py, pz, piece, m.
    + right. exists px, py, pz, piece, m. split; [done|]. split; [done|].
      split; [|done]. unfold calculateValidMoves in Hm.
      destruct (Piece.type piece); try done;
        (apply elem_of_app in Hm as [?|Hcm]; [done|];
         apply castleMoves_king in Hcm as [_ [side Hside]]; congruence).
  - intros [(px & py & pz & piece & m & Hcell & Hcol & Hty & Hm & Hdest)
           |(px & py & pz & piece & m & Hcell & Hcol & Hm & Hdest)].
    + exists px, py, pz, piece, m. split; [done|]. split; [done|].
      split; [congruence|]. split; [done|]. split; [|done].
      unfold calculateValidMoves in Hm. rewrite Hty in Hm.
      by apply knight_plain in Hm as [? _].
    + exists px, py, pz, piece, m. split; [done|]. split; [done|].
      pose proof Hm as (dx & dy & dz & k & _ & Hal & _)%in_slidingMoves.
      split; [intros HP; by rewrite HP in Hal|]. split.
      * unfold calculateValidMoves.
        destruct (Piece.type piece); try done; apply elem_of_app; by left.
      * split; [|done]. by apply sliding_plain in Hm as [? _].
Qed.

Lemma isSquareAttacked_moves :
  isSquareAttacked x y z attackerColor b = true ↔
  pawnThreat b attackerColor x y z ∨ landsOn b attackerColor x y z.
Proof.
  unfold isSquareAttacked. rewrite !orb_true_iff.
  rewrite pawn_part, knight_part, ray_part, landsOn_split. tauto.
Qed.
End Attacks.

Lemma noMoveOnto_sound b color x y z :
  cubic b → noMoveOnto b color x y z = true →
  ¬ ∃ px py pz piece m,
      cell b px py pz = Some piece ∧ Piece.color piece = color ∧
      m ∈ calculateValidMoves piece b ∧
      (Move.x m, Move.y m, Move.z m) = (x, y, z).
Proof.
  intros Hc Hall (px & py & pz & piece & m & Hcell & Hcol & Hm & Hdest).
  unfold noMoveOnto in Hall. rewrite forallb_forall in Hall.
  pose proof (cell_Some_bounds _ _ _ _ _ Hc Hcell) as Hb.
  apply in_allCells, list_elem_of_In, Hall in Hb. cbn in Hb.
  rewrite Hcell, bool_decide_eq_true_2 in Hb by done.
  rewrite forallb_forall in Hb. apply list_elem_of_In, Hb in Hm.
  by rewrite bool_decide_eq_true_2 in Hm.
Qed.

Lemma farBoard_ok : boardInvariant farBoard.
Proof. check_board. Qed.

(** C4, as stated, fails both ways. In the initial layout the cell
    [(0, 1, 0)] holds a white knight and is reported attacked by white (the
    rook next to it guards it), yet no white piece has a generated move onto
    it, and no white pawn stands a layer behind it. On [farBoard] the
    kingside castle of the white king is a generated move onto the empty
    cell [(3, 3, 0)], which is not attacked by white. *)
Lemma attacked_without_move_counterexample :
  (isSquareAttacked 0 1 0 white initializeBoardState = true ∧
   ¬ pawnThreat initializeBoardState white 0 1 0 ∧
   ¬ ∃ px py pz piece m,
       cell initializeBoardState px py pz = Some piece ∧
       Piece.color piece = white ∧
       m ∈ calculateValidMoves piece initializeBoardState ∧
       (Move.x m, Move.y m, Move.z m) = (0, 1, 0)) ∧
  (cell farBoard 1 3 0 = Some farKing ∧
   kingsideMove farKing ∈ calculateValidMoves farKing farBoard ∧
   (Move.x (kingsideMove farKing), Move.y (kingsideMove farKing),
    Move.z (kingsideMove farKing)) = (3, 3, 0) ∧
   cell farBoard 3 3 0 = None ∧
   isSquareAttacked 3 3 0 white farBoard = false).
Proof.
  destruct initializeBoardState_ok as (Hc & _).
  split; [split; [reflexivity|split]|].
  - intros (dx & dy & piece & _ & Hcell & _).
    apply (cell_Some_bounds _ _ _ _ _ Hc) in Hcell.
    apply isWithinBounds_true in Hcell. cbn in Hcell. lia.
  - apply noMoveOnto_sound; [done|]. vm_compute. reflexivity.
  - split; [reflexivity|]. split; [in_moves|]. by repeat split.
Qed.

(** C4, amended. For a cell of the cube that holds no piece of color C,
    on a board that satisfies the invariant: [isSquareAttacked] reports the
    cell attacked by C exactly when a pawn of color C stands on one of the
    eight cells one layer behind it, or a piece of color C that is no pawn
    has a generated move, no castle, onto the cell. *)
Theorem attacked_iff_move_lands (b : BoardState) (attackerColor : Color) (x y z : Z) :
  boardInvariant b →
  isWithinBounds x y z = true →
  (∀ t, cell b x y z = Some t → Piece.color t ≠ attackerColor) →
  (isSquareAttacked x y z attackerColor b = true ↔
   pawnThreat b attackerColor x y z ∨ landsOn b attackerColor x y z).
Proof.
  intros Hinv Hin Hfree. apply isSquareAttacked_moves; [done..|].
  destruct (cell b x y z) as [t|]; [by apply Hfree|done].
Qed.

Lemma attacked_iff_move_lands_witness :
  boardInvariant pinBoard ∧ isWithinBounds 0 3 0 = true ∧
  (isSquareAttacked 0 3 0 black pinBoard = true ↔
   pawnThreat pinBoard black 0 3 0 ∨ landsOn pinBoard black 0 3 0).
Proof.
  split; [apply pinBoard_ok|]. split; [reflexivity|].
  apply (attacked_iff_move_lands pinBoard black 0 3 0 pinBoard_ok eq_refl).
  intros t Ht. injection Ht as <-. discriminate.
Defined.

(** ** More about the attack detector *)

Lemma existsb_same {A : Type} (f g : A → bool) (l : list A) :
  (∀ a, a ∈ l → f a = g a) → existsb f l = existsb g l.
Proof.
  induction l as [|a l IH]; intros H; simpl; [done|].
  rewrite (H a) by apply list_elem_of_here. f_equal. apply IH.
  intros a' Ha'. apply H. by apply list_elem_of_further.
Qed.

Lemma rayAttacked_off_origin b b' x y z v attackerColor dx dy dz ks :
  writeCell b x y z v = Done b' →
  (dx, dy, dz) ∈ all3DDirections → (∀ k, k ∈ ks → 1 ≤ k) →
  rayAttacked b' attackerColor x y z (dx, dy, dz) ks
  = rayAttacked b attackerColor x y z (dx, dy, dz) ks.
Proof.
  intros Hw Hd%all3DDirections_spec. induction ks as [|k ks IH]; intros Hks; [done|].
  cbn [rayAttacked]. rewrite (cell_writeCell _ _ _ _ _ _ _ _ _ Hw).
  assert (1 ≤ k) as Hk by (apply Hks, list_elem_of_here).
  rewrite bool_decide_eq_false_2 by (intros [= Hx Hy Hz]; nia).
  rewrite IH; [done|]. intros k' Hk'. apply Hks. by apply list_elem_of_further.
Qed.

(** X1. [isSquareAttacked] never reads the cell it is asked about: whatever
    is written on [(x, y, z)], the answer for [(x, y, z)] is the same. *)
Theorem isSquareAttacked_ignores_target (b b' : BoardState) (x y z : Z)
    (v : option Piece.t) (attackerColor : Color) :
  writeCell b x y z v = Done b' →
  isSquareAttacked x y z attackerColor b' = isSquareAttacked x y z attackerColor b.
Proof.
  intros Hw. unfold isSquareAttacked. f_equal; [f_equal|].
  - apply existsb_same. intros [dx dy] _. unfold pawnAt.
    rewrite (cell_writeCell _ _ _ _ _ _ _ _ _ Hw).
    rewrite bool_decide_eq_false_2; [done|].
    intros [= _ _ Hz]. destruct attackerColor; cbn in Hz; lia.
  - apply existsb_same. intros [[dx dy] dz] Hd%knightMoves_nonzero. unfold knightAt.
    rewrite (cell_writeCell _ _ _ _ _ _ _ _ _ Hw).
    rewrite bool_decide_eq_false_2; [done|]. intros [= Hx Hy Hz]. lia.
  - apply existsb_same. intros [[dx dy] dz] Hd.
    apply (rayAttacked_off_origin _ _ _ _ _ _ _ _ _ _ _ Hw Hd).
    intros k Hk%elem_of_seqZ. lia.
Qed.

Lemma isSquareAttacked_ignores_target_witness :
  ∃ b', writeCell pinBoard 0 0 0 None = Done b' ∧
        isSquareAttacked 0 0 0 black b' = isSquareAttacked 0 0 0 black pinBoard.
Proof.
  eexists. split; [reflexivity|].
  exact (isSquareAttacked_ignores_target pinBoard _ 0 0 0 None black eq_refl).
Defined.

(** A piece of the color with a generated capture onto [(x, y, z)]. *)
Lemma attacked_iff_capture_move b attackerColor x y z t :
  boardInvariant b →
  cell b x y z = Some t → Piece.color t ≠ attackerColor →
  (isSquareAttacked x y z attackerColor b = true ↔
   ∃ px py pz piece m,
     cell b px py pz = Some piece ∧ Piece.color piece = attackerColor ∧
     m ∈ calculateValidMoves piece b ∧ Move.capture m = true ∧
     dest m = (x, y, z)).
Proof.
  intros Hinv Ht Hcol. pose proof Hinv as (Hc & Hp & _).
  pose proof (cell_Some_bounds _ _ _ _ _ Hc Ht) as Hin.
  rewrite (isSquareAttacked_moves b Hinv attackerColor x y z Hin)
    by (rewrite Ht; exact Hcol).
  unfold dest. split.
  - intros [(dx & dy & piece & Hd & Hcell & Hty & Hpc)
           |(px & py & pz & piece & m & Hcell & Hpc & Hty & Hm & Hplain & Hdest)].
    + destruct (Hp _ _ _ _ Hcell) as (Hx & Hy & Hz).
      exists (x - dx), (y - dy), (z - zDirOf attackerColor), piece,
             (Move.mk x y z true None).
      split; [done|]. split; [done|]. split; [|done].
      unfold calculateValidMoves. rewrite Hty. apply in_pawnMoves.
      right. right. exists dx, dy, t. rewrite Hx, Hy, Hz, Hpc.
      replace (x - dx + dx) with x by lia. replace (y - dy + dy) with y by lia.
      replace (z - zDirOf attackerColor + zDirOf attackerColor) with z by lia.
      done.
    + exists px, py, pz, piece, m. split; [done|]. split; [done|]. split; [done|].
      split; [|done].
      apply calculateValidMoves_cases in Hm as [(_ & _ & _ & Hflag & _)|Hcm].
      * rewrite Hflag. injection Hdest as -> -> ->. by rewrite Ht.
      * apply castleMoves_king in Hcm as [_ [side Hside]]. congruence.
  - intros (px & py & pz & piece & m & Hcell & Hpc & Hm & Hflag & Hdest).
    destruct (Hp _ _ _ _ Hcell) as (Hx & Hy & Hz).
    destruct (decide (Piece.type piece = P)) as [Hty|Hty].
    + left. unfold calculateValidMoves in Hm. rewrite Hty in Hm.
      apply in_pawnMoves in Hm
        as [(_ & _ & ->)|[(_ & _ & _ & _ & _ & ->)|(dx & dy & t' & Hd & _ & _ & _ & ->)]];
        try discriminate Hflag.
      cbn in Hdest. injection Hdest as Ex Ey Ez.
      exists dx, dy, piece. split; [done|]. split; [|done].
      rewrite <- Hcell, <- Hpc. f_equal; lia.
    + right. exists px, py, pz, piece, m. split; [done|]. split; [done|].
      split; [done|]. split; [done|]. split; [|done].
      apply calculateValidMoves_cases in Hm as [(Hplain & _)|Hcm]; [done|].
      apply in_castleMoves in Hcm as [_ [[-> _]|[-> _]]]; discriminate Hflag.
Qed.

(** X2. A piece is attacked exactly when it can be captured: for a cell that
    holds a piece of the other color, [isSquareAttacked] answers [true] for
    color C if and only if some piece of color C on the board, pawns
    included, has a generated capture move onto that cell. *)
Theorem attacked_iff_capturable (b : BoardState) (attackerColor : Color)
    (x y z : Z) (t : Piece.t) :
  boardInvariant b →
  cell b x y z = Some t → Piece.color t ≠ attackerColor →
  (isSquareAttacked x y z attackerColor b = true ↔
   ∃ px py pz piece m,
     cell b px py pz = Some piece ∧ Piece.color piece = attackerColor ∧
     m ∈ calculateValidMoves piece b ∧ Move.capture m = true ∧
     dest m = (x, y, z)).
Proof. apply attacked_iff_capture_move. Qed.

Lemma attacked_iff_capturable_witness :
  isSquareAttacked 0 3 0 black pinBoard = true ↔
  ∃ px py pz piece m,
    cell pinBoard px py pz = Some piece ∧ Piece.color piece = black ∧
    m ∈ calculateValidMoves piece pinBoard ∧ Move.capture m = true ∧
    dest m = (0, 3, 0).
Proof.
  apply (attacked_iff_capturable pinBoard black 0 3 0 pinnedRook pinBoard_ok eq_refl).
  discriminate.
Defined.

(** X3. Check is the threat of capturing the king: on a board that
    satisfies the invariant, [isKingInCheck] answers [true] for a color if
    and only if some piece of the other color has a generated capture move
    onto the cell of the king [findKing] returns. *)
Theorem check_iff_king_capturable (kingColor : Color) (b : BoardState) (king : Piece.t) :
  boardInvariant b →
  findKing kingColor b = Some king →
  (isKingInCheck kingColor b = true ↔
   ∃ px py pz piece m,
     cell b px py pz = Some piece ∧ Piece.color piece ≠ kingColor ∧
     m ∈ calculateValidMoves piece b ∧ Move.capture m = true ∧
     dest m = (Piece.x king, Piece.y king, Piece.z king)).
Proof.
  intros Hinv Hf. pose proof Hinv as (_ & Hp & _).
  pose proof Hf as (x & y & z & _ & Hcell & _ & Hcol)%firstKing_Some.
  destruct (Hp _ _ _ _ Hcell) as (Hx & Hy & Hz).
  assert (∀ c : Color, c = opponentOf kingColor ↔ c ≠ kingColor) as Hopp
    by (intros []; destruct kingColor; naive_solver).
  unfold isKingInCheck. rewrite Hf.
  rewrite (attacked_iff_capture_move b (opponentOf kingColor) _ _ _ king Hinv).
  - split; intros (px & py & pz & piece & m & Hon & Hc%Hopp & Hrest);
      by exists px, py, pz, piece, m.
  - by rewrite Hx, Hy, Hz.
  - rewrite Hcol. by destruct kingColor.
Qed.

Lemma checkedBoard_ok : boardInvariant checkedBoard.
Proof. check_board. Qed.

Lemma check_iff_king_capturable_witness :
  (isKingInCheck white checkedBoard = true ∧
   ∃ px py pz piece m,
     cell checkedBoard px py pz = Some piece ∧ Piece.color piece ≠ white ∧
     m ∈ calculateValidMoves piece checkedBoard ∧ Move.capture m = true ∧
     dest m = (0, 0, 0)) ∧
  (isKingInCheck black blackCheckBoard = true ∧
   ∃ px py pz piece m,
     cell blackCheckBoard px py pz = Some piece ∧ Piece.color piece ≠ black ∧
     m ∈ calculateValidMoves piece blackCheckBoard ∧ Move.capture m = true ∧
     dest m = (7, 7, 7)).
Proof.
  split; (split; [reflexivity|]).
  - apply (check_iff_king_capturable white checkedBoard checkedKing checkedBoard_ok
             eq_refl).
    reflexivity.
  - apply (check_iff_king_capturable black blackCheckBoard blackCheckedKing
             blackCheckBoard_ok eq_refl).
    reflexivity.
Defined.

(** ** More about the generator *)

(** X4. The capture flag of a generated move tells whether its destination
    is occupied: a move flagged as a capture lands on a piece of the other
    color; a move not flagged lands on an empty cell, be it a plain move or
    a castle of a king on column [x = 4]; a castle is never flagged. *)
Theorem capture_flag_exact (piece : Piece.t) (b : BoardState) (m : Move.t) :
  m ∈ calculateValidMoves piece b →
  (Move.capture m = true →
   ∃ t, cell b (Move.x m) (Move.y m) (Move.z m) = Some t ∧
        Piece.color t ≠ Piece.color piece) ∧
  (Move.capture m = false → Move.castle m = None ∨ Piece.x piece = 4 →
   cell b (Move.x m) (Move.y m) (Move.z m) = None) ∧
  (Move.castle m ≠ None → Move.capture m = false).
Proof.
  intros [(Hplain & _ & Hown & Hflag & _)|Hcm]%calculateValidMoves_cases.
  - rewrite Hflag, Hplain.
    destruct (cell b (Move.x m) (Move.y m) (Move.z m)) as [t|]; cbn in *.
    + split; [eauto|]. split; [intros Hf; discriminate Hf|done].
    + split; [intros Hf; discriminate Hf|]. split; done.
  - apply in_castleMoves in Hcm as [_ [[-> Ho]|[-> Ho]]]; cbn.
    + split; [intros Hf; discriminate Hf|]. split; [|done].
      intros _ [Hn|Hx]; [discriminate Hn|]. rewrite Hx.
      by destruct Ho as (_ & _ & H6 & _).
    + split; [intros Hf; discriminate Hf|]. split; [|done].
      intros _ [Hn|Hx]; [discriminate Hn|]. rewrite Hx.
      by destruct Ho as (_ & _ & H2 & _).
Qed.

Lemma capture_flag_exact_witness :
  Move.mk 0 7 0 true None ∈ calculateValidMoves rescuingQueen checkedBoard ∧
  ∃ t, cell checkedBoard 0 7 0 = Some t ∧ Piece.color t ≠ white.
Proof.
  assert (Move.mk 0 7 0 true None ∈ calculateValidMoves rescuingQueen checkedBoard) as Hm
    by in_moves.
  split; [exact Hm|].
  exact (proj1 (capture_flag_exact rescuingQueen checkedBoard _ Hm) eq_refl).
Defined.

Lemma NoDup_flat_map_key {A B C : Type} (key : B → C) (g : A → list B) (l : list A) :
  NoDup l →
  (∀ a, a ∈ l → NoDup (map key (g a))) →
  (∀ a a' x x', a ∈ l → a' ∈ l → x ∈ g a → x' ∈ g a' → key x = key x' → a = a') →
  NoDup (map key (flat_map g l)).
Proof.
  induction 1 as [|a l Hnotin Hnd IH]; intros Heach Hsep; simpl; [constructor|].
  rewrite map_app. apply NoDup_app. split; [|split].
  - apply Heach, list_elem_of_here.
  - intros c Hc1 Hc2.
    apply list_elem_of_In, in_map_iff in Hc1 as (x & <- & Hx%list_elem_of_In).
    apply list_elem_of_In, in_map_iff in Hc2 as (x' & Heq & Hx').
    apply in_flat_map in Hx' as (a' & Ha'%list_elem_of_In & Hx'%list_elem_of_In).
    assert (a' = a) as ->.
    { apply (Hsep a' a x' x); [by apply list_elem_of_further|apply list_elem_of_here
                               |done..]. }
    done.
  - apply IH.
    + intros a' Ha'. apply Heach. by apply list_elem_of_further.
    + intros a1 a2 x1 x2 H1 H2. apply Hsep; by apply list_elem_of_further.
Qed.

Lemma rayMoves_NoDup b color sx sy sz dx dy dz (n : nat) : ∀ k0,
  (dx, dy, dz) ∈ all3DDirections →
  NoDup (map dest (rayMoves b color sx sy sz (dx, dy, dz) (seqZ k0 (Z.of_nat n)))).
Proof.
  induction n as [|n IH]; intros k0 Hd; [constructor|].
  rewrite seqZ_S. cbn [rayMoves].
  destruct (isWithinBounds _ _ _); cbn [negb]; [|constructor].
  destruct (cell b _ _ _) as [t|].
  - case_bool_decide; [|constructor]. cbn. apply NoDup_singleton.
  - cbn [map]. apply NoDup_cons. split; [|by apply IH].
    intros Hin. apply list_elem_of_In, in_map_iff in Hin as (m & Heq & Hm).
    apply list_elem_of_In, in_rayMoves in Hm as (k & Hk & _ & _ & _ & ->).
    apply all3DDirections_spec in Hd.
    unfold dest, rayMove in Heq. cbn in Heq. injection Heq as Hx Hy Hz. nia.
Qed.

Lemma same_direction k k' dx dy dz dx' dy' dz' :
  (dx, dy, dz) ∈ all3DDirections → (dx', dy', dz') ∈ all3DDirections →
  1 ≤ k → 1 ≤ k' →
  dx * k = dx' * k' → dy * k = dy' * k' → dz * k = dz' * k' →
  (dx, dy, dz) = (dx', dy', dz').
Proof.
  intros Hd%all3DDirections_spec Hd'%all3DDirections_spec Hk Hk' Hx Hy Hz.
  assert (∀ a a', -1 ≤ a ≤ 1 → -1 ≤ a' ≤ 1 → a * k = a' * k' → a = a') as Hone.
  { intros a a' Ha Ha' Heq.
    assert (a = -1 ∨ a = 0 ∨ a = 1) as [-> | [-> | ->]] by lia;
      assert (a' = -1 ∨ a' = 0 ∨ a' = 1) as [-> | [-> | ->]] by lia; lia. }
  f_equal; [f_equal|]; apply Hone; tauto.
Qed.

Lemma rayDirections_NoDup type : NoDup (rayDirections type).
Proof. destruct type; apply (bool_decide_unpack _); vm_compute; exact I. Qed.

Lemma slidingMoves_NoDup piece b : NoDup (map dest (slidingMoves piece b)).
Proof.
  unfold slidingMoves.
  assert (seqZ 1 (maxDistance (Piece.type piece))
          = seqZ 1 (Z.of_nat (Z.to_nat (maxDistance (Piece.type piece))))) as ->.
  { f_equal. by destruct (Piece.type piece). }
  apply NoDup_flat_map_key.
  - apply rayDirections_NoDup.
  - intros [[dx dy] dz] [Hd _]%rayDirections_spec. by apply rayMoves_NoDup.
  - intros [[dx dy] dz] [[dx' dy'] dz'] m m' [Hd _]%rayDirections_spec
           [Hd' _]%rayDirections_spec Hm Hm' Heq.
    apply in_rayMoves in Hm as (k & Hk & _ & _ & _ & ->).
    apply in_rayMoves in Hm' as (k' & Hk' & _ & _ & _ & ->).
    unfold dest, rayMove in Heq. cbn in Heq. injection Heq as Hx Hy Hz.
    apply (same_direction k k'); try done; lia.
Qed.

Lemma knightMoves_NoDup : NoDup knightMoves.
Proof. apply (bool_decide_unpack _). vm_compute. exact I. Qed.

Lemma pawnCaptureDirections_NoDup : NoDup pawnCaptureDirections.
Proof. apply (bool_decide_unpack _). vm_compute. exact I. Qed.

Lemma knightStep_NoDup piece b :
  NoDup (map dest (flat_map (knightStep b (Piece.color piece)
                               (Piece.x piece) (Piece.y piece) (Piece.z piece))
                            knightMoves)).
Proof.
  apply NoDup_flat_map_key.
  - apply knightMoves_NoDup.
  - intros [[dx dy] dz] _. unfold knightStep.
    destruct (isWithinBounds _ _ _); [|constructor].
    destruct (cell b _ _ _) as [t|]; [case_bool_decide|]; cbn;
      try constructor; try apply NoDup_singleton; try apply NoDup_nil_2;
      by intros ?%elem_of_nil.
  - intros [[dx dy] dz] [[dx' dy'] dz'] m m' _ _
           (_ & _ & ->)%in_knightStep (_ & _ & ->)%in_knightStep Heq.
    unfold dest, plainTo in Heq. cbn in Heq. injection Heq as Hx Hy Hz.
    f_equal; [f_equal|]; lia.
Qed.

Lemma pawnMoves_NoDup b color x y z : NoDup (map dest (pawnMoves b color x y z)).
Proof.
  unfold pawnMoves. rewrite map_app. apply NoDup_app.
  pose proof (zDirOf_cases color) as Hdir.
  assert (∀ c, c ∈ map dest (flat_map (pawnCapture b color x y z)
                 (map (fun '(dx, dy) => (dx, dy, zDirOf color)) pawnCaptureDirections)) →
               ∃ dx dy, (dx, dy) ∈ pawnCaptureDirections ∧
                        c = (x + dx, y + dy, z + zDirOf color)) as Hcap.
  { intros c Hc. apply list_elem_of_In, in_map_iff in Hc as (m & <- & Hm).
    apply in_flat_map in Hm as ([[dx dy] dz] & Hd & Hm).
    apply list_elem_of_In, in_pawnCapture in Hm as (_ & _ & ->).
    apply in_map_iff in Hd as ([dx' dy'] & Heq & Hd). simplify_eq.
    exists dx, dy. by rewrite list_elem_of_In. }
  split; [|split].
  - destruct (isWithinBounds _ _ _ && _); [|constructor].
    destruct (bool_decide _); [|apply NoDup_singleton].
    destruct (_ && _); [|apply NoDup_singleton].
    cbn. apply NoDup_cons. split; [|apply NoDup_singleton].
    intros Hin%list_elem_of_singleton. unfold dest in Hin. cbn in Hin.
    injection Hin as Hz. lia.
  - intros c Hf (dx & dy & Hd%in_pawnCaptureDirections & ->)%Hcap.
    destruct (isWithinBounds _ _ _ && _); [|by apply elem_of_nil in Hf].
    cbn in Hf. apply elem_of_cons in Hf as [Heq|Hf].
    + unfold dest in Heq. cbn in Heq. injection Heq as Hx Hy. lia.
    + destruct (bool_decide _); [|by apply elem_of_nil in Hf].
      destruct (_ && _); [|by apply elem_of_nil in Hf].
      apply list_elem_of_singleton in Hf. unfold dest in Hf. cbn in Hf.
      injection Hf as Hx Hy. lia.
  - apply NoDup_flat_map_key.
    + apply NoDup_fmap_2; [|apply pawnCaptureDirections_NoDup].
      intros [dx dy] [dx' dy'] Heq. by simplify_eq.
    + intros [[dx dy] dz] _. unfold pawnCapture.
      destruct (isWithinBounds _ _ _); [|constructor].
      destruct (cell b _ _ _) as [t|]; [case_bool_decide|]; cbn;
        try constructor; try apply NoDup_nil_2; by intros ?%elem_of_nil.
    + intros [[dx dy] dz] [[dx' dy'] dz'] m m' Ha Ha'
             (_ & _ & ->)%in_pawnCapture (_ & _ & ->)%in_pawnCapture Heq.
      unfold dest in Heq. cbn in Heq. injection Heq as Hx Hy Hz.
      f_equal; [f_equal|]; lia.
Qed.

Lemma castleMoves_NoDup piece b : NoDup (map dest (castleMoves piece b)).
Proof.
  unfold castleMoves.
  destruct (_ && negb (isKingInCheck _ _)); [|constructor].
  destruct (bool_decide _ && bool_decide _); [|constructor].
  destruct (isUnmovedRook _ (cell b 7 _ _) && _ && _);
    destruct (isUnmovedRook _ (cell b 0 _ _) && _ && _); cbn;
    try constructor; try apply NoDup_singleton; try apply NoDup_nil_2;
    try (by intros ?%elem_of_nil).
  intros Hin%list_elem_of_singleton. unfold dest in Hin. cbn in Hin.
  injection Hin as Hx. lia.
Qed.

Lemma destinations_NoDup piece b : NoDup (map dest (calculateValidMoves piece b)).
Proof.
  unfold calculateValidMoves. destruct (Piece.type piece) eqn:Hty;
    try apply pawnMoves_NoDup; try apply knightStep_NoDup;
    rewrite map_app; apply NoDup_app;
    (split; [apply slidingMoves_NoDup|split; [|apply castleMoves_NoDup]]);
    intros c Hs Hc;
    apply list_elem_of_In, in_map_iff in Hc as (m' & <- & Hm'%list_elem_of_In);
    pose proof Hm' as [HK _]%castleMoves_king; try congruence.
  apply list_elem_of_In, in_map_iff in Hs as (m & Heq & Hm%list_elem_of_In).
  apply in_slidingMoves in Hm as (dx & dy & dz & k & Hd & _ & Hk & _ & _ & _ & ->).
  rewrite Hty in Hk. apply maxDistance_king in Hk as ->.
  apply all3DDirections_spec in Hd.
  apply in_castleMoves in Hm' as [_ [[-> _]|[-> _]]];
    unfold dest, rayMove in Heq; cbn in Heq; injection Heq as Hx; lia.
Qed.

(** X5. No two moves of the generator have the same destination, and none
    has the mover's own cell as destination: the lookup of a clicked cell
    in the list of valid moves, [validMoves.find], has at most one
    candidate. *)
Theorem distinct_destinations (piece : Piece.t) (b : BoardState) :
  NoDup (map dest (calculateValidMoves piece b)) ∧
  (Piece.x piece, Piece.y piece, Piece.z piece)
    ∉ map dest (calculateValidMoves piece b).
Proof.
  split; [apply destinations_NoDup|].
  intros Hin. apply list_elem_of_In, in_map_iff in Hin as (m & Heq & Hm%list_elem_of_In).
  apply calculateValidMoves_cases in Hm as [(_ & _ & _ & _ & Hne)|Hcm].
  - by apply Hne.
  - apply in_castleMoves in Hcm as [_ [[-> _]|[-> _]]];
      unfold dest in Heq; cbn in Heq; injection Heq as Hx; lia.
Qed.

Lemma knightMoves_spec dx dy dz : (dx, dy, dz) ∈ knightMoves ↔ knightLeap dx dy dz.
Proof.
  unfold knightLeap. split.
  - intros H. apply list_elem_of_In in H. vm_compute in H.
    repeat (destruct H as [H|H]; [simplify_eq; cbn; lia|]). done.
  - intros (Hx & Hy & Hz & Hsum & Hprod).
    assert (dx = -2 ∨ dx = -1 ∨ dx = 0 ∨ dx = 1 ∨ dx = 2) as Cx by lia.
    assert (dy = -2 ∨ dy = -1 ∨ dy = 0 ∨ dy = 1 ∨ dy = 2) as Cy by lia.
    assert (dz = -2 ∨ dz = -1 ∨ dz = 0 ∨ dz = 1 ∨ dz = 2) as Cz by lia.
    destruct Cx as [-> | [-> | [-> | [-> | ->]]]],
             Cy as [-> | [-> | [-> | [-> | ->]]]],
             Cz as [-> | [-> | [-> | [-> | ->]]]];
      cbn in Hsum, Hprod; try discriminate Hsum; try discriminate Hprod;
      apply list_elem_of_In; vm_compute; tauto.
Qed.

(** X6. The moves of a knight are the knight's leaps, all of them: the move
    list of a knight holds exactly one plain move for each cell of the cube
    that lies a leap away (steps of 2, 1 and 0 along the three axes, in any
    order and direction) and holds no piece of the knight's color. *)
Theorem knight_moves_are_leaps (piece : Piece.t) (b : BoardState) (m : Move.t) :
  Piece.type piece = N →
  (m ∈ calculateValidMoves piece b ↔
   knightLeap (Move.x m - Piece.x piece) (Move.y m - Piece.y piece)
              (Move.z m - Piece.z piece) ∧
   isWithinBounds (Move.x m) (Move.y m) (Move.z m) = true ∧
   notOwn (Piece.color piece) (cell b (Move.x m) (Move.y m) (Move.z m)) ∧
   m = plainTo b (Move.x m) (Move.y m) (Move.z m)).
Proof.
  intros Hty. split.
  - intros Hm. assert (pseudoLegal b piece m) as Hrule.
    { apply pseudoLegal_generated. split; [done|].
      unfold calculateValidMoves in Hm. rewrite Hty in Hm.
      by apply knight_plain in Hm as [? _]. }
    unfold pseudoLegal in Hrule. rewrite Hty in Hrule.
    destruct Hrule as (dx & dy & dz & Hd%knightMoves_spec & Hb & Hown & ->).
    cbn. replace (Piece.x piece + dx - Piece.x piece) with dx by lia.
    replace (Piece.y piece + dy - Piece.y piece) with dy by lia.
    replace (Piece.z piece + dz - Piece.z piece) with dz by lia. done.
  - intros (Hleap%knightMoves_spec & Hb & Hown & Hm).
    apply pseudoLegal_generated. unfold pseudoLegal. rewrite Hty.
    exists (Move.x m - Piece.x piece), (Move.y m - Piece.y piece),
           (Move.z m - Piece.z piece).
    replace (Piece.x piece + (Move.x m - Piece.x piece)) with (Move.x m) by lia.
    replace (Piece.y piece + (Move.y m - Piece.y piece)) with (Move.y m) by lia.
    replace (Piece.z piece + (Move.z m - Piece.z piece)) with (Move.z m) by lia.
    done.
Qed.

Lemma knight_moves_are_leaps_witness :
  Move.mk 2 0 2 false None ∈ calculateValidMoves (Piece.mk N white 1 0 0 false)
                                                   initializeBoardState.
Proof.
  apply (knight_moves_are_leaps (Piece.mk N white 1 0 0 false) initializeBoardState
           (Move.mk 2 0 2 false None) eq_refl).
  split; [|split; [reflexivity|split; [exact I|reflexivity]]].
  unfold knightLeap. cbn. lia.
Defined.

(** X7. The plain moves of a king are the steps to the neighbouring cells:
    the move list of a king holds exactly one plain move for each of the
    (at most 26) cells of the cube that touch the king's cell and hold no
    piece of its color; its only other moves are the castles, two columns
    along [x]. *)
Theorem king_moves_one_step (piece : Piece.t) (b : BoardState) (m : Move.t) :
  Piece.type piece = K →
  (m ∈ calculateValidMoves piece b ∧ Move.castle m = None ↔
   oneStep (Move.x m - Piece.x piece) (Move.y m - Piece.y piece)
           (Move.z m - Piece.z piece) ∧
   isWithinBounds (Move.x m) (Move.y m) (Move.z m) = true ∧
   notOwn (Piece.color piece) (cell b (Move.x m) (Move.y m) (Move.z m)) ∧
   m = plainTo b (Move.x m) (Move.y m) (Move.z m)) ∧
  (m ∈ calculateValidMoves piece b → Move.castle m ≠ None →
   (Move.y m, Move.z m) = (Piece.y piece, Piece.z piece) ∧
   (Move.x m = Piece.x piece + 2 ∨ Move.x m = Piece.x piece - 2)).
Proof.
  intros Hty. split; [split|].
  - intros Hrule%pseudoLegal_generated.
    unfold pseudoLegal in Hrule. rewrite Hty in Hrule.
    destruct Hrule as (dx & dy & dz & k & Hd%all3DDirections_spec & _ & Hk & _
                       & Hb & Hown & ->).
    assert (k = 1) as -> by (unfold maxDistance in Hk; lia).
    unfold rayMove, plainTo, oneStep in *. cbn in *.
    replace (Piece.x piece + dx * 1 - Piece.x piece) with dx by lia.
    replace (Piece.y piece + dy * 1 - Piece.y piece) with dy by lia.
    replace (Piece.z piece + dz * 1 - Piece.z piece) with dz by lia. done.
  - intros (Hstep & Hb & Hown & Hm).
    apply pseudoLegal_generated. unfold pseudoLegal. rewrite Hty.
    exists (Move.x m - Piece.x piece), (Move.y m - Piece.y piece),
           (Move.z m - Piece.z piece), 1.
    split; [by apply all3DDirections_spec|]. split; [done|].
    split; [unfold maxDistance; lia|]. split; [intros j Hj; lia|].
    unfold rayMove. cbn [fst snd].
    replace (Piece.x piece + (Move.x m - Piece.x piece) * 1) with (Move.x m) by lia.
    replace (Piece.y piece + (Move.y m - Piece.y piece) * 1) with (Move.y m) by lia.
    replace (Piece.z piece + (Move.z m - Piece.z piece) * 1) with (Move.z m) by lia.
    done.
  - intros [[Hnone _]|Hcm]%calculateValidMoves_cases Hc; [done|].
    apply in_castleMoves in Hcm as [_ [[-> _]|[-> _]]]; cbn; split; try done; lia.
Qed.

Lemma king_moves_one_step_witness :
  Move.mk 5 3 0 false None ∈ calculateValidMoves homeKing castleBoard.
Proof.
  apply (proj1 (king_moves_one_step homeKing castleBoard (Move.mk 5 3 0 false None)
                  eq_refl)).
  split; [|split; [reflexivity|split; [exact I|reflexivity]]].
  unfold oneStep. cbn. lia.
Defined.

(** X8. A pawn only moves forward: up the layers ([+1]) for white, down
    ([-1]) for black. Every move of a pawn goes one layer along its color's
    direction, to the cell straight ahead or to one of its eight
    neighbours, or two layers straight ahead from the starting layer
    ([z = 1] for white, [z = 6] for black) over an empty cell. The straight
    moves never capture and the others always do. A pawn on its promotion
    layer ([z = 7] for white, [z = 0] for black) has no move at all. *)
Theorem pawn_moves_forward (piece : Piece.t) (b : BoardState) (zDir start last : Z) :
  Piece.type piece = P →
  (Piece.color piece = white ∧ zDir = 1 ∧ start = 1 ∧ last = 7) ∨
  (Piece.color piece = black ∧ zDir = -1 ∧ start = 6 ∧ last = 0) →
  (∀ m, m ∈ calculateValidMoves piece b →
     let dx := Move.x m - Piece.x piece in
     let dy := Move.y m - Piece.y piece in
     let dz := Move.z m - Piece.z piece in
     Move.castle m = None ∧
     -1 ≤ dx ≤ 1 ∧ -1 ≤ dy ≤ 1 ∧
     (dz = zDir ∨
      (dz = zDir * 2 ∧ dx = 0 ∧ dy = 0 ∧
       Piece.z piece = start ∧
       cell b (Piece.x piece) (Piece.y piece) (Piece.z piece + zDir) = None)) ∧
     (Move.capture m = true ↔ ¬ (dx = 0 ∧ dy = 0))) ∧
  (Piece.z piece = last → calculateValidMoves piece b = []).
Proof.
  intros Hty Hcol.
  assert (zDir = zDirOf (Piece.color piece) ∧
          start = pawnStartLayer (Piece.color piece) ∧
          last = promotionRank (Piece.color piece)) as (-> & -> & ->).
  { by destruct Hcol as [(-> & -> & -> & ->)|(-> & -> & -> & ->)]. }
  clear Hcol. split.
  - intros m Hm. unfold calculateValidMoves in Hm. rewrite Hty in Hm.
    apply in_pawnMoves in Hm
      as [(_ & _ & ->)|[(Hs & _ & Hc & _ & _ & ->)
                       |(dx & dy & t & Hd%in_pawnCaptureDirections & _ & _ & _ & ->)]];
      cbn; (split; [done|]).
    + split; [lia|]. split; [lia|]. split; [left; lia|].
      split; [intros Hf; discriminate Hf|]. intros Hn. exfalso. apply Hn. lia.
    + split; [lia|]. split; [lia|]. split.
      * right. repeat split; try done; lia.
      * split; [intros Hf; discriminate Hf|]. intros Hn. exfalso. apply Hn. lia.
    + split; [lia|]. split; [lia|]. split; [left; lia|].
      split; [intros _; lia|done].
  - intros Hz. destruct (calculateValidMoves piece b) as [|m l] eqn:Hl; [done|].
    exfalso. eapply (pawn_not_on_last_layer piece b m); [done| |done].
    rewrite Hl. apply list_elem_of_here.
Qed.

Lemma pawn_moves_forward_witness :
  calculateValidMoves (Piece.mk P white 3 3 7 true) promotionBoard = [] ∧
  calculateValidMoves (Piece.mk P black 3 3 0 true) promotionBoard = [] ∧
  (Move.mk 4 5 0 true None ∈ calculateValidMoves blackLastStepPawn blackPromotionBoard ∧
   Move.z (Move.mk 4 5 0 true None) - Piece.z blackLastStepPawn = -1).
Proof.
  split; [|split].
  - refine (proj2 (pawn_moves_forward (Piece.mk P white 3 3 7 true) promotionBoard
                     1 1 7 eq_refl _) eq_refl).
    left. repeat split; reflexivity.
  - refine (proj2 (pawn_moves_forward (Piece.mk P black 3 3 0 true) promotionBoard
                     (-1) 6 0 eq_refl _) eq_refl).
    right. repeat split; reflexivity.
  - assert (Move.mk 4 5 0 true None
            ∈ calculateValidMoves blackLastStepPawn blackPromotionBoard) as Hm by in_moves.
    split; [exact Hm|].
    assert (Piece.color blackLastStepPawn = white ∧ -1 = 1 ∧ 6 = 1 ∧ 0 = 7
            ∨ Piece.color blackLastStepPawn = black ∧ -1 = -1 ∧ 6 = 6 ∧ 0 = 0) as Hcol
      by (right; repeat split; reflexivity).
    destruct (proj1 (pawn_moves_forward blackLastStepPawn blackPromotionBoard
                       (-1) 6 0 eq_refl Hcol) _ Hm) as (_ & _ & _ & [Hz|(Hz & _)] & _).
    + exact Hz.
    + discriminate Hz.
Defined.

(** X9. Rooks, bishops and queens move along clear lines. Every move of
    such a piece goes [k >= 1] steps along one of the 26 directions, every
    cell passed on the way is empty (no piece is jumped over), a rook's
    direction changes exactly one coordinate, and a bishop's at least two. *)
Theorem sliders_move_along_clear_lines (piece : Piece.t) (b : BoardState) (m : Move.t) :
  Piece.type piece = R ∨ Piece.type piece = B ∨ Piece.type piece = Q →
  m ∈ calculateValidMoves piece b →
  Move.castle m = None ∧
  ∃ dx dy dz k,
    oneStep dx dy dz ∧ 1 ≤ k ∧
    dest m = (Piece.x piece + dx * k, Piece.y piece + dy * k, Piece.z piece + dz * k) ∧
    (∀ j, 1 ≤ j < k →
       cell b (Piece.x piece + dx * j) (Piece.y piece + dy * j)
              (Piece.z piece + dz * j) = None) ∧
    (Piece.type piece = R → Z.abs dx + Z.abs dy + Z.abs dz = 1) ∧
    (Piece.type piece = B → 2 ≤ Z.abs dx + Z.abs dy + Z.abs dz).
Proof.
  intros Hty Hm.
  assert (Move.castle m = None) as Hplain.
  { apply calculateValidMoves_cases in Hm as [[? _]|[HK _]%castleMoves_king]; [done|].
    destruct Hty as [H|[H|H]]; congruence. }
  split; [done|].
  assert (pseudoLegal b piece m) as Hrule by by apply pseudoLegal_generated.
  unfold pseudoLegal in Hrule.
  assert (∃ dx dy dz k, (dx, dy, dz) ∈ all3DDirections ∧
            dirAllowed (Piece.type piece) (dx, dy, dz) ∧
            1 ≤ k ≤ maxDistance (Piece.type piece) ∧
            clearTo b (Piece.x piece) (Piece.y piece) (Piece.z piece) (dx, dy, dz) 1 k ∧
            m = rayMove b (Piece.x piece) (Piece.y piece) (Piece.z piece) (dx, dy, dz) k)
    as (dx & dy & dz & k & Hd & Hal & Hk & Hclear & ->).
  { destruct Hty as [H|[H|H]]; rewrite H in Hrule |- *;
      destruct Hrule as (dx & dy & dz & k & ? & ? & ? & ? & _ & _ & ?);
      by exists dx, dy, dz, k. }
  exists dx, dy, dz, k. split; [by apply all3DDirections_spec|].
  split; [lia|]. split; [done|]. split.
  - intros j Hj. by destruct (Hclear j Hj) as [_ ?].
  - split; intros H; rewrite H in Hal; cbn in Hal; lia.
Qed.

Lemma sliders_move_along_clear_lines_witness :
  Move.castle (Move.mk 0 7 0 true None) = None ∧
  ∃ dx dy dz k,
    oneStep dx dy dz ∧ 1 ≤ k ∧
    dest (Move.mk 0 7 0 true None) = (5 + dx * k, 7 + dy * k, 0 + dz * k) ∧
    (∀ j, 1 ≤ j < k → cell checkedBoard (5 + dx * j) (7 + dy * j) (0 + dz * j) = None) ∧
    (Q = R → Z.abs dx + Z.abs dy + Z.abs dz = 1) ∧
    (Q = B → 2 ≤ Z.abs dx + Z.abs dy + Z.abs dz).
Proof.
  apply (sliders_move_along_clear_lines rescuingQueen checkedBoard
           (Move.mk 0 7 0 true None)).
  - right. right. reflexivity.
  - in_moves.
Defined.

(** ** More about the applier *)

Lemma executeMove_commits st piece targetX targetY targetZ move st' :
  ¬ (Piece.type piece = P ∧ targetZ = promotionRank (Piece.color piece)) →
  executeMove st piece targetX targetY targetZ move = Done st' →
  (State.gameStatus st', State.capturedPieces st')
  = afterCapture st (Piece.color piece)
      (cell (State.boardState st) targetX targetY targetZ) ∧
  State.turn st' = flipTurn (State.turn st) ∧
  State.selectedPiece st' = None ∧
  State.promotionData st' = State.promotionData st ∧
  ∃ b1 b2,
    writeCell (State.boardState st) (Piece.x piece) (Piece.y piece) (Piece.z piece) None
    = Done b1 ∧
    writeCell b1 targetX targetY targetZ (Some (movedTo piece targetX targetY targetZ))
    = Done b2 ∧
    match Move.castle move with
    | None => State.boardState st' = b2
    | Some Castle.king =>
        relocateRook b2 7 (targetX - 1) targetY targetZ = Done (State.boardState st')
    | Some Castle.queen =>
        relocateRook b2 0 (targetX + 1) targetY targetZ = Done (State.boardState st')
    end.
Proof.
  intros Hnopromo. unfold executeMove.
  assert (bool_decide (Piece.type piece = P)
          && bool_decide (targetZ = promotionRank (Piece.color piece)) = false) as ->.
  { apply andb_false_iff. rewrite !bool_decide_eq_false.
    destruct (decide (Piece.type piece = P)) as [Hty|]; [right|by left].
    intros Hz. by apply Hnopromo. }
  intros (targetPiece & Hread%readCell_cell & Hrest)%bind_Done. subst targetPiece.
  destruct (afterCapture st _ _) as [status captured].
  apply bind_Done in Hrest as (b1 & Hw1 & Hrest).
  apply bind_Done in Hrest as (bn & Hbn & [= <-]). cbn.
  repeat (split; [done|]). exists b1.
  destruct (Move.castle move) as [side|].
  - apply bind_Done in Hbn as (b2 & Hw2 & Hrook). exists b2. by destruct side.
  - by exists bn.
Qed.

Lemma promotes_iff piece targetZ :
  promotes piece targetZ ↔
  Piece.type piece = P ∧ targetZ = promotionRank (Piece.color piece).
Proof. unfold promotes, promotionRank. destruct (Piece.color piece); naive_solver. Qed.

Lemma flipTurn_passed st st' :
  State.turn st' = flipTurn (State.turn st) → turnPassed st st'.
Proof. intros Hturn. split; intros Ht; by rewrite Ht in Hturn. Qed.

Lemma afterCapture_recorded st st' mover target :
  (State.gameStatus st', State.capturedPieces st') = afterCapture st mover target →
  captureRecorded mover target st st'.
Proof.
  unfold afterCapture, captureRecorded. intros Hcap. split.
  - intros ->. by simplify_eq.
  - intros t ->. injection Hcap as -> ->.
    split; [by intros ->|]. split; [by intros ->|].
    split; [intros Hk; by rewrite bool_decide_eq_false_2|].
    split; intros Hk ->; by rewrite bool_decide_eq_true_2.
Qed.

(** X10. The commit of a plain move touches two cells. When [executeMove]
    runs to its end on a move that is no castle and no promotion, the
    target cell holds the piece with its new coordinates and
    [hasMoved = true], the origin (if it is another cell) is empty, every
    other cell is as before, the piece found on the target is appended to
    the captured list of the color that is not the mover's (and ends the
    game with the mover's win if it is a king), the side to move changes,
    the selection is dropped and the pending promotion is left alone. *)
Theorem executeMove_plain_frame (st st' : State.t) (piece : Piece.t)
    (targetX targetY targetZ : Z) (move : Move.t) :
  Move.castle move = None →
  ¬ promotes piece targetZ →
  executeMove st piece targetX targetY targetZ move = Done st' →
  let b := State.boardState st in
  let b' := State.boardState st' in
  cell b' targetX targetY targetZ
  = Some (Piece.mk (Piece.type piece) (Piece.color piece) targetX targetY targetZ true) ∧
  ((Piece.x piece, Piece.y piece, Piece.z piece) ≠ (targetX, targetY, targetZ) →
   cell b' (Piece.x piece) (Piece.y piece) (Piece.z piece) = None) ∧
  (∀ x y z, (x, y, z) ≠ (Piece.x piece, Piece.y piece, Piece.z piece) →
            (x, y, z) ≠ (targetX, targetY, targetZ) →
            cell b' x y z = cell b x y z) ∧
  captureRecorded (Piece.color piece) (cell b targetX targetY targetZ) st st' ∧
  turnPassed st st' ∧
  State.selectedPiece st' = None ∧
  State.promotionData st' = State.promotionData st.
Proof.
  intros Hplain Hnopromo Hrun b b'. rewrite promotes_iff in Hnopromo.
  destruct (executeMove_commits _ _ _ _ _ _ _ Hnopromo Hrun)
    as (Hcap%afterCapture_recorded & Hturn%flipTurn_passed & Hsel & Hpd
        & b1 & b2 & Hw1 & Hw2 & Hb).
  rewrite Hplain in Hb. unfold b'. rewrite Hb.
  split; [|split; [|split; [|done]]].
  - rewrite (cell_writeCell _ _ _ _ _ _ _ _ _ Hw2). by rewrite bool_decide_eq_true_2.
  - intros Hne. rewrite (cell_writeCell _ _ _ _ _ _ _ _ _ Hw2).
    rewrite bool_decide_eq_false_2 by done.
    rewrite (cell_writeCell _ _ _ _ _ _ _ _ _ Hw1). by rewrite bool_decide_eq_true_2.
  - intros x y z Hno Hnt. rewrite (cell_writeCell _ _ _ _ _ _ _ _ _ Hw2).
    rewrite bool_decide_eq_false_2 by done.
    rewrite (cell_writeCell _ _ _ _ _ _ _ _ _ Hw1). by rewrite bool_decide_eq_false_2.
Qed.

Lemma executeMove_plain_frame_witness :
  (∃ st', executeMove (stateOf checkedBoard white) rescuingQueen 0 7 0
                      (Move.mk 0 7 0 true None) = Done st' ∧
          cell (State.boardState st') 0 7 0 = Some (Piece.mk Q white 0 7 0 true) ∧
          cell (State.boardState st') 5 7 0 = None ∧
          Captured.black (State.capturedPieces st') = [checkingRook] ∧
          Captured.white (State.capturedPieces st') = [] ∧
          State.turn st' = black) ∧
  (∃ st', executeMove (stateOf checkedBoard black) checkingRook 5 7 0
                      (Move.mk 5 7 0 true None) = Done st' ∧
          cell (State.boardState st') 5 7 0 = Some (Piece.mk R black 5 7 0 true) ∧
          cell (State.boardState st') 0 7 0 = None ∧
          Captured.white (State.capturedPieces st') = [rescuingQueen] ∧
          Captured.black (State.capturedPieces st') = [] ∧
          State.turn st' = white).
Proof.
  split.
  - eexists. split; [vm_compute; reflexivity|].
    match goal with
    | |- context [State.boardState ?s] =>
        destruct (executeMove_plain_frame (stateOf checkedBoard white) s rescuingQueen
                    0 7 0 (Move.mk 0 7 0 true None) eq_refl)
          as (Ht & Ho & _ & Hcap & Hturn & _)
    end.
    + intros [_ [[_ Hz]|[Hc _]]]; [discriminate Hz|discriminate Hc].
    + vm_compute. reflexivity.
    + destruct (proj2 Hcap checkingRook eq_refl) as (Hlists & _).
      split; [exact Ht|]. split; [apply Ho; discriminate|].
      split; [exact (proj1 (Hlists eq_refl))|]. split; [exact (proj2 (Hlists eq_refl))|].
      exact (proj1 Hturn eq_refl).
  - eexists. split; [vm_compute; reflexivity|].
    match goal with
    | |- context [State.boardState ?s] =>
        destruct (executeMove_plain_frame (stateOf checkedBoard black) s checkingRook
                    5 7 0 (Move.mk 5 7 0 true None) eq_refl)
          as (Ht & Ho & _ & Hcap & Hturn & _)
    end.
    + intros [Hty _]. discriminate Hty.
    + vm_compute. reflexivity.
    + destruct (proj2 Hcap rescuingQueen eq_refl) as (_ & Hlists & _).
      split; [exact Ht|]. split; [apply Ho; discriminate|].
      split; [exact (proj1 (Hlists eq_refl))|]. split; [exact (proj2 (Hlists eq_refl))|].
      exact (proj2 Hturn eq_refl).
Defined.

Ltac through Hw := rewrite (cell_writeCell _ _ _ _ _ _ _ _ _ Hw).
Ltac other_cell :=
  rewrite bool_decide_eq_false_2
    by (first [assumption | let H := fresh in intros H; injection H; intros; lia]).
Ltac this_cell := rewrite bool_decide_eq_true_2 by reflexivity.

(** X11. Castling relocates king and rook. For a king of the board on its
    first column [x = 4], [executeMove] runs a generated castle move to its
    end: the king stands two columns further with [hasMoved = true], the
    rook of the corner stands on the cell the king passed over with
    [hasMoved = true], the king's and the rook's first cells are empty,
    every other cell is as before, nothing is captured, the game status is
    unchanged and the side to move changes. *)
Theorem castle_relocates_king_and_rook (st : State.t) (piece : Piece.t) (m : Move.t)
    (side : Castle.t) :
  boardInvariant (State.boardState st) →
  cell (State.boardState st) (Piece.x piece) (Piece.y piece) (Piece.z piece) = Some piece →
  Piece.x piece = 4 →
  m ∈ calculateValidMoves piece (State.boardState st) →
  Move.castle m = Some side →
  let b := State.boardState st in
  let y := Piece.y piece in
  let z := Piece.z piece in
  dest m = (kingTo side, y, z) ∧
  ∃ st', executeMove st piece (Move.x m) (Move.y m) (Move.z m) m = Done st' ∧
    let b' := State.boardState st' in
    cell b' 4 y z = None ∧
    cell b' (kingTo side) y z = Some (Piece.mk K (Piece.color piece) (kingTo side) y z true) ∧
    cell b' (rookFrom side) y z = None ∧
    cell b' (rookTo side) y z = Some (Piece.mk R (Piece.color piece) (rookTo side) y z true) ∧
    (∀ x' y' z', (x', y', z') ≠ (4, y, z) → (x', y', z') ≠ (kingTo side, y, z) →
                 (x', y', z') ≠ (rookFrom side, y, z) → (x', y', z') ≠ (rookTo side, y, z) →
                 cell b' x' y' z' = cell b x' y' z') ∧
    State.capturedPieces st' = State.capturedPieces st ∧
    State.gameStatus st' = State.gameStatus st ∧
    turnPassed st st'.
Proof.
  intros Hinv Hon Hx Hm Hside b y z. pose proof Hinv as (Hc & Hp & _).
  assert (m ∈ castleMoves piece b) as Hcm.
  { apply calculateValidMoves_cases in Hm as [[Hnone _]|?]; [congruence|done]. }
  apply in_castleMoves in Hcm as [(HK & _) Hopen].
  assert (m = Move.mk (kingTo side) y z false (Some side) ∧
          cell b (kingTo side) y z = None ∧
          ∃ rook, cell b (rookFrom side) y z = Some rook ∧ Piece.type rook = R ∧
                  Piece.color rook = Piece.color piece) as (-> & Hempty & rook & Hrook & HR & HRc).
  { destruct Hopen as [[-> Ho]|[-> Ho]]; cbn in Hside; injection Hside as <-;
      unfold kingsideMove, queensideMove; rewrite Hx; cbn.
    - destruct Ho as ((rook & Hr & HR & _ & HRc) & _ & H6 & _). eauto 8.
    - destruct Ho as ((rook & Hr & HR & _ & HRc) & _ & H2 & _). eauto 8. }
  split; [done|]. cbn [Move.x Move.y Move.z].
  destruct (executeMove_Done st piece (Move.mk (kingTo side) y z false (Some side)) Hc Hon Hm)
    as [st' Hrun]. cbn [Move.x Move.y Move.z] in Hrun.
  exists st'. split; [done|].
  assert (¬ (Piece.type piece = P ∧ z = promotionRank (Piece.color piece))) as Hnp.
  { intros [Hty _]. congruence. }
  destruct (executeMove_commits _ _ _ _ _ _ _ Hnp Hrun) as
    (Hcap & Hturn%flipTurn_passed & _ & _ & b1 & b2 & Hw1 & Hw2 & Hb).
  fold b in Hcap, Hw1. rewrite Hempty in Hcap. cbn in Hcap. injection Hcap as Hstatus Hcaptured.
  cbn [Move.castle] in Hb. fold y z in Hw1. rewrite Hx in Hw1.
  unfold movedTo in Hw2. rewrite HK in Hw2.
  destruct (Hp _ _ _ _ Hrook) as (_ & Hry & Hrz).
  assert (relocateRook b2 (rookFrom side) (rookTo side) y z = Done (State.boardState st'))
    as Hrel by (by destruct side).
  unfold relocateRook in Hrel.
  apply bind_Done in Hrel as (rook' & Hread%readCell_cell & Hrel).
  assert (rook' = Some rook) as ->.
  { rewrite Hread. through Hw2.
    rewrite bool_decide_eq_false_2 by (destruct side; intros [=]).
    through Hw1. rewrite bool_decide_eq_false_2 by (destruct side; intros [=]). done. }
  apply bind_Done in Hrel as (b3 & Hw3 & Hw4). rewrite HR, HRc, Hry, Hrz in Hw4.
  cbn zeta. split; [|split; [|split; [|split; [|split; [|done]]]]].
  - through Hw4. rewrite bool_decide_eq_false_2 by (destruct side; intros [=]).
    through Hw3. rewrite bool_decide_eq_false_2 by (destruct side; intros [=]).
    through Hw2. rewrite bool_decide_eq_false_2 by (destruct side; intros [=]).
    through Hw1. by this_cell.
  - through Hw4. rewrite bool_decide_eq_false_2 by (destruct side; intros [=]).
    through Hw3. rewrite bool_decide_eq_false_2 by (destruct side; intros [=]).
    through Hw2. by this_cell.
  - through Hw4. rewrite bool_decide_eq_false_2 by (destruct side; intros [=]).
    through Hw3. by this_cell.
  - through Hw4. by this_cell.
  - intros x' y' z' H4 Hk Hf Ht.
    through Hw4. other_cell. through Hw3. other_cell.
    through Hw2. other_cell. through Hw1. by other_cell.
Qed.

Lemma blackCastleBoard_ok : boardInvariant blackCastleBoard.
Proof. check_board. Qed.

Lemma castle_relocates_king_and_rook_witness :
  (∃ st', executeMove (stateOf castleBoard white) homeKing 2 3 0 (queensideMove homeKing)
          = Done st' ∧
          cell (State.boardState st') 2 3 0 = Some (Piece.mk K white 2 3 0 true) ∧
          cell (State.boardState st') 3 3 0 = Some (Piece.mk R white 3 3 0 true) ∧
          cell (State.boardState st') 0 3 0 = None ∧
          cell (State.boardState st') 4 3 0 = None ∧
          State.turn st' = black) ∧
  (∃ st', executeMove (stateOf blackCastleBoard black) blackHomeKing 6 3 7
                      (kingsideMove blackHomeKing)
          = Done st' ∧
          cell (State.boardState st') 6 3 7 = Some (Piece.mk K black 6 3 7 true) ∧
          cell (State.boardState st') 5 3 7 = Some (Piece.mk R black 5 3 7 true) ∧
          cell (State.boardState st') 7 3 7 = None ∧
          cell (State.boardState st') 4 3 7 = None ∧
          State.turn st' = white).
Proof.
  split.
  - destruct (castle_relocates_king_and_rook (stateOf castleBoard white) homeKing
                (queensideMove homeKing) Castle.queen)
      as (_ & st' & Hrun & H4 & Hk & Hf & Ht & _ & _ & _ & Hturn).
    + apply castleBoard_ok.
    + reflexivity.
    + reflexivity.
    + in_moves.
    + reflexivity.
    + exists st'. split; [exact Hrun|]. split; [exact Hk|]. split; [exact Ht|].
      split; [exact Hf|]. split; [exact H4|]. exact (proj1 Hturn eq_refl).
  - destruct (castle_relocates_king_and_rook (stateOf blackCastleBoard black)
                blackHomeKing (kingsideMove blackHomeKing) Castle.king)
      as (_ & st' & Hrun & H4 & Hk & Hf & Ht & _ & _ & _ & Hturn).
    + apply blackCastleBoard_ok.
    + reflexivity.
    + reflexivity.
    + in_moves.
    + reflexivity.
    + exists st'. split; [exact Hrun|]. split; [exact Hk|]. split; [exact Ht|].
      split; [exact Hf|]. split; [exact H4|]. exact (proj2 Hturn eq_refl).
Defined.

(** ** Clicks *)

Lemma handleSquareClick_inert st validMoves x y z :
  State.gameStatus st ≠ "active"%string ∨ State.promotionData st ≠ None →
  handleSquareClick st validMoves x y z = Done st.
Proof.
  intros Hguard. unfold handleSquareClick.
  destruct Hguard as [Hs|Hp].
  - by rewrite bool_decide_eq_true_2.
  - destruct (State.promotionData st); [by rewrite orb_true_r|done].
Qed.

Lemma winsStatus_not_active color : winsStatus color ≠ "active"%string.
Proof. by destruct color. Qed.

(** X12. The capture of a king ends the game. When [executeMove] commits a
    move onto a cell that holds a king, the game status becomes the win of
    the mover's color, ["WHITE WINS!"] or ["BLACK WINS!"], the side to move
    changes all the same, and from then on [handleSquareClick] ignores
    every click. *)
Theorem king_capture_ends_game (st st' : State.t) (piece king : Piece.t)
    (targetX targetY targetZ : Z) (move : Move.t) :
  ¬ promotes piece targetZ →
  executeMove st piece targetX targetY targetZ move = Done st' →
  cell (State.boardState st) targetX targetY targetZ = Some king →
  Piece.type king = K →
  (Piece.color piece = white → State.gameStatus st' = "WHITE WINS!"%string) ∧
  (Piece.color piece = black → State.gameStatus st' = "BLACK WINS!"%string) ∧
  turnPassed st st' ∧
  ∀ validMoves x y z, handleSquareClick st' validMoves x y z = Done st'.
Proof.
  intros Hnp Hrun Hking HK. rewrite promotes_iff in Hnp.
  destruct (executeMove_commits _ _ _ _ _ _ _ Hnp Hrun)
    as (Hcap & Hturn%flipTurn_passed & _).
  rewrite Hking in Hcap. cbn in Hcap. rewrite bool_decide_eq_true_2 in Hcap by done.
  injection Hcap as Hstatus _.
  split; [intros Hw; by rewrite Hstatus, Hw|].
  split; [intros Hb; by rewrite Hstatus, Hb|]. split; [done|].
  intros validMoves x y z. apply handleSquareClick_inert. left.
  rewrite Hstatus. apply winsStatus_not_active.
Qed.

Lemma king_capture_ends_game_witness :
  (∃ st', executeMove (stateOf checkedBoard black) checkingRook 0 0 0
                      (Move.mk 0 0 0 true None) = Done st' ∧
          State.gameStatus st' = "BLACK WINS!"%string ∧
          State.turn st' = white ∧
          ∀ validMoves x y z, handleSquareClick st' validMoves x y z = Done st') ∧
  (∃ st', executeMove (stateOf blackCheckBoard white) (Piece.mk R white 7 0 7 true) 7 7 7
                      (Move.mk 7 7 7 true None) = Done st' ∧
          State.gameStatus st' = "WHITE WINS!"%string ∧
          State.turn st' = black ∧
          ∀ validMoves x y z, handleSquareClick st' validMoves x y z = Done st').
Proof.
  split.
  - eexists. split; [vm_compute; reflexivity|].
    match goal with
    | |- context [State.gameStatus ?s] =>
        destruct (king_capture_ends_game (stateOf checkedBoard black) s checkingRook
                    checkedKing 0 0 0 (Move.mk 0 0 0 true None))
          as (_ & Hstatus & Hturn & Hclicks)
    end.
    + intros [Hty _]. discriminate Hty.
    + vm_compute. reflexivity.
    + reflexivity.
    + reflexivity.
    + split; [exact (Hstatus eq_refl)|]. split; [exact (proj2 Hturn eq_refl)|].
      exact Hclicks.
  - eexists. split; [vm_compute; reflexivity|].
    match goal with
    | |- context [State.gameStatus ?s] =>
        destruct (king_capture_ends_game (stateOf blackCheckBoard white) s
                    (Piece.mk R white 7 0 7 true) blackCheckedKing 7 7 7
                    (Move.mk 7 7 7 true None))
          as (Hstatus & _ & Hturn & Hclicks)
    end.
    + intros [Hty _]. discriminate Hty.
    + vm_compute. reflexivity.
    + reflexivity.
    + reflexivity.
    + split; [exact (Hstatus eq_refl)|]. split; [exact (proj1 Hturn eq_refl)|].
      exact Hclicks.
Defined.

(** X13. A pending promotion blocks the board. Once [executeMove] has
    answered a pawn's move onto its promotion layer ([z = 7] for white,
    [z = 0] for black) by the pending promotion, [handleSquareClick]
    ignores every click; [handlePromotion] then, whatever the kind, leaves
    no promotion pending and no piece selected, and the side to move
    changes. *)
Theorem pending_promotion_blocks_clicks (st : State.t) (piece : Piece.t)
    (targetX targetY targetZ : Z) (move : Move.t) :
  promotes piece targetZ →
  ∃ st1, executeMove st piece targetX targetY targetZ move = Done st1 ∧
    (∀ validMoves x y z, handleSquareClick st1 validMoves x y z = Done st1) ∧
    (∀ promotedTo st2, handlePromotion st1 promotedTo = Done st2 →
       State.promotionData st2 = None ∧ State.selectedPiece st2 = None ∧
       turnPassed st st2).
Proof.
  intros [Hty Hz]%promotes_iff. eexists. split.
  { unfold executeMove. by rewrite !bool_decide_eq_true_2. }
  split.
  - intros validMoves x y z. apply handleSquareClick_inert. by right.
  - intros promotedTo st2. unfold handlePromotion. cbn.
    intros (b1 & _ & Hrest)%bind_Done.
    apply bind_Done in Hrest as (targetPiece & _ & Hrest).
    destruct (afterCapture _ _ targetPiece) as [status captured].
    apply bind_Done in Hrest as (b2 & _ & [= <-]).
    split; [done|]. split; [done|]. by apply flipTurn_passed.
Qed.

Lemma pending_promotion_blocks_clicks_witness :
  (∃ st1, executeMove (stateOf promotionBoard white) lastStepPawn 3 2 7
                      (Move.mk 3 2 7 true None) = Done st1 ∧
     (∀ validMoves x y z, handleSquareClick st1 validMoves x y z = Done st1) ∧
     (∀ promotedTo st2, handlePromotion st1 promotedTo = Done st2 →
        State.promotionData st2 = None ∧ State.selectedPiece st2 = None ∧
        State.turn st2 = black)) ∧
  (∃ st1, executeMove (stateOf blackPromotionBoard black) blackLastStepPawn 4 5 0
                      (Move.mk 4 5 0 true None) = Done st1 ∧
     (∀ validMoves x y z, handleSquareClick st1 validMoves x y z = Done st1) ∧
     (∀ promotedTo st2, handlePromotion st1 promotedTo = Done st2 →
        State.promotionData st2 = None ∧ State.selectedPiece st2 = None ∧
        State.turn st2 = white)).
Proof.
  split.
  - destruct (pending_promotion_blocks_clicks (stateOf promotionBoard white) lastStepPawn
                3 2 7 (Move.mk 3 2 7 true None)) as (st1 & Hrun & Hclicks & Hcommit).
    + split; [reflexivity|]. left. split; reflexivity.
    + exists st1. split; [exact Hrun|]. split; [exact Hclicks|].
      intros promotedTo st2 Hrun2.
      destruct (Hcommit promotedTo st2 Hrun2) as (Hpd & Hsel & Hturn).
      split; [exact Hpd|]. split; [exact Hsel|]. exact (proj1 Hturn eq_refl).
  - destruct (pending_promotion_blocks_clicks (stateOf blackPromotionBoard black)
                blackLastStepPawn 4 5 0 (Move.mk 4 5 0 true None))
      as (st1 & Hrun & Hclicks & Hcommit).
    + split; [reflexivity|]. right. split; reflexivity.
    + exists st1. split; [exact Hrun|]. split; [exact Hclicks|].
      intros promotedTo st2 Hrun2.
      destruct (Hcommit promotedTo st2 Hrun2) as (Hpd & Hsel & Hturn).
      split; [exact Hpd|]. split; [exact Hsel|]. exact (proj2 Hturn eq_refl).
Defined.

Lemma find_movesTo validMoves x y z m :
  List.find (movesTo x y z) validMoves = Some m →
  m ∈ validMoves ∧ (Move.x m, Move.y m, Move.z m) = (x, y, z).
Proof.
  intros [Hin Hto]%find_some. split; [by apply list_elem_of_In|].
  unfold movesTo in Hto. rewrite !andb_true_iff, !bool_decide_eq_true in Hto.
  by destruct Hto as [[-> ->] ->].
Qed.

Lemma find_unique validMoves m x y z :
  m ∈ validMoves → NoDup (map dest validMoves) → dest m = (x, y, z) →
  List.find (movesTo x y z) validMoves = Some m.
Proof.
  intros Hin Hnd Hdest. induction validMoves as [|m' l IH]; [by apply elem_of_nil in Hin|].
  cbn [List.find]. cbn [map] in Hnd. apply NoDup_cons in Hnd as [Hnotin Hnd].
  destruct (movesTo x y z m') eqn:Hto.
  - apply elem_of_cons in Hin as [->|Hin]; [done|]. exfalso. apply Hnotin.
    unfold movesTo in Hto. rewrite !andb_true_iff, !bool_decide_eq_true in Hto.
    destruct Hto as [[Hx Hy] Hz].
    assert (dest m' = dest m) as -> by (rewrite Hdest; unfold dest; congruence).
    apply list_elem_of_In, in_map, list_elem_of_In. done.
  - apply elem_of_cons in Hin as [->|Hin]; [|by apply IH].
    unfold movesTo in Hto. unfold dest in Hdest. injection Hdest as Hx Hy Hz.
    by rewrite !bool_decide_eq_true_2 in Hto by done.
Qed.

(** The destination of a generated move of a piece of the board lies in the
    cube. *)
Lemma generated_dest_in_bounds b piece m :
  cubic b →
  cell b (Piece.x piece) (Piece.y piece) (Piece.z piece) = Some piece →
  m ∈ calculateValidMoves piece b →
  isWithinBounds (Move.x m) (Move.y m) (Move.z m) = true.
Proof.
  intros Hc Hon [Hplain|Hcastle]%calculateValidMoves_cases; [apply Hplain|].
  destruct (castle_column _ _ _ Hon Hc Hcastle) as [Hrow [[-> Hx]|[-> Hx]]];
    apply isWithinBounds_true in Hrow; apply isWithinBounds_true;
    unfold SIZE in *; cbn; lia.
Qed.

(** What a click does, case by case. *)
Lemma click_cases st x y z st' :
  click st x y z = Done st' →
  st' = st ∨
  (State.gameStatus st = "active"%string ∧ State.promotionData st = None ∧
   ((∃ sel, st' = setSelectedPiece st sel ∧
            (sel = None ∨ ∃ cp, sel = Some cp ∧
                                cell (State.boardState st) x y z = Some cp ∧
                                Piece.color cp = State.turn st)) ∨
    (∃ sel m, State.selectedPiece st = Some sel ∧
              m ∈ calculateValidMoves sel (State.boardState st) ∧
              (Move.x m, Move.y m, Move.z m) = (x, y, z) ∧
              executeMove st sel x y z m = Done st'))).
Proof.
  unfold click, handleSquareClick.
  destruct (bool_decide (State.gameStatus st ≠ "active"%string)) eqn:Hs;
    cbn [orb]; [intros [= <-]; by left|].
  apply bool_decide_eq_false in Hs. apply dec_stable in Hs.
  destruct (State.promotionData st) as [pd|] eqn:Hpd; [intros [= <-]; by left|].
  intros (clickedPiece & Hread%readCell_cell & Hrest)%bind_Done. subst clickedPiece.
  assert (∀ cp, ownPiece st (cell (State.boardState st) x y z) = Some cp →
                cell (State.boardState st) x y z = Some cp ∧
                Piece.color cp = State.turn st) as Hown.
  { intros cp. unfold ownPiece.
    destruct (cell (State.boardState st) x y z) as [cp'|]; [|done].
    case_bool_decide; [|done]. by intros [= <-]. }
  right. split; [done|]. split; [done|].
  unfold validMovesOf in Hrest.
  destruct (State.selectedPiece st) as [sel|] eqn:Hsel.
  - destruct (List.find _ _) as [m|] eqn:Hfind.
    + apply find_movesTo in Hfind as [Hm Hto]. right. by exists sel, m.
    + left. destruct (ownPiece st _) as [cp|] eqn:Ho; injection Hrest as <-.
      * exists (Some cp). split; [done|]. right. exists cp. split; [done|]. by apply Hown.
      * exists None. split; [done|]. by left.
  - left. destruct (ownPiece st _) as [cp|] eqn:Ho; injection Hrest as <-.
    + exists (Some cp). split; [done|]. right. exists cp. split; [done|]. by apply Hown.
    + exists None. split; [|by left]. destruct st; cbn in *. by rewrite Hsel.
Qed.

(** X14. A click moves pieces only by the rules. When a click of the
    running application returns, either the board, the side to move, the
    captured lists, the game status and the pending promotion are all as
    before (the click was ignored or only changed the selection), or the
    click executed, with [executeMove], a move that [calculateValidMoves]
    generates for the selected piece, which is a piece of the board of the
    side to move, onto the clicked cell. *)
Theorem click_moves_only_by_the_rules (st st' : State.t) (x y z : Z) :
  appInvariant st →
  click st x y z = Done st' →
  (State.boardState st' = State.boardState st ∧ State.turn st' = State.turn st ∧
   State.capturedPieces st' = State.capturedPieces st ∧
   State.gameStatus st' = State.gameStatus st ∧
   State.promotionData st' = State.promotionData st) ∨
  (∃ sel m,
     State.selectedPiece st = Some sel ∧ Piece.color sel = State.turn st ∧
     cell (State.boardState st) (Piece.x sel) (Piece.y sel) (Piece.z sel) = Some sel ∧
     m ∈ calculateValidMoves sel (State.boardState st) ∧
     (Move.x m, Move.y m, Move.z m) = (x, y, z) ∧
     executeMove st sel x y z m = Done st').
Proof.
  intros (_ & Hsel & _) [->|(_ & _ & [(sel & -> & _)|(sel & m & Hs & Hm & Hto & Hrun)])]%click_cases.
  - by left.
  - by left.
  - right. exists sel, m. destruct (Hsel _ Hs) as [Hon Hcol]. done.
Qed.

(** A plain opening: the white pawn on [(0, 0, 1)] selected. *)
Lemma click_moves_only_by_the_rules_witness :
  ∃ st', click (setSelectedPiece initialState (Some (Piece.mk P white 0 0 1 false))) 0 0 2
         = Done st' ∧
         ∃ sel m,
           sel = Piece.mk P white 0 0 1 false ∧
           m ∈ calculateValidMoves sel initializeBoardState ∧
           executeMove (setSelectedPiece initialState (Some sel)) sel 0 0 2 m = Done st'.
Proof.
  eexists. split; [vm_compute; reflexivity|].
  match goal with
  | |- context [Done ?s] =>
      destruct (click_moves_only_by_the_rules
                  (setSelectedPiece initialState (Some (Piece.mk P white 0 0 1 false)))
                  s 0 0 2) as [(Hb & _)|(sel & m & Hs & _ & _ & Hm & _ & Hrun)]
  end.
  - split; [apply initializeBoardState_ok|]. split.
    + intros sel [= <-]. split; reflexivity.
    + intros pd Hpd. discriminate Hpd.
  - vm_compute. reflexivity.
  - exfalso. apply (f_equal (fun b => cell b 0 0 2)) in Hb. vm_compute in Hb.
    discriminate Hb.
  - injection Hs as <-. exists (Piece.mk P white 0 0 1 false), m.
    split; [reflexivity|]. split; [exact Hm|exact Hrun].
Defined.

Lemma executeMove_keeps_app st sel m st' :
  appInvariant st → State.promotionData st = None →
  State.selectedPiece st = Some sel →
  m ∈ calculateValidMoves sel (State.boardState st) →
  executeMove st sel (Move.x m) (Move.y m) (Move.z m) m = Done st' →
  appInvariant st'.
Proof.
  intros (Hinv & Hsel & _) Hpd Hs Hm Hrun.
  destruct (Hsel _ Hs) as [Hon Hcol].
  pose proof (generated_dest_in_bounds _ _ _ (proj1 Hinv) Hon Hm) as Htb.
  destruct (decide (Piece.type sel = P ∧ Move.z m = promotionRank (Piece.color sel)))
    as [[Hty Hz]|Hnp].
  - unfold executeMove in Hrun. rewrite !bool_decide_eq_true_2 in Hrun by done.
    injection Hrun as <-. split; [done|]. split.
    + intros sel' Hs'. cbn in Hs'. rewrite Hs in Hs'. injection Hs' as <-. done.
    + intros pd [= <-]. done.
  - destruct (executeMove_commits _ _ _ _ _ _ _ Hnp Hrun) as (_ & _ & Hnosel & Hnopd & _).
    split; [|split].
    + apply shaped_invariant. eapply executeMove_shaped; [|exact Hrun].
      by apply shaped_invariant.
    + intros sel' Hs'. congruence.
    + intros pd Hpd'. congruence.
Qed.

Lemma app_steps :
  appInvariant initialState ∧
  (∀ st x y z, appInvariant st → isWithinBounds x y z = true →
               ∃ st', click st x y z = Done st' ∧ appInvariant st') ∧
  (∀ st promotedTo, appInvariant st →
                    ∃ st', handlePromotion st promotedTo = Done st' ∧ appInvariant st').
Proof.
  split; [|split].
  - split; [apply initializeBoardState_ok|]. split; [by intros sel Hs|by intros pd Hpd].
  - intros st x y z Hst Hb. pose proof Hst as (Hinv & Hsel & Hpend).
    pose proof Hinv as (Hc & Hp & _).
    unfold click, handleSquareClick.
    destruct (bool_decide (State.gameStatus st ≠ "active"%string)); cbn [orb]; [eauto|].
    destruct (State.promotionData st) as [pd|] eqn:Hpd; [eauto|].
    rewrite (readCell_Done _ _ _ _ Hc Hb). cbn.
    assert (∀ cp, ownPiece st (cell (State.boardState st) x y z) = Some cp →
                  appInvariant (setSelectedPiece st (Some cp))) as Hpick.
    { intros cp. unfold ownPiece.
      destruct (cell (State.boardState st) x y z) as [cp'|] eqn:Hcell; [|done].
      case_bool_decide as Hcol; [|done]. intros [= <-].
      destruct (Hp _ _ _ _ Hcell) as (Hx & Hy & Hz).
      split; [done|]. split.
      - intros sel [= <-]. by rewrite Hx, Hy, Hz.
      - intros pd' Hpd'. cbn in Hpd'. congruence. }
    assert (appInvariant (setSelectedPiece st None)) as Hdrop.
    { split; [done|]. split; [by intros sel Hs|].
      intros pd' Hpd'. cbn in Hpd'. congruence. }
    unfold validMovesOf. destruct (State.selectedPiece st) as [sel|] eqn:Hs.
    + destruct (List.find _ _) as [m|] eqn:Hfind.
      * apply find_movesTo in Hfind as [Hm Hto]. injection Hto as <- <- <-.
        destruct (Hsel _ eq_refl) as [Hon _].
        destruct (executeMove_Done st sel m Hc Hon Hm) as [st' Hrun].
        exists st'. split; [done|].
        exact (executeMove_keeps_app st sel m st' Hst Hpd Hs Hm Hrun).
      * destruct (ownPiece st _) as [cp|] eqn:Ho; eauto.
    + destruct (ownPiece st _) as [cp|] eqn:Ho; eauto.
  - intros st promotedTo Hst. pose proof Hst as (Hinv & _ & Hpend).
    destruct (State.promotionData st) as [pd|] eqn:Hpd.
    + destruct (Hpend _ eq_refl) as [Hon Htb]. pose proof Hinv as (Hc & _).
      pose proof (cell_Some_bounds _ _ _ _ _ Hc Hon) as Hob.
      destruct (handlePromotion_Done st pd promotedTo Hc Hpd Hob Htb) as (st' & Hrun & _).
      exists st'. split; [done|].
      pose proof Hrun as Hshape%handlePromotion_shaped; [|by apply shaped_invariant].
      unfold handlePromotion in Hrun. rewrite Hpd in Hrun.
      apply bind_Done in Hrun as (b1 & _ & Hrest).
      apply bind_Done in Hrest as (targetPiece & _ & Hrest).
      destruct (afterCapture _ _ targetPiece) as [status captured].
      apply bind_Done in Hrest as (b2 & _ & [= <-]).
      split; [by apply shaped_invariant|]. split; [by intros sel Hs|by intros pd' Hpd'].
    + exists st. split; [|done]. unfold handlePromotion. by rewrite Hpd.
Qed.

(** X15. The application never gets stuck and keeps its invariant. The
    initial state satisfies the invariant of the application; from a state
    that satisfies it, a click on any cell of the cube returns a state that
    satisfies it, in particular every index the handlers compute is inside
    the board; and so does [handlePromotion] for whatever kind. *)
Theorem app_keeps_invariant :
  appInvariant initialState ∧
  (∀ st x y z, appInvariant st → isWithinBounds x y z = true →
               ∃ st', click st x y z = Done st' ∧ appInvariant st') ∧
  (∀ st promotedTo, appInvariant st →
                    ∃ st', handlePromotion st promotedTo = Done st' ∧ appInvariant st').
Proof. exact app_steps. Qed.

Lemma app_keeps_invariant_witness :
  ∃ st', click initialState 0 0 1 = Done st' ∧ appInvariant st'.
Proof.
  apply (proj1 (proj2 app_keeps_invariant) initialState 0 0 1).
  - exact (proj1 app_keeps_invariant).
  - reflexivity.
Defined.

(** X16. A click on the destination of a generated move executes that very
    move. While the game is active and no promotion is pending, with a piece
    selected, a click on the destination of a move that
    [calculateValidMoves] returns for the selection does what [executeMove]
    does with that move: no other entry of the list is picked in its
    place. *)
Theorem click_executes_the_move (st : State.t) (sel : Piece.t) (m : Move.t) :
  appInvariant st →
  State.gameStatus st = "active"%string → State.promotionData st = None →
  State.selectedPiece st = Some sel →
  m ∈ calculateValidMoves sel (State.boardState st) →
  click st (Move.x m) (Move.y m) (Move.z m)
  = executeMove st sel (Move.x m) (Move.y m) (Move.z m) m.
Proof.
  intros (Hinv & Hsel & _) Hactive Hpd Hs Hm. destruct (Hsel _ Hs) as [Hon _].
  pose proof Hinv as (Hc & _).
  pose proof (generated_dest_in_bounds _ _ _ Hc Hon Hm) as Htb.
  unfold click, handleSquareClick, validMovesOf.
  rewrite Hactive, Hpd, Hs. cbn [orb].
  rewrite bool_decide_eq_false_2 by (intros Hn; by apply Hn).
  rewrite (readCell_Done _ _ _ _ Hc Htb). cbn.
  by rewrite (find_unique _ m _ _ _ Hm (destinations_NoDup _ _) eq_refl).
Qed.

Lemma click_executes_the_move_witness :
  click (setSelectedPiece (stateOf castleBoard white) (Some homeKing)) 6 3 0
  = executeMove (setSelectedPiece (stateOf castleBoard white) (Some homeKing))
                homeKing 6 3 0 (kingsideMove homeKing).
Proof.
  apply (click_executes_the_move
           (setSelectedPiece (stateOf castleBoard white) (Some homeKing))
           homeKing (kingsideMove homeKing)).
  - split; [apply castleBoard_ok|]. split.
    + intros sel [= <-]. split; reflexivity.
    + intros pd Hpd. discriminate Hpd.
  - reflexivity.
  - reflexivity.
  - reflexivity.
  - in_moves.
Defined.

(** X17. [handleSquareClick] does not guard its coordinates. While the game
    is active and no promotion is pending, a click with [x] or [y] outside
    the board stops with a [TypeError] (an index applied to [undefined]);
    with [x] and [y] inside and [z] outside, the cell reads as empty: with
    no piece selected the click changes nothing. *)
Theorem handleSquareClick_out_of_range (st : State.t) (validMoves : list Move.t)
    (x y z : Z) :
  cubic (State.boardState st) →
  State.gameStatus st = "active"%string → State.promotionData st = None →
  (¬ (0 ≤ x < SIZE ∧ 0 ≤ y < SIZE) →
   handleSquareClick st validMoves x y z = TypeError) ∧
  (0 ≤ x < SIZE ∧ 0 ≤ y < SIZE → ¬ (0 ≤ z < SIZE) →
   State.selectedPiece st = None →
   handleSquareClick st validMoves x y z = Done st).
Proof.
  intros Hc Hactive Hpd. unfold handleSquareClick. rewrite Hactive, Hpd. cbn [orb].
  rewrite bool_decide_eq_false_2 by (intros Hn; by apply Hn).
  unfold readCell. split.
  - intros Hout. destruct (at_ (State.boardState st) x) as [col|] eqn:Hx; [|done].
    pose proof (cubic_at_col _ _ _ Hc Hx) as [Hlc _].
    destruct (at_ col y) as [row|] eqn:Hy; [|done].
    apply at_Some_range in Hx, Hy. destruct Hc as [Hlb _].
    exfalso. apply Hout. unfold SIZE in *. lia.
  - intros [Hxr Hyr] Hz Hs.
    destruct (at_is_Some (State.boardState st) x) as [col Hx].
    { destruct Hc as [-> _]. unfold SIZE in *. lia. }
    pose proof (cubic_at_col _ _ _ Hc Hx) as [Hlc _].
    destruct (at_is_Some col y) as [row Hy]. { rewrite Hlc. unfold SIZE in *. lia. }
    pose proof (cubic_at_row _ _ _ _ _ Hc Hx Hy) as Hlr.
    rewrite Hx, Hy. cbn.
    destruct (at_ row z) as [c|] eqn:Hzz.
    { apply at_Some_range in Hzz. exfalso. apply Hz. unfold SIZE in *. lia. }
    by rewrite Hs.
Qed.

Lemma handleSquareClick_out_of_range_witness :
  handleSquareClick initialState [] 8 0 0 = TypeError ∧
  handleSquareClick initialState [] 0 0 8 = Done initialState.
Proof.
  assert (cubic initializeBoardState) as Hc by check_cubic.
  split.
  - apply (proj1 (handleSquareClick_out_of_range initialState [] 8 0 0 Hc eq_refl eq_refl)).
    unfold SIZE. lia.
  - apply (proj2 (handleSquareClick_out_of_range initialState [] 0 0 8 Hc eq_refl eq_refl)).
    + unfold SIZE. lia.
    + unfold SIZE. lia.
    + reflexivity.
Defined.

(** ** Material *)

Lemma material_from (a : Z) (pieces : list Piece.t) :
  foldl (fun sum p => sum + PIECE_VALUES (Piece.type p)) a pieces = a + material pieces.
Proof.
  unfold material. revert a. induction pieces as [|p l IH]; intros a; cbn; [lia|].
  rewrite (IH (a + _)), (IH (0 + _)). lia.
Qed.

Lemma material_cons p pieces :
  material (p :: pieces) = PIECE_VALUES (Piece.type p) + material pieces.
Proof. unfold material at 1. cbn. by rewrite material_from. Qed.

Lemma material_snoc pieces p :
  material (pieces ++ [p]) = material pieces + PIECE_VALUES (Piece.type p).
Proof. unfold material at 1. rewrite foldl_app. cbn. by rewrite material_from. Qed.

Lemma material_Permutation pieces pieces' :
  Permutation pieces pieces' → material pieces = material pieces'.
Proof.
  induction 1 as [|p l l' _ IH|p q l|l1 l2 l3 _ IH1 _ IH2];
    rewrite ?material_cons; lia.
Qed.

Lemma material_nonneg pieces : 0 ≤ material pieces.
Proof.
  induction pieces as [|p l IH]; [done|]. rewrite material_cons.
  destruct (Piece.type p); cbn; lia.
Qed.

Lemma afterCapture_material st color target :
  let gain := match target with Some t => PIECE_VALUES (Piece.type t) | None => 0 end in
  materialOf color (afterCapture st color target).2
  = materialOf color (State.capturedPieces st) + gain ∧
  materialOf (opponentOf color) (afterCapture st color target).2
  = materialOf (opponentOf color) (State.capturedPieces st).
Proof.
  destruct target as [t|]; cbn; [|split; lia].
  destruct color; cbn; unfold whiteMaterial, blackMaterial; cbn;
    by rewrite material_snoc.
Qed.

(** X18. Captures are credited to the mover. When [executeMove] commits a
    move, the material the panel shows for the mover's color grows by the
    value of the piece found on the target cell (pawn 1, knight and bishop 3,
    rook 5, queen 9, king 0; nothing for an empty cell) and the material of
    the other color is unchanged; so the advantage shown moves by that value
    towards the mover. Material is never negative and does not depend on the
    order of a captured list, which the panel sorts in place. *)
Theorem captures_credit_the_mover :
  (∀ st st' piece targetX targetY targetZ move,
     ¬ promotes piece targetZ →
     executeMove st piece targetX targetY targetZ move = Done st' →
     let gain := match cell (State.boardState st) targetX targetY targetZ with
                 | Some t => PIECE_VALUES (Piece.type t)
                 | None => 0
                 end in
     materialOf (Piece.color piece) (State.capturedPieces st')
     = materialOf (Piece.color piece) (State.capturedPieces st) + gain ∧
     (∀ other, other ≠ Piece.color piece →
        materialOf other (State.capturedPieces st')
        = materialOf other (State.capturedPieces st)) ∧
     materialAdvantage (State.capturedPieces st')
     = materialAdvantage (State.capturedPieces st)
       + match Piece.color piece with white => gain | black => - gain end) ∧
  (∀ pieces pieces', Permutation pieces pieces' → material pieces = material pieces') ∧
  (∀ pieces, 0 ≤ material pieces).
Proof.
  split; [|split; [apply material_Permutation|apply material_nonneg]].
  intros st st' piece tx ty tz move Hnp Hrun gain. rewrite promotes_iff in Hnp.
  destruct (executeMove_commits _ _ _ _ _ _ _ Hnp Hrun) as (Hcap & _).
  apply (f_equal snd) in Hcap. cbn [snd] in Hcap.
  destruct (afterCapture_material st (Piece.color piece)
              (cell (State.boardState st) tx ty tz)) as [Hown Hother].
  rewrite <- Hcap in Hown, Hother. fold gain in Hown.
  split; [done|]. split.
  - intros other Hne. by rewrite <- (opponentOf_other _ _ Hne).
  - unfold materialAdvantage. destruct (Piece.color piece); cbn in *; lia.
Qed.

Lemma captures_credit_the_mover_witness :
  (∃ st', executeMove (stateOf checkedBoard white) rescuingQueen 0 7 0
                      (Move.mk 0 7 0 true None) = Done st' ∧
          materialAdvantage (State.capturedPieces st') = 5) ∧
  (∃ st', executeMove (stateOf checkedBoard black) checkingRook 5 7 0
                      (Move.mk 5 7 0 true None) = Done st' ∧
          materialAdvantage (State.capturedPieces st') = -9).
Proof.
  split.
  - eexists. split; [vm_compute; reflexivity|].
    match goal with
    | |- context [State.capturedPieces ?s] =>
        destruct (proj1 captures_credit_the_mover (stateOf checkedBoard white) s
                    rescuingQueen 0 7 0 (Move.mk 0 7 0 true None)) as (_ & _ & Hadv)
    end.
    + intros [_ [[_ Hz]|[Hc _]]]; [discriminate Hz|discriminate Hc].
    + vm_compute. reflexivity.
    + exact Hadv.
  - eexists. split; [vm_compute; reflexivity|].
    match goal with
    | |- context [State.capturedPieces ?s] =>
        destruct (proj1 captures_credit_the_mover (stateOf checkedBoard black) s
                    checkingRook 5 7 0 (Move.mk 5 7 0 true None)) as (_ & _ & Hadv)
    end.
    + intros [Hty _]. discriminate Hty.
    + vm_compute. reflexivity.
    + exact Hadv.
Defined.

(** ** Unmoved pieces *)

Lemma writeCell_unmovedAtStart b x y z v b' :
  unmovedAtStart b → writeCell b x y z v = Done b' →
  (∀ p, v = Some p → Piece.hasMoved p = true) →
  unmovedAtStart b'.
Proof.
  intros Hstart Hw Hv x' y' z' p. rewrite (cell_writeCell _ _ _ _ _ _ _ _ _ Hw).
  destruct (decide ((x', y', z') = (x, y, z))) as [Heq|Hne].
  - rewrite bool_decide_eq_true_2 by done. intros Hp%Hv Hunmoved. congruence.
  - rewrite bool_decide_eq_false_2 by done. apply Hstart.
Qed.

Lemma relocateRook_unmovedAtStart b from to targetY targetZ b' :
  unmovedAtStart b → relocateRook b from to targetY targetZ = Done b' →
  unmovedAtStart b'.
Proof.
  intros Hstart. unfold relocateRook.
  intros (rook & _ & Hrest)%bind_Done.
  destruct rook as [rook|]; [|by simplify_eq].
  apply bind_Done in Hrest as (b1 & Hw1 & Hw2).
  eapply writeCell_unmovedAtStart; [|exact Hw2|by intros p [= <-]].
  eapply writeCell_unmovedAtStart; [exact Hstart|exact Hw1|done].
Qed.

(** X19. An unmoved piece is an original piece on its original cell. The
    handlers only ever store pieces with [hasMoved = true]: in every state
    reached from the initial one by [executeMove] and [handlePromotion], a
    piece with [hasMoved = false] stands on the cell where
    [initializeBoardState] put it and is the piece it put there; so the
    [hasMoved] tests of castling speak of the original king and rooks. *)
Theorem unmoved_pieces_are_original :
  unmovedAtStart (State.boardState initialState) ∧
  (∀ st piece targetX targetY targetZ move st',
     unmovedAtStart (State.boardState st) →
     executeMove st piece targetX targetY targetZ move = Done st' →
     unmovedAtStart (State.boardState st')) ∧
  (∀ st promotedTo st',
     unmovedAtStart (State.boardState st) →
     handlePromotion st promotedTo = Done st' →
     unmovedAtStart (State.boardState st')).
Proof.
  split; [by intros x y z p Hcell _|]. split.
  - intros st piece tx ty tz move st' Hstart. unfold executeMove.
    destruct (bool_decide (Piece.type piece = P) && _); [by intros [= <-]|].
    intros (targetPiece & _ & Hrest)%bind_Done.
    destruct (afterCapture st (Piece.color piece) targetPiece) as [status captured].
    apply bind_Done in Hrest as (b1 & Hw1 & Hrest).
    apply bind_Done in Hrest as (b2 & Hb2 & [= <-]). cbn.
    assert (unmovedAtStart b1) as Hstart1
      by (eapply writeCell_unmovedAtStart; [exact Hstart|exact Hw1|done]).
    assert (∀ b', writeCell b1 tx ty tz (Some (movedTo piece tx ty tz)) = Done b' →
                  unmovedAtStart b') as Hput.
    { intros b' Hw. eapply writeCell_unmovedAtStart; [exact Hstart1|exact Hw|].
      by intros p [= <-]. }
    destruct (Move.castle move) as [side|]; [|by apply Hput].
    apply bind_Done in Hb2 as (bk & Hwk & Hrook).
    destruct side; eapply relocateRook_unmovedAtStart; try exact Hrook; by apply Hput.
  - intros st promotedTo st' Hstart. unfold handlePromotion.
    destruct (State.promotionData st) as [pd|]; [|by intros [= <-]].
    intros (b1 & Hw1 & Hrest)%bind_Done.
    apply bind_Done in Hrest as (targetPiece & _ & Hrest).
    destruct (afterCapture st _ targetPiece) as [status captured].
    apply bind_Done in Hrest as (b2 & Hw2 & [= <-]). cbn.
    eapply writeCell_unmovedAtStart; [|exact Hw2|by intros p [= <-]].
    eapply writeCell_unmovedAtStart; [exact Hstart|exact Hw1|done].
Qed.

Lemma unmoved_pieces_are_original_witness :
  ∃ st', executeMove initialState (Piece.mk P white 0 0 1 false) 0 0 2
                     (Move.mk 0 0 2 false None) = Done st' ∧
         unmovedAtStart (State.boardState st').
Proof.
  eexists. split; [vm_compute; reflexivity|].
  match goal with
  | |- unmovedAtStart (State.boardState ?s) =>
      apply (proj1 (proj2 unmoved_pieces_are_original) initialState
               (Piece.mk P white 0 0 1 false) 0 0 2 (Move.mk 0 0 2 false None) s)
  end.
  - exact (proj1 unmoved_pieces_are_original).
  - vm_compute. reflexivity.
Defined.

(** ** A game played from the initial position *)

Lemma generated_not_own b piece m :
  unmovedKingsHome b →
  cell b (Piece.x piece) (Piece.y piece) (Piece.z piece) = Some piece →
  m ∈ calculateValidMoves piece b →
  notOwn (Piece.color piece) (cell b (Move.x m) (Move.y m) (Move.z m)) ∧
  (Move.x m, Move.y m, Move.z m) ≠ (Piece.x piece, Piece.y piece, Piece.z piece).
Proof.
  intros Hhome Hon [Hplain|Hc]%calculateValidMoves_cases.
  - by destruct Hplain as (_ & _ & Hown & _ & Hne).
  - apply in_castleMoves in Hc as [(HK & Hunmoved & _) Hside].
    pose proof (Hhome _ _ _ _ Hon HK Hunmoved) as Hx.
    destruct Hside as [[-> Ho]|[-> Ho]]; unfold kingsideMove, queensideMove; cbn;
      rewrite Hx.
    + destruct Ho as (_ & _ & H6 & _). change (4 + 2) with 6. rewrite H6.
      split; [done|]. intros [=].
    + destruct Ho as (_ & _ & H2 & _). change (4 - 2) with 2. rewrite H2.
      split; [done|]. intros [=].
Qed.

Lemma afterCapture_byColor st color target :
  capturedByColor (State.capturedPieces st) → notOwn color target →
  capturedByColor (afterCapture st color target).2.
Proof.
  intros [Hw Hb] Hown. destruct target as [t|]; cbn; [|done]. cbn in Hown.
  destruct color; cbn; split; try done; intros p [Hp | ->%list_elem_of_singleton]%elem_of_app;
    auto; by destruct (Piece.color t).
Qed.

Lemma click_keeps_play st x y z :
  playInvariant st → isWithinBounds x y z = true →
  ∃ st', click st x y z = Done st' ∧ playInvariant st'.
Proof.
  intros (Happ & Hhome & Hcap & Hpend) Hb.
  destruct (proj1 (proj2 app_steps) st x y z Happ Hb) as (st' & Hrun & Happ').
  exists st'. split; [done|].
  destruct (click_cases _ _ _ _ _ Hrun)
    as [->|(_ & Hpd & [(sel & -> & _)|(sel & m & Hs & Hm & Hto & Hexec)])]; [done|..].
  - split; [done|]. split; [done|]. split; [done|]. intros pd Hpd'. cbn in Hpd'. congruence.
  - destruct Happ as (Hinv & Hsel & _). destruct (Hsel _ Hs) as [Hon _].
    destruct (generated_not_own _ _ _ Hhome Hon Hm) as [Hown Hne].
    injection Hto as <- <- <-.
    split; [done|]. split.
    { by eapply (proj1 (proj2 unmoved_kings_stay_home)). }
    destruct (decide (Piece.type sel = P ∧ Move.z m = promotionRank (Piece.color sel)))
      as [[Hty Hz]|Hnp].
    + unfold executeMove in Hexec. rewrite !bool_decide_eq_true_2 in Hexec by done.
      injection Hexec as <-. split; [done|]. by intros pd [= <-].
    + destruct (executeMove_commits _ _ _ _ _ _ _ Hnp Hexec) as (Hc & _ & _ & Hnopd & _).
      split.
      * apply (f_equal snd) in Hc. cbn [snd] in Hc. rewrite Hc.
        by apply afterCapture_byColor.
      * intros pd Hpd'. congruence.
Qed.

Lemma handlePromotion_keeps_play st promotedTo :
  playInvariant st →
  ∃ st', handlePromotion st promotedTo = Done st' ∧ playInvariant st'.
Proof.
  intros (Happ & Hhome & Hcap & Hpend).
  destruct (proj2 (proj2 app_steps) st promotedTo Happ) as (st' & Hrun & Happ').
  exists st'. split; [done|]. split; [done|]. split.
  { by eapply (proj2 (proj2 unmoved_kings_stay_home)). }
  unfold handlePromotion in Hrun.
  destruct (State.promotionData st) as [pd|] eqn:Hpd;
    [|injection Hrun as <-; split; [done|]; intros pd' Hpd'; congruence].
  destruct (Hpend _ eq_refl) as [Hne Hown].
  apply bind_Done in Hrun as (b1 & Hw1 & Hrest).
  apply bind_Done in Hrest as (targetPiece & Hread%readCell_cell & Hrest).
  assert (targetPiece = cell (State.boardState st) (PromotionData.x pd)
                             (PromotionData.y pd) (PromotionData.z pd)) as ->.
  { rewrite Hread. rewrite (cell_writeCell _ _ _ _ _ _ _ _ _ Hw1).
    by rewrite bool_decide_eq_false_2. }
  pose proof (afterCapture_byColor st _ _ Hcap Hown) as Hcap'.
  destruct (afterCapture st _ _) as [status captured].
  apply bind_Done in Hrest as (b2 & _ & [= <-]). cbn. split; [done|].
  by intros pd' Hpd'.
Qed.

(** X20. In a game played from the initial position no side ever captures
    its own piece. The states reached from the initial one by clicks on
    cells of the cube and by [handlePromotion] all satisfy the invariant of
    play: unmoved kings stand on column [x = 4], so no castle lands on an
    occupied cell, the piece removed by a move or by a promotion is of the
    other color, and each captured list holds pieces of its own color
    only. *)
Theorem play_keeps_captures_by_color :
  playInvariant initialState ∧
  (∀ st x y z, playInvariant st → isWithinBounds x y z = true →
               ∃ st', click st x y z = Done st' ∧ playInvariant st') ∧
  (∀ st promotedTo, playInvariant st →
                    ∃ st', handlePromotion st promotedTo = Done st' ∧ playInvariant st').
Proof.
  split; [|split; [apply click_keeps_play|apply handlePromotion_keeps_play]].
  split; [apply (proj1 app_steps)|]. split; [apply (proj1 unmoved_kings_stay_home)|].
  split; [|by intros pd Hpd]. split; by intros p Hp%elem_of_nil.
Qed.

Lemma play_keeps_captures_by_color_witness :
  ∃ st', click initialState 0 0 1 = Done st' ∧ playInvariant st'.
Proof.
  apply (proj1 (proj2 play_keeps_captures_by_color) initialState 0 0 1).
  - exact (proj1 play_keeps_captures_by_color).
  - reflexivity.
Defined.

(** ** [findKing] looks at one king *)

Lemma allCells_sorted : StronglySorted cellBefore allCells.
Proof. apply (bool_decide_unpack _). vm_compute. exact I. Qed.

Lemma firstKing_split kingColor b cs king :
  firstKing kingColor b cs = Some king →
  ∃ pre x y z post,
    cs = pre ++ (x, y, z) :: post ∧ cell b x y z = Some king ∧ kingOf kingColor king ∧
    ∀ x' y' z' p, (x', y', z') ∈ pre → cell b x' y' z' = Some p → ¬ kingOf kingColor p.
Proof.
  induction cs as [|[[x0 y0] z0] cs IH]; simpl; [done|].
  destruct (isKingOf kingColor (cell b x0 y0 z0)) eqn:Hk.
  - intros Hcell. apply isKingOf_true in Hk as (q & Hq & Hking).
    exists [], x0, y0, z0, cs. split; [done|]. split; [done|].
    split; [congruence|]. by intros x' y' z' p ?%elem_of_nil.
  - intros (pre & x & y & z & post & -> & Hcell & Hking & Hpre)%IH.
    exists ((x0, y0, z0) :: pre), x, y, z, post. split; [done|]. split; [done|].
    split; [done|]. intros x' y' z' p [Heq|Hin]%elem_of_cons Hc Hkp.
    + simplify_eq. assert (isKingOf kingColor (cell b x0 y0 z0) = true) as Hyes
        by (apply isKingOf_true; eauto). congruence.
    + by apply (Hpre x' y' z' p).
Qed.

(** X21. [findKing] returns the first king in the order of its loops. On a
    board with several kings of a color (the promotion handler can make
    one), the king [findKing] returns, hence the only one [isKingInCheck]
    watches, is the one whose cell comes first by [x], then [y], then [z]:
    every other king of the color stands on a later cell. *)
Theorem findKing_returns_first (kingColor : Color) (b : BoardState) (king : Piece.t) :
  cubic b →
  findKing kingColor b = Some king →
  ∃ kx ky kz,
    cell b kx ky kz = Some king ∧ kingOf kingColor king ∧
    ∀ x y z p, cell b x y z = Some p → kingOf kingColor p →
               (x, y, z) = (kx, ky, kz) ∨ cellBefore (kx, ky, kz) (x, y, z).
Proof.
  intros Hc (pre & kx & ky & kz & post & Hsplit & Hcell & Hking & Hpre)%firstKing_split.
  exists kx, ky, kz. split; [done|]. split; [done|].
  intros x y z p Hp Hkp.
  pose proof (in_allCells _ _ _ (cell_Some_bounds _ _ _ _ _ Hc Hp)) as Hin.
  rewrite Hsplit in Hin. apply elem_of_app in Hin as [Hin|Hin].
  { by destruct (Hpre _ _ _ _ Hin Hp). }
  apply elem_of_cons in Hin as [Heq|Hin]; [by left|]. right.
  pose proof allCells_sorted as Hsorted. rewrite Hsplit in Hsorted.
  apply StronglySorted_app_1_r, StronglySorted_cons in Hsorted as [Hall _].
  rewrite Forall_forall in Hall. by apply Hall.
Qed.

Lemma findKing_returns_first_witness :
  findKing white twoKingsBoard = Some (Piece.mk K white 0 0 0 true) ∧
  isSquareAttacked 5 5 5 black twoKingsBoard = true ∧
  isKingInCheck white twoKingsBoard = false ∧
  ∃ kx ky kz,
    cell twoKingsBoard kx ky kz = Some (Piece.mk K white 0 0 0 true) ∧
    ((5, 5, 5) = (kx, ky, kz) ∨ cellBefore (kx, ky, kz) (5, 5, 5)).
Proof.
  split; [reflexivity|]. split; [reflexivity|]. split; [reflexivity|].
  assert (cubic twoKingsBoard) as Hc by check_cubic.
  destruct (findKing_returns_first white twoKingsBoard _ Hc eq_refl)
    as (kx & ky & kz & Hcell & _ & Hfirst).
  exists kx, ky, kz. split; [exact Hcell|].
  apply (Hfirst 5 5 5 secondKing); [reflexivity|split; reflexivity].
Defined.
